(** * mpitree: decision-tree induction and traversal

    A shallow embedding of [mpitree/tree/_node.py] and
    [mpitree/tree/decision_tree.py], followed by the properties of the
    specification of the library, each proved of the embedding or refuted
    on it, and by further properties of the code. The definitions come
    first, the properties after them.

    Conventions of the embedding:
    - an object-dtype numpy cell is a [cell]: a number or a string;
      numbers are canonical rationals ([Qc]), so Python's [==] on numbers
      is Leibniz equality;
    - a 2D array is a list of rows; a 1D array is a list;
    - a Python exception is a constructor of [error]; a function that may
      raise returns a [result];
    - a [dict] is an association list in insertion order;
    - floating-point quantities (entropy, weights, gains) are idealised as
      rationals [Q], with [np.log2] a parameter of the development; sums
      that are equal as rationals can differ in their last bit as floats,
      so on an input where two gains or two costs are equal here the code
      can keep another index than [argmin] and [argmax] keep here. *)

From Stdlib Require Import String Ascii DecimalString.
From Stdlib Require Import List ZArith QArith Qcanon Bool Arith Lia Permutation.
From Stdlib Require Import Sorted DecimalNat.
Import ListNotations.

Local Close Scope Qc_scope.
Local Close Scope Q_scope.
Local Open Scope string_scope.
Local Open Scope list_scope.
Local Open Scope nat_scope.

Set Implicit Arguments.

(* ================================================================= *)
(** ** Values, exceptions *)

(** One cell of an object-dtype array. *)
Inductive cell : Type :=
| Num (q : Qc)
| Str (s : string).

Definition num (z : Z) : cell := Num (Q2Qc (inject_Z z)).

Definition cell_eq_dec (a b : cell) : {a = b} + {a <> b}.
Proof.
  decide equality.
  - apply Qc_eq_dec.
  - apply string_dec.
Defined.

Definition cell_eqb (a b : cell) : bool :=
  if cell_eq_dec a b then true else false.

Definition is_num (c : cell) : bool :=
  match c with Num _ => true | Str _ => false end.

Definition is_str (c : cell) : bool := negb (is_num c).

(** The exceptions the modelled code can raise. *)
Inductive error : Type :=
| TypeError
| KeyError (key : cell)
| IndexError
| ValueError
| AttributeError
| AssertionError
| StatisticsError
| NotImplementedError
| NotFittedError
| PyException
| OutOfFuel.

Inductive result (A : Type) : Type :=
| Ok (a : A)
| Err (e : error).

Arguments Ok {A} a.
Arguments Err {A} e.

Definition bind {A B : Type} (m : result A) (k : A -> result B) : result B :=
  match m with
  | Ok a => k a
  | Err e => Err e
  end.

Notation "x <- m ;; k" := (bind m (fun x => k))
  (at level 61, m at next level, right associativity).
Notation "' pat <- m ;; k" := (bind m (fun x => match x with pat => k end))
  (at level 61, pat pattern, m at next level, right associativity).

Definition of_option {A : Type} (e : error) (o : option A) : result A :=
  match o with
  | Some a => Ok a
  | None => Err e
  end.

Fixpoint mapM {A B : Type} (f : A -> result B) (l : list A) : result (list B) :=
  match l with
  | [] => Ok []
  | a :: t => b <- f a ;; bs <- mapM f t ;; Ok (b :: bs)
  end.

(** Python's ordering on cells: numbers among themselves, strings among
    themselves; a number against a string raises [TypeError]. *)
Definition Qc_ltb (a b : Qc) : bool :=
  match Qccompare a b with Lt => true | _ => false end.

Definition Qc_leb (a b : Qc) : bool :=
  match Qccompare a b with Gt => false | _ => true end.

Definition py_lt (a b : cell) : result bool :=
  match a, b with
  | Num x, Num y => Ok (Qc_ltb x y)
  | Str s, Str t => Ok (String.ltb s t)
  | _, _ => Err TypeError
  end.

Definition py_le (a b : cell) : result bool :=
  match a, b with
  | Num x, Num y => Ok (Qc_leb x y)
  | Str s, Str t => Ok (String.leb s t)
  | _, _ => Err TypeError
  end.

(* ================================================================= *)
(** ** Dictionaries in insertion order *)

Section Dict.
Variables K V : Type.
Variable K_eq_dec : forall a b : K, {a = b} + {a <> b}.

Definition dict_get (k : K) (d : list (K * V)) : option V :=
  option_map snd (find (fun kv => if K_eq_dec (fst kv) k then true else false) d).

(** [d[k] = v]: an existing key keeps its position. *)
Fixpoint dict_set (k : K) (v : V) (d : list (K * V)) : list (K * V) :=
  match d with
  | [] => [(k, v)]
  | (k', v') :: t =>
      if K_eq_dec k' k then (k', v) :: t else (k', v') :: dict_set k v t
  end.

Definition dict_keys (d : list (K * V)) : list K := map fst d.
Definition dict_values (d : list (K * V)) : list V := map snd d.
End Dict.

Arguments dict_get {K V} K_eq_dec k d.
Arguments dict_set {K V} K_eq_dec k v d.

(* ================================================================= *)
(** ** [DecisionNode] ([_node.py]) *)

(** A node of the tree. [feature] is the name of the split feature of an
    internal node and the predicted class of a leaf; [children] maps the
    branch labels to the subtrees, in insertion order; [parent] is the copy
    of the parent taken when the node was made ([make_node] deep-copies
    the node together with the parent it refers to), with the children the
    parent had at that moment. *)
Unset Elimination Schemes.
Inductive DecisionNode : Type := mkNode {
  feature : cell;
  threshold : option cell;
  branch : option cell;
  depth : nat;
  parent : option DecisionNode;
  children : list (cell * DecisionNode);
  target : list cell;
  value : list nat;
  n_samples : nat;
  classes : list cell
}.
Set Elimination Schemes.

(** [is_leaf]: [not self.children]. *)
Definition is_leaf (n : DecisionNode) : bool :=
  match children n with
  | [] => true
  | _ :: _ => false
  end.

(** Indexing a pair by a Python [bool]: [False] is 0, [True] is 1. *)
Definition pair_index {A : Type} (p : A * A) (b : bool) : A :=
  if b then snd p else fst p.

(** The branch label [__getitem__] computes for a query value. *)
Definition branch_for (t : option cell) (other : cell) : result cell :=
  match t with
  | Some t =>
      le <- py_le other t ;;
      Ok (pair_index (Str "True", Str "False") le)
  | None => Ok other
  end.

(** [DecisionNode.__getitem__]. *)
Definition __getitem__ (self : DecisionNode) (other : cell) : result DecisionNode :=
  br <- branch_for (threshold self) other ;;
  of_option (KeyError br) (dict_get cell_eq_dec br (children self)).

(* ================================================================= *)
(** ** Arrays *)

Definition matrix := list (list cell).

(** [len(X)], [X.shape[1]] and [X.size]. *)
Definition shape0 (X : matrix) : nat := length X.

Definition shape1 (X : matrix) : nat :=
  match X with
  | [] => 0
  | r :: _ => length r
  end.

Definition size (X : matrix) : nat := shape0 X * shape1 X.

(** [X[:, idx]]. *)
Definition column (idx : nat) (X : matrix) : result (list cell) :=
  mapM (fun r => of_option IndexError (nth_error r idx)) X.

(** [x[-1]]. *)
Definition last_cell (x : list cell) : result cell :=
  of_option IndexError (nth_error x (length x - 1)).

(** [a[mask]] and [a[~mask]] for a boolean mask aligned with [a]. *)
Definition select {A : Type} (mask : list bool) (a : list A) : list A :=
  map snd (filter fst (combine mask a)).

Definition invert (mask : list bool) : list bool := map negb mask.

(** [del l[idx]] on one row; [np.delete(X, idx, axis=1)] on an array. *)
Fixpoint remove_at {A : Type} (idx : nat) (l : list A) : list A :=
  match l, idx with
  | [], _ => []
  | _ :: t, 0 => t
  | h :: t, S i => h :: remove_at i t
  end.

Definition np_delete_col (idx : nat) (X : matrix) : matrix :=
  map (remove_at idx) X.

(** [np.all(X == X[0])]. *)
Definition all_rows_equal_first (X : matrix) : bool :=
  match X with
  | [] => true
  | r0 :: _ => forallb (fun r => if list_eq_dec cell_eq_dec r r0 then true else false) X
  end.

(** [np.unique]: the sorted distinct elements; sorting an object array
    that mixes numbers and strings raises [TypeError]. *)
Definition cell_leb (a b : cell) : bool :=
  match a, b with
  | Num x, Num y => Qc_leb x y
  | Str s, Str t => String.leb s t
  | Num _, Str _ => true
  | Str _, Num _ => false
  end.

Fixpoint insert_sorted (x : cell) (l : list cell) : list cell :=
  match l with
  | [] => [x]
  | h :: t => if cell_leb x h then x :: l else h :: insert_sorted x t
  end.

Definition sort_cells (l : list cell) : list cell :=
  fold_right insert_sorted [] l.

Definition homogeneous (l : list cell) : bool :=
  forallb is_num l || forallb is_str l.

Definition np_unique (l : list cell) : result (list cell) :=
  if homogeneous l then Ok (sort_cells (nodup cell_eq_dec l)) else Err TypeError.

Definition count (k : cell) (l : list cell) : nat := count_occ cell_eq_dec l k.

(** [np.unique(l, return_counts=True)], zipped into a dict. *)
Definition unique_counts (l : list cell) : result (list (cell * nat)) :=
  u <- np_unique l ;;
  Ok (map (fun k => (k, count k l)) u).

(** [statistics.mode]: the most common value, the first encountered among
    equally common ones; [StatisticsError] on empty data. The data are
    scanned in order and a value replaces the best one so far only when it
    is strictly more common; this is the first maximum of the counter
    [Counter(data).most_common(1)] returns. *)
Fixpoint mode_from (best : cell) (best_n : nat) (todo data : list cell) : cell :=
  match todo with
  | [] => best
  | k :: t =>
      if best_n <? count k data
      then mode_from k (count k data) t data
      else mode_from best best_n t data
  end.

Definition mode (data : list cell) : result cell :=
  match data with
  | [] => Err StatisticsError
  | x :: t => Ok (mode_from x (count x data) t data)
  end.

(** Modelled from the spec: [_util.is_numeric_dtype] is not among the
    sources; a column is numerical when every cell of it is a number
    (columns are typed homogeneously, detected per column). *)
Definition is_numeric_dtype (col : list cell) : bool := forallb is_num col.

(** Modelled from the spec: [np.split_mask] is not among the sources; it
    yields the rows under the mask, then the rows under its complement. *)
Definition split_mask {A : Type} (a : list A) (mask : list bool) : list (list A) :=
  [select mask a; select (invert mask) a].

(* ================================================================= *)
(** ** Rational arithmetic standing for floats *)

Definition Q_of_nat (n : nat) : Q := inject_Z (Z.of_nat n).

Definition Qltb (a b : Q) : bool := negb (Qle_bool b a).

Definition Qsum (l : list Q) : Q := fold_right Qplus 0%Q l.

(** [np.dot] of two 1D arrays. *)
Definition dot (a b : list Q) : Q :=
  Qsum (map (fun p => (fst p * snd p)%Q) (combine a b)).

(** [np.argmin], [np.argmax]: the index of the first extremum. *)
Fixpoint arg_best (better : Q -> Q -> bool) (best_i : nat) (best : Q)
    (i : nat) (l : list Q) : nat :=
  match l with
  | [] => best_i
  | x :: t =>
      if better x best then arg_best better i x (S i) t
      else arg_best better best_i best (S i) t
  end.

Definition argmin (l : list Q) : result nat :=
  match l with
  | [] => Err ValueError
  | x :: t => Ok (arg_best Qltb 0 x 1 t)
  end.

Definition argmax (l : list Q) : result nat :=
  match l with
  | [] => Err ValueError
  | x :: t => Ok (arg_best (fun a b => Qltb b a) 0 x 1 t)
  end.

(** The builtin [min]: the first minimal element. *)
Definition py_min (l : list Q) : result Q :=
  match l with
  | [] => Err ValueError
  | x :: t => Ok (fold_left (fun m c => if Qltb c m then c else m) t x)
  end.

(* ================================================================= *)
(** ** Construction of a node *)

(** [DecisionNode(...)] followed by [__post_init__]: [value] counts the
    instances of every global class in [target], [n_samples] is the length
    of [target], and [depth] is one more than the parent's. *)
Definition DecisionNode_init (feature : cell) (branch : option cell)
    (parent : option DecisionNode) (target classes : list cell)
    : result DecisionNode :=
  n_class_dist <- unique_counts target ;;
  Ok {| feature := feature;
        threshold := None;
        branch := branch;
        depth := match parent with
                 | Some p => depth p + 1
                 | None => 0
                 end;
        parent := parent;
        children := [];
        target := target;
        value := map (fun k => match dict_get cell_eq_dec k n_class_dist with
                               | Some c => c
                               | None => 0
                               end) classes;
        n_samples := length target;
        classes := classes |}.

(** [split_node.threshold = t]. *)
Definition set_threshold (n : DecisionNode) (t : cell) : DecisionNode :=
  {| feature := feature n; threshold := Some t; branch := branch n;
     depth := depth n; parent := parent n; children := children n;
     target := target n; value := value n; n_samples := n_samples n;
     classes := classes n |}.

(** [split_node.children[b] = subtree]. *)
Definition set_child (n : DecisionNode) (b : cell) (subtree : DecisionNode)
    : DecisionNode :=
  {| feature := feature n; threshold := threshold n; branch := branch n;
     depth := depth n; parent := parent n;
     children := dict_set cell_eq_dec b subtree (children n);
     target := target n; value := value n; n_samples := n_samples n;
     classes := classes n |}.

(* ================================================================= *)
(** ** The estimator *)

(** The hyperparameters and the attributes set by [fit]. *)
Record estimator : Type := mkEstimator {
  max_depth : option nat;
  min_samples_split : nat;
  feature_names_ : list string;
  classes_ : list cell;
  unique_levels_ : list (nat * list cell);
  n_thresholds_ : list (nat * cell);
  tree_ : option DecisionNode
}.

(** [self.n_thresholds_] is the one attribute written during induction;
    it is threaded through the builder as a value of this type. *)
Definition thresholds := list (nat * cell).

Definition key_of_nat (i : nat) : cell := num (Z.of_nat i).

(** What [_partition_data] returns: a [zip] of two triples for a threshold
    node, one triple otherwise. *)
Inductive partition : Type :=
| Zipped (parts : list (matrix * list cell * cell))
| Single (part : matrix * list cell * cell).

(** [DecisionTreeClassifier._partition_data]. *)
Definition _partition_data (X : matrix) (y : list cell) (feature_idx : nat)
    (level : cell) (split_node : DecisionNode) : result partition :=
  match threshold split_node with
  | Some t =>
      col <- column feature_idx X ;;
      mask <- mapM (fun v => py_lt v t) col ;;
      if negb (forallb (fun i : matrix => negb (size i =? 0)) (split_mask X mask))
      then Err AssertionError
      else if negb (forallb (fun i : list cell => negb (length i =? 0))
                      (split_mask y mask))
      then Err AssertionError
      else Ok (Zipped (combine (combine (split_mask X mask) (split_mask y mask))
                         [Str "True"; Str "False"]))
  | None =>
      col <- column feature_idx X ;;
      let mask := map (fun v => cell_eqb v level) col in
      Ok (Single (np_delete_col feature_idx (select mask X), select mask y, level))
  end.

(** The loop [for X, y, branch in n_subtrees] of [_tree_builder]; [build]
    is the recursive call. Each child is built with the split node as it is
    at that moment as its parent, and is then attached under its branch. *)
Fixpoint attach_subtrees
    (build : thresholds -> matrix -> list cell -> DecisionNode -> cell ->
             result (DecisionNode * thresholds))
    (th : thresholds) (split_node : DecisionNode)
    (n_subtrees : list (matrix * list cell * cell))
    : result (DecisionNode * thresholds) :=
  match n_subtrees with
  | [] => Ok (split_node, th)
  | (Xs, ys, b) :: rest =>
      '(subtree, th1) <- build th Xs ys split_node b ;;
      attach_subtrees build th1 (set_child split_node b subtree) rest
  end.

Section Splitter.

(** [np.log2], idealised. *)
Variable log2 : Q -> Q.

(** Modelled from the spec: [np.proba] is not among the sources; class
    counts over the total count, in the order of [np.unique]. *)
Definition proba (x : list cell) : result (list Q) :=
  u <- np_unique x ;;
  Ok (map (fun k => (Q_of_nat (count k x) / Q_of_nat (length x))%Q) u).

(** [DecisionTreeClassifier._entropy]. *)
Definition _entropy (x : list cell) : result Q :=
  p <- proba x ;;
  Ok (- Qsum (map (fun q => q * log2 q) p))%Q.

(** The closure [cost] of [_compute_optimal_threshold], applied to one
    row [x] of [X]. *)
Definition cost (X : matrix) (y : list cell) (feature_idx : nat)
    (x : list cell) : result Q :=
  threshold <- last_cell x ;;
  col <- column feature_idx X ;;
  mask <- mapM (fun v => py_lt v threshold) col ;;
  let levels := split_mask X mask in
  let weights := map (fun level : matrix =>
                        (Q_of_nat (length level) / Q_of_nat (length X))%Q) levels in
  e1 <- _entropy (select mask y) ;;
  e2 <- _entropy (select (invert mask) y) ;;
  Ok (dot weights [e1; e2]).

(** [DecisionTreeClassifier._compute_optimal_threshold]. *)
Definition _compute_optimal_threshold (X : matrix) (y : list cell)
    (feature_idx : nat) : result (Q * cell) :=
  costs <- mapM (cost X y feature_idx) X ;;
  idx <- argmin costs ;;
  row <- of_option IndexError (nth_error X idx) ;;
  t_hat <- last_cell row ;;
  min_cost <- py_min costs ;;
  ey <- _entropy y ;;
  Ok ((ey - min_cost)%Q, t_hat).

(** [DecisionTreeClassifier._compute_information_gain]. *)
Definition _compute_information_gain (th : thresholds) (X : matrix)
    (y : list cell) (feature_idx : nat) : result (Q * thresholds) :=
  col <- column feature_idx X ;;
  if is_numeric_dtype col then
    '(max_gain, t_hat) <- _compute_optimal_threshold X y feature_idx ;;
    Ok (max_gain, dict_set Nat.eq_dec feature_idx t_hat th)
  else
    weight <- proba col ;;
    levels <- np_unique col ;;
    impurity <- mapM (fun level =>
                  _entropy (select (map (fun v => cell_eqb v level) col) y))
                levels ;;
    ey <- _entropy y ;;
    Ok ((ey - dot weight impurity)%Q, th).

(** The comprehension [[self._compute_information_gain(X, y, i) for i in
    range(X.shape[1])]]. *)
Fixpoint feature_importances (th : thresholds) (X : matrix) (y : list cell)
    (idxs : list nat) : result (list Q * thresholds) :=
  match idxs with
  | [] => Ok ([], th)
  | i :: rest =>
      '(g, th1) <- _compute_information_gain th X y i ;;
      '(gs, th2) <- feature_importances th1 X y rest ;;
      Ok (g :: gs, th2)
  end.

(** [DecisionTreeClassifier._tree_builder]. The recursion of the source is
    bounded by [fuel]; [fit] supplies enough of it. *)
Fixpoint _tree_builder (fuel : nat) (self : estimator) (th : thresholds)
    (X : matrix) (y : list cell) (feature_indices : list nat)
    (parent : option DecisionNode) (branch : option cell) (depth : nat)
    {struct fuel} : result (DecisionNode * thresholds) :=
  match fuel with
  | 0 => Err OutOfFuel
  | S fuel' =>
      let make_node := fun v =>
        DecisionNode_init v branch parent y (classes_ self) in
      let leaf := fun v : cell => n <- make_node v ;; Ok (n, th) in
      uy <- np_unique y ;;
      if length uy =? 1 then m <- mode y ;; leaf m
      else if size X =? 0 then
        p <- of_option AttributeError parent ;;
        m <- mode (target p) ;; leaf m
      else if all_rows_equal_first X then m <- mode y ;; leaf m
      else if match max_depth self with
              | Some k => k =? depth
              | None => false
              end
      then m <- mode y ;; leaf m
      else if length X <? min_samples_split self then m <- mode y ;; leaf m
      else
        '(gains, th1) <- feature_importances th X y (seq 0 (shape1 X)) ;;
        split_feature_idx <- argmax gains ;;
        norm_split_feature_idx <-
          of_option IndexError (nth_error feature_indices split_feature_idx) ;;
        split_feature <-
          of_option IndexError
            (nth_error (feature_names_ self) norm_split_feature_idx) ;;
        split_node <- make_node (Str split_feature) ;;
        col <- column split_feature_idx X ;;
        split_node <-
          (if is_numeric_dtype col then
             t <- of_option (KeyError (key_of_nat split_feature_idx))
                    (dict_get Nat.eq_dec split_feature_idx th1) ;;
             Ok (set_threshold split_node t)
           else Ok split_node) ;;
        levels <- of_option (KeyError (key_of_nat split_feature_idx))
                    (dict_get Nat.eq_dec split_feature_idx (unique_levels_ self)) ;;
        parts <- mapM (fun level =>
                   _partition_data X y split_feature_idx level split_node)
                 levels ;;
        '(n_subtrees, feature_indices) <-
          (if is_numeric_dtype col then
             match parts with
             | Zipped z :: _ => Ok (z, feature_indices)
             | Single _ :: _ => Err TypeError
             | [] => Err IndexError
             end
           else
             triples <- mapM (fun p => match p with
                                       | Single t => Ok t
                                       | Zipped _ => Err TypeError
                                       end) parts ;;
             if split_feature_idx <? length feature_indices
             then Ok (triples, remove_at split_feature_idx feature_indices)
             else Err IndexError) ;;
        attach_subtrees
          (fun th Xs ys split_node b =>
             _tree_builder fuel' self th Xs ys feature_indices
               (Some split_node) (Some b) (depth + 1))
          th1 split_node n_subtrees
  end.

(** The input containers [fit] tells apart. *)
Inductive features : Type :=
| PyList (X : matrix)
| NdArray (X : matrix)
| DataFrame (columns : list string) (X : matrix)
| OtherType.

Definition feature_name (i : nat) : string :=
  "feature_" ++ NilEmpty.string_of_uint (Nat.to_uint i).

(** sklearn's [check_X_y], reduced to its shape checks: a rectangular 2D
    array with at least one row and one column, and as many targets as
    rows; [ValueError] otherwise. *)
Definition check_X_y (X : matrix) (y : list cell) : result unit :=
  if (0 <? shape0 X) && (0 <? shape1 X)
     && forallb (fun r : list cell => length r =? shape1 X) X
     && (length y =? shape0 X)
  then Ok tt else Err ValueError.

(** The comprehension building [self.unique_levels_]. *)
Definition unique_levels (X : matrix) : result (list (nat * list cell)) :=
  mapM (fun feature_idx =>
          col <- column feature_idx X ;;
          if is_numeric_dtype col
          then Ok (feature_idx, [Str "True"; Str "False"])
          else u <- np_unique col ;; Ok (feature_idx, u))
       (seq 0 (shape1 X)).

(** [DecisionTreeClassifier.fit]. *)
Definition fit (self : estimator) (input : features) (y : list cell)
    : result estimator :=
  '(names, X) <-
    match input with
    | PyList X =>
        x0 <- of_option IndexError (nth_error X 0) ;;
        Ok (map feature_name (seq 0 (length x0)), X)
    | NdArray X => Ok (map feature_name (seq 0 (shape1 X)), X)
    | DataFrame columns X => Ok (columns, X)
    | OtherType => Err PyException
    end ;;
  _ <- check_X_y X y ;;
  classes <- np_unique y ;;
  levels <- unique_levels X ;;
  let self :=
    {| max_depth := max_depth self;
       min_samples_split := min_samples_split self;
       feature_names_ := names;
       classes_ := classes;
       unique_levels_ := levels;
       n_thresholds_ := [];
       tree_ := None |} in
  '(tree, th) <- _tree_builder (S (shape0 X + shape1 X)) self [] X y
                   (seq 0 (shape1 X)) None None 0 ;;
  Ok {| max_depth := max_depth self;
        min_samples_split := min_samples_split self;
        feature_names_ := names;
        classes_ := classes;
        unique_levels_ := levels;
        n_thresholds_ := th;
        tree_ := Some tree |}.

End Splitter.

(** [DecisionTreeClassifier(max_depth=..., min_samples_split=...)]. *)
Definition DecisionTreeClassifier (max_depth : option nat)
    (min_samples_split : nat) : estimator :=
  {| max_depth := max_depth;
     min_samples_split := min_samples_split;
     feature_names_ := [];
     classes_ := [];
     unique_levels_ := [];
     n_thresholds_ := [];
     tree_ := None |}.

(* ================================================================= *)
(** ** The validation of a query *)

(** sklearn's [check_array], reduced to its shape checks as [check_X_y]
    is: a rectangular 2D array with at least one row and one column;
    [ValueError] otherwise. It returns the array as it is. *)
Definition check_array (X : matrix) : result unit :=
  if (0 <? shape0 X) && (0 <? shape1 X)
     && forallb (fun r : list cell => length r =? shape1 X) X
  then Ok tt else Err ValueError.

(* ================================================================= *)
(** ** Queries on a fitted tree *)

(** [list.index]. *)
Fixpoint index_of (f : cell) (names : list string) : result nat :=
  match names with
  | [] => Err ValueError
  | s :: rest =>
      if cell_eq_dec (Str s) f then Ok 0
      else i <- index_of f rest ;; Ok (S i)
  end.

(** [tree_walk] of [_decision_paths]. The loop descends one child per
    iteration, so it is written by recursion on the node;
    [tree_walk_unfold] below states it as one iteration of the source's
    loop. *)
Fixpoint tree_walk (names : list string) (x : list cell)
    (tree_node : DecisionNode) {struct tree_node} : result DecisionNode :=
  match tree_node with
  | mkNode f t _ _ _ cs _ _ _ _ =>
      match cs with
      | [] => Ok tree_node
      | _ :: _ =>
          feature_idx <- index_of f names ;;
          query_level <- of_option IndexError (nth_error x feature_idx) ;;
          br <- branch_for t query_level ;;
          (fix lookup (d : list (cell * DecisionNode)) : result DecisionNode :=
             match d with
             | [] => Err (KeyError br)
             | (k, c) :: rest =>
                 if cell_eq_dec k br then tree_walk names x c else lookup rest
             end) cs
      end
  end.

Definition fitted_tree (self : estimator) : result DecisionNode :=
  of_option NotFittedError (tree_ self).

(** [BaseDecisionTree._decision_paths]. *)
Definition _decision_paths (self : estimator) (X : matrix)
    : result (list DecisionNode) :=
  tree <- fitted_tree self ;;
  _ <- check_array X ;;
  mapM (fun x => tree_walk (feature_names_ self) x tree) X.

(** [BaseDecisionTree.predict]. *)
Definition predict (self : estimator) (X : matrix) : result (list cell) :=
  _ <- fitted_tree self ;;
  _ <- check_array X ;;
  paths <- _decision_paths self X ;;
  Ok (map feature paths).

(** [compute_class_proba] of [predict_proba]. *)
Definition compute_class_proba (tree_node : DecisionNode) : result (list Q) :=
  if n_samples tree_node =? 0 then
    p <- of_option AttributeError (parent tree_node) ;;
    Ok (map (fun v => (Q_of_nat v / Q_of_nat (n_samples p))%Q) (value p))
  else
    Ok (map (fun v => (Q_of_nat v / Q_of_nat (n_samples tree_node))%Q)
          (value tree_node)).

(** [DecisionTreeClassifier.predict_proba]. *)
Definition predict_proba (self : estimator) (X : matrix)
    : result (list (list Q)) :=
  _ <- fitted_tree self ;;
  _ <- check_array X ;;
  paths <- _decision_paths self X ;;
  mapM compute_class_proba paths.

(* ================================================================= *)
(** ** Enumeration of the nodes *)

(** [list.pop()]: the last element and the list without it. *)
Fixpoint pop {A : Type} (l : list A) : option (A * list A) :=
  match l with
  | [] => None
  | x :: t =>
      match pop t with
      | None => Some (x, [])
      | Some (z, t') => Some (z, x :: t')
      end
  end.

(** [sorted(l, key=key)] for a boolean key: a stable sort with [False]
    before [True]. *)
Fixpoint insert_by {A : Type} (key : A -> bool) (x : A) (l : list A) : list A :=
  match l with
  | [] => [x]
  | h :: t =>
      if implb (key x) (key h) then x :: l else h :: insert_by key x t
  end.

Definition sorted {A : Type} (key : A -> bool) (l : list A) : list A :=
  fold_right (insert_by key) [] l.

(** The loop of [BaseDecisionTree.__iter__]; the yielded nodes in order. *)
Fixpoint iter_loop (fuel : nat) (frontier : list DecisionNode)
    : result (list DecisionNode) :=
  match pop frontier with
  | None => Ok []
  | Some (tree_node, frontier) =>
      match fuel with
      | 0 => Err OutOfFuel
      | S fuel' =>
          rest <- iter_loop fuel'
                    (frontier ++ sorted (fun n => negb (is_leaf n))
                                   (dict_values (children tree_node))) ;;
          Ok (tree_node :: rest)
      end
  end.

(** The number of nodes of a tree, which bounds the iterations. *)
Fixpoint node_count (n : DecisionNode) : nat :=
  match n with
  | mkNode _ _ _ _ _ cs _ _ _ _ =>
      S ((fix go (d : list (cell * DecisionNode)) : nat :=
            match d with
            | [] => 0
            | (_, c) :: rest => node_count c + go rest
            end) cs)
  end.

(** [BaseDecisionTree.__iter__]. *)
Definition __iter__ (self : estimator) : result (list DecisionNode) :=
  tree <- fitted_tree self ;;
  iter_loop (node_count tree) [tree].

(** The enumeration in the words of the specification: an explicit LIFO
    stack (top at the head); a popped node is yielded, then its leaf
    children are pushed in insertion order, then its non-leaf children in
    insertion order. *)
Definition push_each {A : Type} (stack : list A) (xs : list A) : list A :=
  fold_left (fun st x => x :: st) xs stack.

Fixpoint spec_dfs (fuel : nat) (stack : list DecisionNode)
    : result (list DecisionNode) :=
  match stack with
  | [] => Ok []
  | n :: stack =>
      match fuel with
      | 0 => Err OutOfFuel
      | S fuel' =>
          let kids := dict_values (children n) in
          let stack := push_each stack (filter is_leaf kids) in
          let stack := push_each stack (filter (fun c => negb (is_leaf c)) kids) in
          rest <- spec_dfs fuel' stack ;;
          Ok (n :: rest)
      end
  end.

(** The same enumeration by recursion on the tree: the node, then the
    subtrees of its non-leaf children from the last inserted to the first,
    then its leaf children from the last inserted to the first. *)
Fixpoint preorder (n : DecisionNode) : list DecisionNode :=
  match n with
  | mkNode _ _ _ _ _ cs _ _ _ _ =>
      n :: (fix internal (d : list (cell * DecisionNode))
                (acc : list DecisionNode) : list DecisionNode :=
              match d with
              | [] => acc
              | (_, c) :: rest =>
                  internal rest (if is_leaf c then acc else preorder c ++ acc)
              end) cs []
        ++ (fix leaves (d : list (cell * DecisionNode))
                (acc : list DecisionNode) : list DecisionNode :=
              match d with
              | [] => acc
              | (_, c) :: rest =>
                  leaves rest (if is_leaf c then c :: acc else acc)
              end) cs []
  end.

(* ================================================================= *)
(** ** Breadth-first enumeration ([export_graphviz]) *)

(** The generator [bfs] of [export_graphviz]: a queue, served from the
    left, to which the children of the served node are appended; the pairs
    it yields, in order. The recursion is bounded by [fuel]. *)
Fixpoint bfs_loop (fuel : nat) (queue : list DecisionNode)
    : result (list (DecisionNode * list DecisionNode)) :=
  match queue with
  | [] => Ok []
  | node :: queue =>
      match fuel with
      | 0 => Err OutOfFuel
      | S fuel' =>
          let kids := dict_values (children node) in
          rest <- bfs_loop fuel' (queue ++ kids) ;;
          Ok ((node, kids) :: rest)
      end
  end.

Definition bfs (source : DecisionNode)
    : result (list (DecisionNode * list DecisionNode)) :=
  bfs_loop (node_count source) [source].

(* ================================================================= *)
(** ** The score of a classifier *)

(** sklearn's [accuracy_score], reduced to its count: the fraction of the
    positions at which the two arrays agree. *)
Definition accuracy_score (y_true y_pred : list cell) : Q :=
  (Q_of_nat (length (filter (fun p => cell_eqb (fst p) (snd p))
                       (combine y_true y_pred)))
   / Q_of_nat (length y_true))%Q.

(** [DecisionTreeClassifier.score]. *)
Definition score (self : estimator) (X : matrix) (y : list cell) : result Q :=
  _ <- fitted_tree self ;;
  _ <- check_X_y X y ;;
  y_pred <- predict self X ;;
  Ok (accuracy_score y y_pred).

(* ================================================================= *)
(** ** The regressor and the parallel classifier *)

(** [DecisionTreeRegressor(...)]: [max_depth] defaults to [np.inf], which
    no depth equals, hence [None] here. *)
Definition DecisionTreeRegressor : estimator :=
  {| max_depth := None;
     min_samples_split := 1;
     feature_names_ := [];
     classes_ := [];
     unique_levels_ := [];
     n_thresholds_ := [];
     tree_ := None |}.

(** [check_X_y(X, y, y_numeric=True)], with the default [dtype="numeric"]
    for the features: as [check_X_y], and a feature that is a string is
    refused with [ValueError]; the targets are taken as they are. *)
Definition check_X_y_numeric (X : matrix) (y : list cell) : result unit :=
  _ <- check_X_y X y ;;
  if forallb (forallb is_num) X then Ok tt else Err ValueError.

(** [DecisionTreeRegressor.fit]. *)
Definition DecisionTreeRegressor_fit (self : estimator) (X : matrix)
    (y : list cell) : result estimator :=
  _ <- check_X_y_numeric X y ;;
  Ok self.

(** [DecisionTreeRegressor._tree_builder]. *)
Definition DecisionTreeRegressor_tree_builder (X : matrix) (y : list cell)
    (parent : option DecisionNode) (branch : option cell) (depth : nat)
    : result DecisionNode :=
  Err NotImplementedError.

(** [class ParallelDecisionTreeClassifier(DecisionTreeClassifier): pass]:
    every method is inherited. *)
Definition ParallelDecisionTreeClassifier := DecisionTreeClassifier.

Definition ParallelDecisionTreeClassifier_fit := fit.

(* ================================================================= *)
(** ** Text of a node and of a tree *)

Section Display.

(** Python's [str] of a number and the format [.2f] of a float,
    idealised; [float] of a string. *)
Variable str_num : Qc -> string.
Variable format_2f : Qc -> string.
Variable float_of_string : string -> result Qc.

(** [DecisionNode._estimator_type], the class attribute the constructor
    of the last estimator made has set. *)
Variable _estimator_type : string.

Definition str_cell (c : cell) : string :=
  match c with
  | Num q => str_num q
  | Str s => s
  end.

Definition str_option (c : option cell) : string :=
  match c with
  | Some c => str_cell c
  | None => "None"
  end.

Definition py_float (c : cell) : result Qc :=
  match c with
  | Num q => Ok q
  | Str s => float_of_string s
  end.

(** The truth value of a threshold: [None], zero and the empty string are
    false. *)
Definition truthy (t : option cell) : bool :=
  match t with
  | None => false
  | Some (Num q) => if Qc_eq_dec q (Q2Qc 0) then false else true
  | Some (Str EmptyString) => false
  | Some (Str (String _ _)) => true
  end.

Definition option_cell_eq_dec (a b : option cell) : {a = b} + {a <> b}.
Proof.
  decide equality. apply cell_eq_dec.
Defined.

(** [n * s] on a string. *)
Fixpoint str_times (n : nat) (s : string) : string :=
  match n with
  | 0 => EmptyString
  | S k => s ++ str_times k s
  end.

(** [DecisionNode.__str__]. *)
Definition DecisionNode_str (self : DecisionNode) : result string :=
  let spacing :=
    (str_times (depth self) "│  "
     ++ (if is_leaf self then "└──"
         else if negb (Nat.eqb (depth self) 0) then "├──" else "┌──"))%string in
  let info := str_cell (feature self) in
  let info :=
    if is_leaf self && String.eqb _estimator_type "classifier"
    then ("class: " ++ str_cell (feature self))%string else info in
  let info :=
    if is_leaf self && String.eqb _estimator_type "regressor"
    then ("target: " ++ str_cell (feature self))%string else info in
  match parent self with
  | None => Ok (spacing ++ " " ++ info)%string
  | Some p =>
      b <- (if truthy (threshold p) then
              t <- (match threshold p with
                    | Some t => py_float t
                    | None => Err TypeError
                    end) ;;
              if option_cell_eq_dec (branch self) (Some (Str "True"))
              then Ok ("<= " ++ format_2f t)%string
              else Ok ("> " ++ format_2f t)%string
            else Ok (str_option (branch self))) ;;
      Ok (spacing ++ " " ++ info ++ " [" ++ b ++ "]")%string
  end.

(** [BaseDecisionTree.__str__]: the lines of the nodes [__iter__] yields,
    joined by newlines. *)
Definition __str__ (self : estimator) : result string :=
  _ <- fitted_tree self ;;
  nodes <- __iter__ self ;;
  lines <- mapM DecisionNode_str nodes ;;
  Ok (String.concat (String "010" EmptyString) lines).

End Display.

(* ================================================================= *)
(** ** A base-2 logarithm to run the examples

    [log2_pow2] is exact on the powers of two (and on their inverses),
    the only probabilities the examples of this file give rise to. *)
Definition log2_pow2 (q : Q) : Q :=
  let r := Qred q in
  inject_Z (Z.log2 (Qnum r) - Z.log2 (Zpos (Qden r))).

(* ================================================================= *)
(** ** The triples of a split *)

(** The two triples of a numerical split. *)
Definition numerical_parts (X : matrix) (y : list cell) (mask : list bool)
    : list (matrix * list cell * cell) :=
  [(select mask X, select mask y, Str "True");
   (select (invert mask) X, select (invert mask) y, Str "False")].

(** The triple of one level of a categorical split. *)
Definition categorical_part (X : matrix) (y col : list cell) (idx : nat)
    (level : cell) : matrix * list cell * cell :=
  let mask := map (fun v => cell_eqb v level) col in
  (np_delete_col idx (select mask X), select mask y, level).

(* ================================================================= *)
(** ** Vocabulary of the properties *)

(** [at_depth root k n]: [n] is reached from [root] by following [k]
    parent-to-child edges. *)
Inductive at_depth (root : DecisionNode) : nat -> DecisionNode -> Prop :=
| at_depth_root : at_depth root 0 root
| at_depth_child : forall k n b c,
    at_depth root k n -> In (b, c) (children n) -> at_depth root (S k) c.

Definition in_tree (root n : DecisionNode) : Prop :=
  exists k, at_depth root k n.

(** The labels on the edges leaving a node. *)
Definition branch_labels (n : DecisionNode) : list cell :=
  dict_keys (children n).

(** [walk_reaches names x root n]: the loop of [tree_walk] on row [x],
    started at [root], has [n] as its current node at some iteration. *)
Inductive walk_reaches (names : list string) (x : list cell)
    (root : DecisionNode) : DecisionNode -> Prop :=
| walk_start : walk_reaches names x root root
| walk_step : forall n feature_idx query_level c,
    walk_reaches names x root n ->
    is_leaf n = false ->
    index_of (feature n) names = Ok feature_idx ->
    nth_error x feature_idx = Some query_level ->
    __getitem__ n query_level = Ok c ->
    walk_reaches names x root c.

(** What a raised exception carries as its argument. *)
Definition error_names (e : error) (c : cell) : Prop :=
  match e with
  | KeyError k => k = c
  | _ => False
  end.

(** The statistics [__post_init__] establishes on a node. *)
Definition counts_ok (self : estimator) (n : DecisionNode) : Prop :=
  length (value n) = length (classes_ self) /\
  list_sum (value n) = n_samples n /\
  n_samples n = length (target n).

(** The invariant of the trees [_tree_builder] returns, for a node built
    at depth [d]: its depth is [d], within [max_depth]; its counts are
    consistent; a node without samples is a leaf below a parent with
    samples, labelled by the mode of the parent's target; its children
    satisfy the invariant one level down. *)
Inductive built (self : estimator) : nat -> DecisionNode -> Prop :=
| built_node : forall d n,
    depth n = d ->
    (forall k, max_depth self = Some k -> d <= k) ->
    counts_ok self n ->
    (n_samples n = 0 ->
     exists p, parent n = Some p /\ counts_ok self p /\ 0 < n_samples p /\
               children n = [] /\ mode (target p) = Ok (feature n)) ->
    (forall b c, In (b, c) (children n) -> built self (S d) c) ->
    built self d n.

(** The array of an input container. *)
Definition input_array (input : features) : option matrix :=
  match input with
  | PyList X | NdArray X | DataFrame _ X => Some X
  | OtherType => None
  end.

(** The depth [__post_init__] gives a node below [parent]. *)
Definition ctx_depth (parent : option DecisionNode) : nat :=
  match parent with
  | Some p => depth p + 1
  | None => 0
  end.

(** Two nodes with the same statistics, parent and depth. *)
Definition same_stats (a b : DecisionNode) : Prop :=
  depth a = depth b /\ parent a = parent b /\ target a = target b /\
  value a = value b /\ n_samples a = n_samples b.

(** A computation that does not run out of fuel. *)
Definition in_fuel {A : Type} (r : result A) : Prop := r <> Err OutOfFuel.

(** A rectangular array: every row is as long as the first. *)
Definition rectangular (X : matrix) : Prop :=
  Forall (fun r => length r = shape1 X) X.

(* ================================================================= *)
(** ** Vocabulary of the structure of a tree *)

(** The node [sn] with the subtrees [kids] attached one after the other,
    as the loop of the builder does. *)
Definition attach_all (sn : DecisionNode) (kids : list (cell * DecisionNode))
    : DecisionNode :=
  fold_left (fun s kc => set_child s (fst kc) (snd kc)) kids sn.

(** The node [n] with [cs] for children. *)
Definition set_children (n : DecisionNode) (cs : list (cell * DecisionNode))
    : DecisionNode :=
  {| feature := feature n; threshold := threshold n; branch := branch n;
     depth := depth n; parent := parent n; children := cs;
     target := target n; value := value n; n_samples := n_samples n;
     classes := classes n |}.

(* ================================================================= *)
(** ** Data of the examples *)

Definition clf : estimator := DecisionTreeClassifier None 2.

(** One numerical feature, two instances. *)
Definition X_two : matrix := [[num 1]; [num 2]].
Definition y_two : list cell := [Str "a"; Str "b"].

(** Two numerical features. *)
Definition X_pair : matrix := [[num 1; num 10]; [num 2; num 20]].

(** One numerical feature whose first candidate ties with the best. *)
Definition X_tie : matrix := [[num 1]; [num 2]; [num 1]; [num 2]].
Definition y_tie : list cell := [Str "a"; Str "a"; Str "b"; Str "b"].

(** One categorical feature (the end-to-end scenario of the spec). *)
Definition X_cat : matrix := [[Str "A"]; [Str "A"]; [Str "B"]; [Str "B"]].
Definition y_cat : list cell := [Str "yes"; Str "yes"; Str "no"; Str "no"].

(** Two categorical features with the domains [{A, B}] and [{P, Q}]. *)
Definition X_nested : matrix :=
  [[Str "A"; Str "P"]; [Str "A"; Str "Q"]; [Str "B"; Str "P"]; [Str "B"; Str "Q"]].
Definition y_nested : list cell := [Str "u"; Str "v"; Str "v"; Str "u"].

(** The value of a computation that succeeds, for the examples. *)
Definition get {A : Type} (default : A) (r : result A) : A :=
  match r with
  | Ok a => a
  | Err _ => default
  end.

(** A node to stand for a failed computation in the examples. *)
Definition get_node (r : option DecisionNode) : DecisionNode :=
  match r with
  | Some n => n
  | None => mkNode (Str EmptyString) None None 0 None [] [] [] 0 []
  end.

(** The end-to-end scenario, fitted with [max_depth = 1]. *)
Definition clf_depth1 : estimator := DecisionTreeClassifier (Some 1) 2.

Definition fitted_cat : estimator :=
  get clf_depth1 (fit log2_pow2 clf_depth1 (NdArray X_cat) y_cat).

Definition tree_cat : DecisionNode := get_node (tree_ fitted_cat).

Definition leaf_cat_A : DecisionNode :=
  get tree_cat (__getitem__ tree_cat (Str "A")).

(** The costs of the two candidate thresholds of [X_tie]: below the
    threshold 1 there is no row; the threshold 2 halves the rows. *)
Definition cost_tie_low (log2 : Q -> Q) : Q :=
  let p := (Q_of_nat 2 / Q_of_nat 4)%Q in
  dot [(Q_of_nat 0 / Q_of_nat 4)%Q; (Q_of_nat 4 / Q_of_nat 4)%Q]
      [(- Qsum [])%Q; (- Qsum [p * log2 p; p * log2 p])%Q].

Definition cost_tie_high (log2 : Q -> Q) : Q :=
  let q := (Q_of_nat 1 / Q_of_nat 2)%Q in
  let h := (- Qsum [q * log2 q; q * log2 q])%Q in
  dot [(Q_of_nat 2 / Q_of_nat 4)%Q; (Q_of_nat 2 / Q_of_nat 4)%Q] [h; h].

(* ================================================================= *)
(** ** Data of the further examples *)

(** The tree fitted on [X_two]: one threshold node above two leaves. *)
Definition fitted_two : estimator :=
  get clf (fit log2_pow2 clf (NdArray X_two) y_two).

Definition tree_two : DecisionNode := get_node (tree_ fitted_two).

(** The second leaf of the end-to-end scenario. *)
Definition leaf_cat_B : DecisionNode :=
  get tree_cat (__getitem__ tree_cat (Str "B")).

(** The end-to-end scenario, fitted with [max_depth = 0]. *)
Definition clf_depth0 : estimator := DecisionTreeClassifier (Some 0) 2.

Definition fitted_stump : estimator :=
  get clf_depth0 (fit log2_pow2 clf_depth0 (NdArray X_cat) y_cat).

(** Targets of a single class. *)
Definition y_pure : list cell := [Str "a"; Str "a"].

Definition fitted_pure : estimator :=
  get clf (fit log2_pow2 clf (NdArray X_two) y_pure).

(** Two rows that have no column left, with targets of two classes. *)
Definition X_bare : matrix := [[]; []].
Definition y_bare : list cell := [Str "q"; Str "r"].

(** A categorical column with a single level. *)
Definition X_same : matrix := [[Str "A"]; [Str "A"]].

(** Formatting of the numbers of the examples, which are integers:
    [str] and the format [.2f]; [float] of a string that is not the text
    of a number. *)
Definition str_int (q : Qc) : string :=
  NilEmpty.string_of_int (Z.to_int (Qnum q)).

Definition format_2f_int (q : Qc) : string := str_int q ++ ".00".

Definition float_of_word (s : string) : result Qc := Err ValueError.

(** [X_pair], given as a list and fitted with [max_depth = 0]. *)
Definition fitted_pair : estimator :=
  get clf_depth0 (fit log2_pow2 clf_depth0 (PyList X_pair) y_two).

(** The threshold search on the last column of [X_pair]. *)
Definition search_pair : Q * cell :=
  get (0%Q, num 0) (_compute_optimal_threshold log2_pow2 X_pair y_two 1).

(** The class probabilities of the rows of [X_two]. *)
Definition proba_two : list (list Q) :=
  get [] (predict_proba fitted_two X_two).

(** A node counted for three classes, of which one does not occur. *)
Definition node_counted : DecisionNode :=
  mkNode (Str "x") None None 0 None [] y_cat [0; 2; 2] 4
         [Str "maybe"; Str "no"; Str "yes"].

(** The tree fitted on [X_nested], its node under [A], which splits
    [feature_1], and the child of that node under [A]. *)
Definition fitted_nested : estimator :=
  get clf (fit log2_pow2 clf (NdArray X_nested) y_nested).

Definition tree_nested : DecisionNode := get_node (tree_ fitted_nested).

Definition node_nested_A : DecisionNode :=
  get tree_nested (__getitem__ tree_nested (Str "A")).

Definition leaf_nested_AA : DecisionNode :=
  get node_nested_A (__getitem__ node_nested_A (Str "A")).

(** [X_pair], fitted without a depth limit, and a call of the builder on
    it that starts from thresholds recorded earlier. *)
Definition fitted_pair_full : estimator :=
  get clf (fit log2_pow2 clf (NdArray X_pair) y_two).

Definition built_pair : DecisionNode * thresholds :=
  get (get_node None, [])
      (_tree_builder log2_pow2 5 fitted_pair_full [(0, num 7); (1, num 7)]
         X_pair y_two [0; 1] None None 0).

(* ================================================================= *)
(** * Properties *)

Unset Implicit Arguments.

(* ================================================================= *)
(** ** The result monad *)

Lemma bind_Ok (A B : Type) (m : result A) (k : A -> result B) (b : B) :
  bind m k = Ok b -> exists a, m = Ok a /\ k a = Ok b.
Proof.
  destruct m as [a|e]; simpl; intros H.
  - exists a. split; [reflexivity | exact H].
  - discriminate.
Qed.

Lemma of_option_Ok (A : Type) (e : error) (o : option A) (a : A) :
  of_option e o = Ok a -> o = Some a.
Proof.
  destruct o; simpl; intros H; [injection H as -> | discriminate]; reflexivity.
Qed.

(** Peels the successful binds of a hypothesis [H : ... = Ok _]. *)
Ltac inv_bind H :=
  repeat match type of H with
  | bind ?m ?k = Ok ?b =>
      let a := fresh "a" in
      let Ha := fresh "E" in
      apply bind_Ok in H; destruct H as [a [Ha H]]
  | (let (_, _) := ?p in _) = Ok _ => destruct p
  | (match ?p with (_, _) => _ end) = Ok _ => destruct p
  | (match ?p with tt => _ end) = Ok _ => destruct p
  end.

(** Evaluates a subterm of the goal. *)
Ltac run e := let v := eval vm_compute in e in change e with v.

(** Case analysis on the condition of a hypothesis [H : (if c then _ else _) = _]. *)
Ltac case_if H E :=
  match type of H with
  | (if ?c then _ else _) = _ => destruct c eqn:E
  end.

Lemma mapM_length (A B : Type) (f : A -> result B) (l : list A) (r : list B) :
  mapM f l = Ok r -> length r = length l.
Proof.
  revert r. induction l as [|a t IH]; simpl; intros r H.
  - injection H as <-. reflexivity.
  - inv_bind H. injection H as <-. simpl. f_equal. apply IH. assumption.
Qed.

Lemma mapM_In (A B : Type) (f : A -> result B) (l : list A) (r : list B) (b : B) :
  mapM f l = Ok r -> In b r -> exists a, In a l /\ f a = Ok b.
Proof.
  revert r. induction l as [|a t IH]; simpl; intros r H Hin.
  - injection H as <-. destruct Hin.
  - inv_bind H. injection H as <-. destruct Hin as [<- | Hin].
    + exists a. auto.
    + destruct (IH _ E0 Hin) as [a' [Ha' Hf]]. exists a'. auto.
Qed.

(* ================================================================= *)
(** ** Dictionaries *)

Lemma dict_get_In (K V : Type) (dec : forall a b : K, {a = b} + {a <> b})
    (k : K) (v : V) (d : list (K * V)) :
  dict_get dec k d = Some v -> In (k, v) d.
Proof.
  unfold dict_get. induction d as [|[k' v'] d IH]; simpl; [discriminate|].
  destruct (dec k' k) as [->|Hne]; simpl.
  - intros H. injection H as <-. left. reflexivity.
  - intros H. right. apply IH. assumption.
Qed.

Lemma dict_get_None (V : Type) (k : cell) (d : list (cell * V)) :
  ~ In k (dict_keys d) -> dict_get cell_eq_dec k d = None.
Proof.
  unfold dict_get, dict_keys. induction d as [|[k' v'] d IH]; simpl; intros H.
  - reflexivity.
  - destruct (cell_eq_dec k' k) as [->|Hne]; simpl.
    + contradiction H. left. reflexivity.
    + apply IH. intros Hin. apply H. right. assumption.
Qed.

Lemma dict_set_In (V : Type) (k b : cell) (v c : V) (d : list (cell * V)) :
  In (b, c) (dict_set cell_eq_dec k v d) -> (b, c) = (k, v) \/ In (b, c) d.
Proof.
  induction d as [|[k' v'] d IH]; simpl.
  - intros [H|[]]. left. symmetry. assumption.
  - destruct (cell_eq_dec k' k) as [->|Hne]; simpl.
    + intros [H|H]; [left; symmetry; assumption | right; right; assumption].
    + intros [H|H]; [right; left; assumption|].
      destruct (IH H) as [G|G]; [left | right; right]; assumption.
Qed.

(** Setting a key that is not in the dictionary adds it at the end. *)
Lemma dict_set_keys_new (V : Type) (k : cell) (v : V) (d : list (cell * V)) :
  ~ In k (dict_keys d) ->
  dict_keys (dict_set cell_eq_dec k v d) = dict_keys d ++ [k].
Proof.
  unfold dict_keys. induction d as [|[k' v'] d IH]; simpl; intros H.
  - reflexivity.
  - destruct (cell_eq_dec k' k) as [->|Hne].
    + contradiction H. left. reflexivity.
    + simpl. f_equal. apply IH. intros Hin. apply H. right. assumption.
Qed.

(* ================================================================= *)
(** ** Comparisons *)

Lemma Qc_leb_le (a b : Qc) : Qc_leb a b = true <-> (a <= b)%Qc.
Proof.
  unfold Qc_leb. rewrite Qcle_alt.
  destruct (a ?= b)%Qc; split; intros H; try reflexivity; try discriminate.
  contradiction H. reflexivity.
Qed.

Lemma Qc_ltb_lt (a b : Qc) : Qc_ltb a b = true <-> (a < b)%Qc.
Proof.
  unfold Qc_ltb. rewrite Qclt_alt.
  destruct (a ?= b)%Qc; split; intros H; try reflexivity; discriminate.
Qed.

Lemma Qltb_irrefl (c : Q) : Qltb c c = false.
Proof.
  unfold Qltb.
  assert (H : Qle_bool c c = true) by (apply Qle_bool_iff, Qle_refl).
  rewrite H. reflexivity.
Qed.

(* ================================================================= *)
(** ** [np.unique] and the class counts *)

Lemma insert_sorted_perm x l : Permutation (insert_sorted x l) (x :: l).
Proof.
  induction l as [|h t IH]; simpl.
  - apply Permutation_refl.
  - destruct (cell_leb x h).
    + apply Permutation_refl.
    + eapply perm_trans; [apply perm_skip, IH | apply perm_swap].
Qed.

Lemma sort_cells_perm l : Permutation (sort_cells l) l.
Proof.
  induction l as [|h t IH]; simpl.
  - apply perm_nil.
  - eapply perm_trans; [apply insert_sorted_perm | apply perm_skip, IH].
Qed.

Lemma np_unique_In l u x : np_unique l = Ok u -> (In x u <-> In x l).
Proof.
  unfold np_unique. destruct (homogeneous l); [|discriminate].
  intros H. injection H as <-.
  rewrite <- (nodup_In cell_eq_dec l x).
  split; apply Permutation_in.
  - apply sort_cells_perm.
  - apply Permutation_sym, sort_cells_perm.
Qed.

Lemma np_unique_NoDup l u : np_unique l = Ok u -> NoDup u.
Proof.
  unfold np_unique. destruct (homogeneous l); [|discriminate].
  intros H. injection H as <-.
  eapply Permutation_NoDup.
  - apply Permutation_sym, sort_cells_perm.
  - apply NoDup_nodup.
Qed.

Lemma dict_get_counts k y u :
  dict_get cell_eq_dec k (map (fun c => (c, count c y)) u) =
  if in_dec cell_eq_dec k u then Some (count k y) else None.
Proof.
  unfold dict_get. induction u as [|h t IH]; simpl.
  - reflexivity.
  - destruct (cell_eq_dec h k) as [->|Hne]; simpl.
    + destruct (cell_eq_dec k k); [reflexivity | contradiction].
    + rewrite IH. destruct (cell_eq_dec h k); [contradiction|].
      destruct (in_dec cell_eq_dec k t); reflexivity.
Qed.

(** The fields [DecisionNode(...)] and [__post_init__] set. *)
Lemma DecisionNode_init_fields v b p y cs n :
  DecisionNode_init v b p y cs = Ok n ->
  feature n = v /\ threshold n = None /\ branch n = b /\
  depth n = ctx_depth p /\ parent n = p /\ children n = [] /\
  target n = y /\ value n = map (fun k => count k y) cs /\
  n_samples n = length y /\ classes n = cs.
Proof.
  unfold DecisionNode_init. intros H. inv_bind H.
  unfold unique_counts in E. inv_bind E.
  injection E as <-. injection H as <-. simpl.
  repeat split; try reflexivity.
  apply map_ext. intros k. rewrite dict_get_counts.
  destruct (in_dec cell_eq_dec k a0) as [Hin|Hnin]; [reflexivity|].
  symmetry. apply count_occ_not_In.
  intros Hy. apply Hnin. eapply np_unique_In; eassumption.
Qed.

Lemma sum_indicator (a : cell) (cs : list cell) :
  NoDup cs -> In a cs ->
  list_sum (map (fun k => if cell_eq_dec a k then 1 else 0) cs) = 1.
Proof.
  induction cs as [|c cs IH]; simpl; intros Hnd Hin; [contradiction|].
  inversion Hnd as [|? ? Hnotin Hnd']; subst.
  destruct (cell_eq_dec a c) as [->|Hne].
  - f_equal. clear - Hnotin.
    induction cs as [|k cs IH]; simpl; [reflexivity|].
    destruct (cell_eq_dec c k) as [->|_].
    + contradiction Hnotin. left. reflexivity.
    + apply IH. intros H. apply Hnotin. right. assumption.
  - destruct Hin as [->|Hin]; [contradiction|]. apply IH; assumption.
Qed.

Lemma list_sum_cons (x : nat) (l : list nat) :
  list_sum (x :: l) = x + list_sum l.
Proof. reflexivity. Qed.

Lemma sum_counts_cons (a : cell) (y cs : list cell) :
  list_sum (map (fun k => count k (a :: y)) cs) =
  list_sum (map (fun k => if cell_eq_dec a k then 1 else 0) cs) +
  list_sum (map (fun k => count k y) cs).
Proof.
  induction cs as [|c cs IH]; [reflexivity|].
  cbn [map]. rewrite !list_sum_cons, IH. unfold count. simpl.
  destruct (cell_eq_dec a c); lia.
Qed.

(** The counts of the classes add up to the number of targets, as every
    target is one of the distinct classes. *)
Lemma sum_counts (cs y : list cell) :
  NoDup cs -> incl y cs ->
  list_sum (map (fun k => count k y) cs) = length y.
Proof.
  intros Hnd. induction y as [|a y IH]; intros Hincl.
  - simpl. clear. induction cs; simpl; auto.
  - assert (Ha : In a cs) by (apply Hincl; left; reflexivity).
    assert (Hy : incl y cs) by (intros z Hz; apply Hincl; right; assumption).
    rewrite sum_counts_cons, (@sum_indicator a cs Hnd Ha), (IH Hy).
    reflexivity.
Qed.

Lemma mode_Ok_nonempty data m : mode data = Ok m -> data <> [].
Proof. destruct data; simpl; [discriminate | intros _; discriminate]. Qed.

Lemma mode_nonempty data : 0 < length data -> exists m, mode data = Ok m.
Proof. destruct data; simpl; intros H; [lia | eauto]. Qed.

Lemma select_incl (A : Type) (mask : list bool) (a : list A) :
  incl (select mask a) a.
Proof.
  unfold select. intros x Hx. apply in_map_iff in Hx.
  destruct Hx as [[m z] [<- Hx]]. apply filter_In in Hx.
  destruct Hx as [Hx _]. apply in_combine_r in Hx. assumption.
Qed.

Lemma select_length (A B : Type) (mask : list bool) (a : list A) (b : list B) :
  length a = length b -> length (select mask a) = length (select mask b).
Proof.
  unfold select. rewrite !length_map.
  revert a b. induction mask as [|m mask IH]; intros a b Hlen; [reflexivity|].
  destruct a as [|x a], b as [|z b]; try discriminate; [reflexivity|].
  simpl. injection Hlen as Hlen. specialize (IH a b Hlen).
  destruct m; simpl; congruence.
Qed.

(* ================================================================= *)
(** ** One call of the builder, inverted *)

Lemma partition_data_numerical X y idx level s t p :
  threshold s = Some t ->
  _partition_data X y idx level s = Ok p ->
  exists col mask,
    column idx X = Ok col /\
    mapM (fun v => py_lt v t) col = Ok mask /\
    select mask X <> [] /\ select (invert mask) X <> [] /\
    p = Zipped (numerical_parts X y mask).
Proof.
  unfold _partition_data. intros -> H. inv_bind H.
  case_if H HX; [discriminate|].
  case_if H Hy; [discriminate|].
  injection H as <-.
  exists a, a0. repeat split; try assumption.
  - apply negb_false_iff in HX. simpl in HX.
    intros Hn. rewrite Hn in HX. discriminate.
  - apply negb_false_iff in HX. simpl in HX.
    intros Hn. rewrite Hn in HX. simpl in HX.
    rewrite andb_false_r in HX. discriminate.
Qed.

Lemma partition_data_categorical X y idx level s p :
  threshold s = None ->
  _partition_data X y idx level s = Ok p ->
  exists col, column idx X = Ok col /\ p = Single (categorical_part X y col idx level).
Proof.
  unfold _partition_data. intros -> H. inv_bind H.
  injection H as <-. exists a. split; [assumption | reflexivity].
Qed.

Lemma init_threshold v b p y cs n :
  DecisionNode_init v b p y cs = Ok n -> threshold n = None.
Proof.
  unfold DecisionNode_init. intros H. inv_bind H. injection H as <-. reflexivity.
Qed.

Lemma argmax_bound (l : list Q) (i : nat) : argmax l = Ok i -> i < length l.
Proof.
  destruct l as [|x t]; simpl; [discriminate|].
  intros H. injection H as <-.
  assert (G : forall (better : Q -> Q -> bool) t bi b i,
             bi < i -> arg_best better bi b i t < i + length t).
  { clear. intros better t. induction t as [|c t IH]; simpl; intros bi b i Hlt.
    - lia.
    - destruct (better c b).
      + specialize (IH i c (S i)). lia.
      + specialize (IH bi b (S i)). lia. }
  specialize (G (fun a b => Qltb b a) t 0 x 1). lia.
Qed.

Lemma feature_importances_length log2 th X y idxs gs th' :
  feature_importances log2 th X y idxs = Ok (gs, th') -> length gs = length idxs.
Proof.
  revert th gs th'. induction idxs as [|i t IH]; simpl; intros th gs th' H.
  - injection H as <- _. reflexivity.
  - inv_bind H. injection H as <- _. simpl. f_equal. eapply IH. eassumption.
Qed.

(** What the triples of a split are, from the equations of the builder. *)
Lemma subtrees_inv X y idx col (th1 : thresholds) levels s0 s1 parts subtrees
    (fi fi' : list nat) v b p cs :
  DecisionNode_init v b p y cs = Ok s0 ->
  column idx X = Ok col ->
  (if is_numeric_dtype col
   then t <- of_option (KeyError (key_of_nat idx)) (dict_get Nat.eq_dec idx th1) ;;
        Ok (set_threshold s0 t)
   else Ok s0) = Ok s1 ->
  mapM (fun level => _partition_data X y idx level s1) levels = Ok parts ->
  (if is_numeric_dtype col
   then match parts with
        | Zipped z :: _ => Ok (z, fi)
        | Single _ :: _ => Err TypeError
        | [] => Err IndexError
        end
   else triples <- mapM (fun p => match p with
                                  | Single t => Ok t
                                  | Zipped _ => Err TypeError
                                  end) parts ;;
        if idx <? length fi then Ok (triples, remove_at idx fi)
        else Err IndexError) = Ok (subtrees, fi') ->
  (exists t mask,
     is_numeric_dtype col = true /\
     s1 = set_threshold s0 t /\
     length mask = length X /\
     select mask X <> [] /\ select (invert mask) X <> [] /\
     subtrees = numerical_parts X y mask)
  \/ (is_numeric_dtype col = false /\
      s1 = s0 /\ subtrees = map (categorical_part X y col idx) levels).
Proof.
  intros Hs0 Hcol Hs1 Hparts Hsub.
  pose proof (init_threshold _ _ _ _ _ _ Hs0) as Hthr.
  destruct (is_numeric_dtype col).
  - left. inv_bind Hs1. injection Hs1 as <-.
    destruct parts as [|[z|single] parts]; try discriminate.
    injection Hsub as <- <-.
    destruct levels as [|level levels]; [discriminate|].
    simpl in Hparts. inv_bind Hparts. injection Hparts as -> _.
    apply partition_data_numerical with (t := a) in E0; [|reflexivity].
    destruct E0 as [col' [mask [Hcol' [Hmask [Hne1 [Hne2 Hz]]]]]].
    injection Hz as ->.
    exists a, mask. repeat split; try assumption.
    apply mapM_length in Hmask. apply mapM_length in Hcol'. congruence.
  - right. injection Hs1 as <-.
    inv_bind Hsub.
    destruct (idx <? length fi); [|discriminate].
    injection Hsub as <- <-.
    split; [reflexivity|]. split; [reflexivity|].
    clear - Hparts E Hthr Hcol.
    revert parts a Hparts E.
    induction levels as [|level levels IH]; simpl; intros parts a Hparts E.
    + injection Hparts as <-. simpl in E. injection E as <-. reflexivity.
    + inv_bind Hparts. injection Hparts as <-.
      simpl in E. inv_bind E. injection E as <-.
      apply partition_data_categorical in E0; [|assumption].
      destruct E0 as [col' [Hcol' ->]]. injection E2 as <-.
      rewrite Hcol in Hcol'. injection Hcol' as <-.
      f_equal. apply IH with (parts := a1); assumption.
Qed.

(** What one call of [_tree_builder] does when it succeeds: it returns a
    leaf labelled by the mode of [y]; or, on an empty array, a leaf
    labelled by the mode of the parent's target; or it splits. *)
Lemma tree_builder_inv log2 fuel self th X y fi parent branch d n th' :
  _tree_builder log2 (S fuel) self th X y fi parent branch d = Ok (n, th') ->
  (exists m, mode y = Ok m /\
     DecisionNode_init m branch parent y (classes_ self) = Ok n)
  \/ (exists p m, size X = 0 /\ parent = Some p /\ mode (target p) = Ok m /\
        DecisionNode_init m branch parent y (classes_ self) = Ok n)
  \/ (exists name s0 s1 th1 fi' idx col subtrees,
        size X <> 0 /\
        (forall k, max_depth self = Some k -> k <> d) /\
        DecisionNode_init (Str name) branch parent y (classes_ self) = Ok s0 /\
        idx < shape1 X /\
        column idx X = Ok col /\
        (exists norm, nth_error fi idx = Some norm /\
                      nth_error (feature_names_ self) norm = Some name) /\
        ((exists t mask,
            is_numeric_dtype col = true /\
            s1 = set_threshold s0 t /\
            length mask = length X /\
            select mask X <> [] /\ select (invert mask) X <> [] /\
            subtrees = numerical_parts X y mask)
         \/ (exists levels,
               is_numeric_dtype col = false /\
               s1 = s0 /\
               dict_get Nat.eq_dec idx (unique_levels_ self) = Some levels /\
               subtrees = map (categorical_part X y col idx) levels)) /\
        attach_subtrees
          (fun th Xs ys sn b =>
             _tree_builder log2 fuel self th Xs ys fi' (Some sn) (Some b) (d + 1))
          th1 s1 subtrees = Ok (n, th')).
Proof.
  cbn [_tree_builder]. intros H.
  apply bind_Ok in H. destruct H as [uy [Huy H]].
  destruct (length uy =? 1).
  { left. inv_bind H. injection H as <- <-. eauto. }
  destruct (size X =? 0) eqn:Hsize.
  { right. left. inv_bind H. injection H as <- <-.
    apply Nat.eqb_eq in Hsize. apply of_option_Ok in E. eauto 10. }
  destruct (all_rows_equal_first X).
  { left. inv_bind H. injection H as <- <-. eauto. }
  destruct (match max_depth self with Some k => k =? d | None => false end) eqn:Hmax.
  { left. inv_bind H. injection H as <- <-. eauto. }
  destruct (length X <? min_samples_split self).
  { left. inv_bind H. injection H as <- <-. eauto. }
  right. right.
  apply bind_Ok in H. destruct H as [[gains th1] [Hg H]].
  apply bind_Ok in H. destruct H as [idx [Hidx H]].
  apply bind_Ok in H. destruct H as [norm [Hnorm H]].
  apply bind_Ok in H. destruct H as [name [Hname H]].
  apply bind_Ok in H. destruct H as [s0 [Hs0 H]].
  apply bind_Ok in H. destruct H as [col [Hcol H]].
  apply bind_Ok in H. destruct H as [s1 [Hs1 H]].
  apply bind_Ok in H. destruct H as [levels [Hlev H]].
  apply bind_Ok in H. destruct H as [parts [Hparts H]].
  apply bind_Ok in H. destruct H as [[subtrees fi'] [Hsub H]].
  exists name, s0, s1, th1, fi', idx, col, subtrees.
  split. { apply Nat.eqb_neq. assumption. }
  split. { intros k Hk. rewrite Hk in Hmax. apply Nat.eqb_neq. assumption. }
  split. { assumption. }
  split. { apply argmax_bound in Hidx.
           apply feature_importances_length in Hg.
           rewrite length_seq in Hg. lia. }
  split. { assumption. }
  split. { exists norm. apply of_option_Ok in Hnorm. apply of_option_Ok in Hname.
           split; assumption. }
  split; [|exact H].
  apply of_option_Ok in Hlev.
  destruct (subtrees_inv _ _ _ _ _ _ _ _ _ _ _ _ _ _ _ _ Hs0 Hcol Hs1 Hparts Hsub)
    as [(t & mask & Hnum & -> & Hlen & Hne1 & Hne2 & ->) | (Hnum & -> & ->)].
  - left. exists t, mask. repeat split; assumption.
  - right. exists levels. repeat split; assumption.
Qed.

(* ================================================================= *)
(** ** The invariant of the built trees *)

Lemma same_stats_refl n : same_stats n n.
Proof. repeat split. Qed.

Lemma same_stats_trans a b c : same_stats a b -> same_stats b c -> same_stats a c.
Proof.
  unfold same_stats. intros (?&?&?&?&?) (?&?&?&?&?). repeat split; congruence.
Qed.

Lemma same_stats_set_child n b c : same_stats n (set_child n b c).
Proof. repeat split. Qed.

Lemma same_stats_set_threshold n t : same_stats n (set_threshold n t).
Proof. repeat split. Qed.

Lemma counts_ok_same_stats self a b :
  same_stats a b -> counts_ok self a -> counts_ok self b.
Proof.
  unfold same_stats, counts_ok. intros (?&?&?&?&?) (?&?&?).
  repeat split; congruence.
Qed.

Lemma init_counts_ok self v b p y n :
  NoDup (classes_ self) -> incl y (classes_ self) ->
  DecisionNode_init v b p y (classes_ self) = Ok n -> counts_ok self n.
Proof.
  intros Hnd Hincl H. apply DecisionNode_init_fields in H.
  destruct H as (_&_&_&_&_&_&Ht&Hv&Hn&_).
  unfold counts_ok. rewrite Hv, Hn, Ht, length_map, sum_counts by assumption.
  repeat split.
Qed.

(** The loop attaching the subtrees keeps the statistics of the split node
    and only adds children the recursive call has built. *)
Lemma attach_subtrees_built self d build :
  forall subtrees th sn n th',
  (forall th Xs ys sn' b c th1,
     In (Xs, ys, b) subtrees -> same_stats sn sn' ->
     build th Xs ys sn' b = Ok (c, th1) -> built self (S d) c) ->
  (forall b c, In (b, c) (children sn) -> built self (S d) c) ->
  attach_subtrees build th sn subtrees = Ok (n, th') ->
  same_stats sn n /\ (forall b c, In (b, c) (children n) -> built self (S d) c).
Proof.
  induction subtrees as [|[[Xs ys] b] rest IH]; simpl; intros th sn n th' Hbuild Hkids H.
  - injection H as <- <-. split; [apply same_stats_refl | assumption].
  - apply bind_Ok in H. destruct H as [[subtree th1] [Hsub H]].
    apply IH in H.
    + destruct H as [Hs Hk]. split; [|assumption].
      eapply same_stats_trans; [apply same_stats_set_child | eassumption].
    + intros th0 Xs0 ys0 sn' b0 c th2 Hin Hsame Hb.
      eapply Hbuild; [right; eassumption | | eassumption].
      eapply same_stats_trans; [apply same_stats_set_child | eassumption].
    + intros b0 c Hin. simpl in Hin. apply dict_set_In in Hin.
      destruct Hin as [Heq|Hin].
      * injection Heq as -> ->.
        eapply Hbuild; [left; reflexivity | apply same_stats_refl | eassumption].
      * eapply Hkids. eassumption.
Qed.

Lemma size_nonzero_rows (X : matrix) : size X <> 0 -> 0 < length X.
Proof. unfold size, shape0. destruct X; simpl; lia. Qed.

(** Every tree the builder returns satisfies the invariant. *)
Lemma tree_builder_built log2 self :
  NoDup (classes_ self) ->
  forall fuel th X y fi parent branch d n th',
  length X = length y ->
  incl y (classes_ self) ->
  (forall k, max_depth self = Some k -> d <= k) ->
  ctx_depth parent = d ->
  (forall p, parent = Some p -> counts_ok self p /\ 0 < n_samples p) ->
  _tree_builder log2 fuel self th X y fi parent branch d = Ok (n, th') ->
  built self d n.
Proof.
  intros Hnd. induction fuel as [|fuel IH];
    intros th X y fi parent branch d n th' Hlen Hincl Hmax Hd Hpar H;
    [discriminate|].
  apply tree_builder_inv in H.
  destruct H as [(m & Hm & Hn) | [(p & m & Hsz & Hp & Hm & Hn) | H]].
  - (* a leaf labelled by the mode of [y] *)
    pose proof (init_counts_ok _ _ _ _ _ _ Hnd Hincl Hn) as Hc.
    apply DecisionNode_init_fields in Hn.
    destruct Hn as (_&_&_&Hdep&_&Hch&_&_&Hns&_).
    constructor; try assumption.
    + congruence.
    + intros H0. apply mode_Ok_nonempty in Hm.
      destruct y; [contradiction | rewrite Hns in H0; discriminate].
    + rewrite Hch. intros b c [].
  - (* a leaf on an empty array *)
    pose proof (init_counts_ok _ _ _ _ _ _ Hnd Hincl Hn) as Hc.
    apply DecisionNode_init_fields in Hn.
    destruct Hn as (Hf&_&_&Hdep&Hpa&Hch&_&_&Hns&_).
    constructor; try assumption.
    + congruence.
    + intros _. exists p. rewrite Hpa, Hf.
      destruct (Hpar p Hp) as [Hpc Hpos].
      split; [assumption|]. split; [assumption|]. split; [assumption|].
      split; assumption.
    + rewrite Hch. intros b c [].
  - (* a split *)
    destruct H as (name & s0 & s1 & th1 & fi' & idx & col & subtrees &
                   Hsz & Hk & Hs0 & Hidx & Hcol & _ & Hcases & Hloop).
    pose proof (init_counts_ok _ _ _ _ _ _ Hnd Hincl Hs0) as Hc.
    apply DecisionNode_init_fields in Hs0.
    destruct Hs0 as (_&_&_&Hdep&_&Hch&_&_&Hns&_).
    assert (Hpos : 0 < n_samples s0).
    { rewrite Hns, <- Hlen. apply size_nonzero_rows. assumption. }
    assert (Hs1 : same_stats s0 s1 /\ children s1 = []).
    { destruct Hcases as [(t & mask & _ & -> & _) | (levels & _ & -> & _)].
      - split; [apply same_stats_set_threshold | assumption].
      - split; [apply same_stats_refl | assumption]. }
    destruct Hs1 as [Hs1 Hch1].
    assert (Hparts : forall Xs ys b, In (Xs, ys, b) subtrees ->
                       length Xs = length ys /\ incl ys (classes_ self)).
    { destruct Hcases
        as [(t & mask & _ & _ & _ & _ & _ & ->) | (levels & _ & _ & _ & ->)].
      - intros Xs ys b [Heq|[Heq|[]]]; injection Heq as <- <- _;
          (split; [apply select_length; assumption |
                   eapply incl_tran; [apply select_incl | assumption]]).
      - intros Xs ys b Hin. apply in_map_iff in Hin.
        destruct Hin as [level [Heq _]]. injection Heq as <- <- _.
        split.
        + unfold np_delete_col. rewrite length_map. apply select_length. assumption.
        + eapply incl_tran; [apply select_incl | assumption]. }
    apply attach_subtrees_built with (self := self) (d := d) in Hloop.
    + destruct Hloop as [Hsame Hkids].
      pose proof (same_stats_trans _ _ _ Hs1 Hsame) as Hs0n.
      constructor; try assumption.
      * destruct Hs0n as (Hd0&_). rewrite <- Hd0. congruence.
      * eapply counts_ok_same_stats; eassumption.
      * destruct Hs0n as (_&_&_&_&Hn0). rewrite <- Hn0. lia.
    + intros th0 Xs ys sn' b c th2 Hin Hsame Hb.
      destruct (Hparts _ _ _ Hin) as [HlenS HinclS].
      rewrite <- Nat.add_1_r.
      eapply IH; [exact HlenS | exact HinclS | | | | exact Hb].
      * intros k Hmk. specialize (Hmax k Hmk). specialize (Hk k Hmk). lia.
      * simpl. destruct Hsame as (Hd1&_). destruct Hs1 as (Hd0&_). congruence.
      * intros p Hp. injection Hp as <-.
        pose proof (same_stats_trans _ _ _ Hs1 Hsame) as Hs0n. split.
        -- eapply counts_ok_same_stats; eassumption.
        -- destruct Hs0n as (_&_&_&_&Hn0). rewrite <- Hn0. assumption.
    + rewrite Hch1. intros b c [].
Qed.

(* ================================================================= *)
(** ** What [fit] establishes *)

Lemma built_ext a b d n :
  classes_ a = classes_ b -> max_depth a = max_depth b ->
  built a d n -> built b d n.
Proof.
  intros Hc Hm H. induction H as [d n Hd Hk Hcnt Hz _ IH].
  constructor.
  - assumption.
  - rewrite <- Hm. assumption.
  - unfold counts_ok in *. rewrite <- Hc. assumption.
  - intros Hn. destruct (Hz Hn) as (p & Hp & Hpc & Hpos & Hrest).
    exists p. unfold counts_ok in *. rewrite <- Hc. auto.
  - assumption.
Qed.

Lemma check_X_y_aligned X y : check_X_y X y = Ok tt -> length X = length y.
Proof.
  unfold check_X_y, shape0. intros H. case_if H E; [|discriminate].
  apply andb_true_iff in E. destruct E as [_ E].
  apply Nat.eqb_eq in E. symmetry. assumption.
Qed.

(** The tree of a fitted estimator is the one the builder returns for the
    whole training data, called without parent at depth 0. *)
Lemma fit_inv log2 self input y est :
  fit log2 self input y = Ok est ->
  exists X self0 tree th,
    input_array input = Some X /\
    check_X_y X y = Ok tt /\
    np_unique y = Ok (classes_ est) /\
    unique_levels X = Ok (unique_levels_ est) /\
    max_depth est = max_depth self /\
    classes_ self0 = classes_ est /\
    max_depth self0 = max_depth self /\
    unique_levels_ self0 = unique_levels_ est /\
    feature_names_ self0 = feature_names_ est /\
    tree_ est = Some tree /\
    _tree_builder log2 (S (shape0 X + shape1 X)) self0 [] X y
      (seq 0 (shape1 X)) None None 0 = Ok (tree, th).
Proof.
  unfold fit. intros H.
  apply bind_Ok in H. destruct H as [[names X] [Hin H]].
  assert (HX : input_array input = Some X).
  { destruct input as [X0|X0|columns X0|]; simpl in Hin.
    - inv_bind Hin. injection Hin as _ <-. reflexivity.
    - injection Hin as _ <-. reflexivity.
    - injection Hin as _ <-. reflexivity.
    - discriminate. }
  apply bind_Ok in H. destruct H as [[] [Hchk H]].
  apply bind_Ok in H. destruct H as [classes [Hcl H]].
  apply bind_Ok in H. destruct H as [levels [Hlev H]].
  apply bind_Ok in H. destruct H as [[tree th] [Hb H]].
  injection H as <-. simpl.
  exists X,
    {| max_depth := max_depth self;
       min_samples_split := min_samples_split self;
       feature_names_ := names;
       classes_ := classes;
       unique_levels_ := levels;
       n_thresholds_ := [];
       tree_ := None |}, tree, th.
  repeat split; assumption.
Qed.

(** The tree of a fitted estimator satisfies the invariant at depth 0. *)
Lemma fit_built log2 self input y est tree :
  fit log2 self input y = Ok est -> tree_ est = Some tree ->
  max_depth est = max_depth self /\ built est 0 tree.
Proof.
  intros H Ht. apply fit_inv in H.
  destruct H as (X & self0 & tree' & th & _ & Hchk & Hcl & _ & Hmd & Hc0 & Hm0 &
                 _ & _ & Ht' & Hb).
  rewrite Ht in Ht'. injection Ht' as <-.
  split; [assumption|].
  apply built_ext with (a := self0); [assumption | congruence |].
  eapply tree_builder_built; [ | | | | | | exact Hb].
  - rewrite Hc0. eapply np_unique_NoDup. eassumption.
  - apply check_X_y_aligned. assumption.
  - rewrite Hc0. intros c Hc. eapply np_unique_In; eassumption.
  - intros k _. lia.
  - reflexivity.
  - intros p Hp. discriminate.
Qed.

Lemma built_at_depth self root k n :
  at_depth root k n -> forall d, built self d root -> built self (d + k) n.
Proof.
  induction 1 as [|k n b c _ IH Hin]; intros d Hb.
  - rewrite Nat.add_0_r. assumption.
  - specialize (IH d Hb). inversion IH as [? ? _ _ _ _ Hkids]; subst.
    rewrite Nat.add_succ_r. eapply Hkids. eassumption.
Qed.

(* ================================================================= *)
(** ** The branch labels of a split *)

Lemma attach_subtrees_labels build : forall subtrees th sn n th',
  NoDup (branch_labels sn ++ map snd subtrees) ->
  attach_subtrees build th sn subtrees = Ok (n, th') ->
  branch_labels n = branch_labels sn ++ map snd subtrees /\
  feature n = feature sn /\ threshold n = threshold sn.
Proof.
  induction subtrees as [|[[Xs ys] b] rest IH]; simpl; intros th sn n th' Hnd H.
  - injection H as <- <-. rewrite app_nil_r. repeat split.
  - apply bind_Ok in H. destruct H as [[subtree th1] [_ H]].
    assert (Hnew : branch_labels (set_child sn b subtree) = branch_labels sn ++ [b]).
    { unfold branch_labels. simpl. apply dict_set_keys_new.
      apply NoDup_remove_2 in Hnd. intros Hin. apply Hnd.
      apply in_or_app. left. assumption. }
    apply IH in H.
    + destruct H as (Hl & Hf & Ht). rewrite Hl, Hnew, <- app_assoc.
      repeat split; assumption.
    + rewrite Hnew, <- app_assoc. exact Hnd.
Qed.

(** What the code does at every split: the split column has the position
    [idx] in the current partition; a numerical column gives the labels
    ["True"] and ["False"], a categorical column the levels recorded under
    the key [idx] at fit time. *)
Lemma split_branch_labels log2 fuel self th X y fi parent branch d n th' :
  (forall i l, dict_get Nat.eq_dec i (unique_levels_ self) = Some l -> NoDup l) ->
  _tree_builder log2 (S fuel) self th X y fi parent branch d = Ok (n, th') ->
  is_leaf n = false ->
  exists idx norm name col,
    idx < shape1 X /\
    nth_error fi idx = Some norm /\
    nth_error (feature_names_ self) norm = Some name /\
    feature n = Str name /\
    column idx X = Ok col /\
    ((is_numeric_dtype col = true /\
      (exists t, threshold n = Some t) /\
      branch_labels n = [Str "True"; Str "False"])
     \/ (is_numeric_dtype col = false /\
         threshold n = None /\
         dict_get Nat.eq_dec idx (unique_levels_ self) = Some (branch_labels n))).
Proof.
  intros Hlevels H Hleaf. apply tree_builder_inv in H.
  destruct H as [(m & _ & Hn) | [(p & m & _ & _ & _ & Hn) | H]].
  - apply DecisionNode_init_fields in Hn. destruct Hn as (_&_&_&_&_&Hch&_).
    unfold is_leaf in Hleaf. rewrite Hch in Hleaf. discriminate.
  - apply DecisionNode_init_fields in Hn. destruct Hn as (_&_&_&_&_&Hch&_).
    unfold is_leaf in Hleaf. rewrite Hch in Hleaf. discriminate.
  - destruct H as (name & s0 & s1 & th1 & fi' & idx & col & subtrees &
                   _ & _ & Hs0 & Hidx & Hcol & (norm & Hnorm & Hname) & Hcases & Hloop).
    apply DecisionNode_init_fields in Hs0.
    destruct Hs0 as (Hf&Hthr&_&_&_&Hch&_).
    exists idx, norm, name, col. repeat (split; [assumption|]).
    destruct Hcases as [(t & mask & Hnum & -> & _ & _ & _ & ->)
                       | (levels & Hnum & -> & Hlev & ->)].
    + apply attach_subtrees_labels in Hloop.
      * destruct Hloop as (Hl & Hfn & Htn). simpl in Hfn, Htn.
        split; [congruence|]. split; [assumption|]. left. split; [assumption|].
        split; [exists t; assumption|].
        rewrite Hl. unfold branch_labels. simpl. rewrite Hch. reflexivity.
      * unfold branch_labels. simpl. rewrite Hch. simpl.
        repeat constructor; simpl; intuition discriminate.
    + assert (Hmap : map snd (map (categorical_part X y col idx) levels) = levels).
      { rewrite map_map. simpl. apply map_id. }
      apply attach_subtrees_labels in Hloop.
      * destruct Hloop as (Hl & Hfn & Htn).
        split; [congruence|]. split; [assumption|]. right. split; [assumption|].
        split; [congruence|].
        rewrite Hl, Hmap. unfold branch_labels. rewrite Hch. assumption.
      * rewrite Hmap. unfold branch_labels. rewrite Hch. simpl.
        eapply Hlevels. eassumption.
Qed.

Lemma unique_levels_entries (X : matrix) : forall n s ul,
  mapM (fun feature_idx =>
          col <- column feature_idx X ;;
          if is_numeric_dtype col
          then Ok (feature_idx, [Str "True"; Str "False"])
          else u <- np_unique col ;; Ok (feature_idx, u))
       (seq s n) = Ok ul ->
  forall idx, s <= idx < s + n ->
  exists col,
    column idx X = Ok col /\
    ((is_numeric_dtype col = true /\
      dict_get Nat.eq_dec idx ul = Some [Str "True"; Str "False"])
     \/ (is_numeric_dtype col = false /\
         exists u, np_unique col = Ok u /\ dict_get Nat.eq_dec idx ul = Some u)).
Proof.
  induction n as [|n IH]; intros s ul H idx Hidx; [lia|].
  simpl in H. apply bind_Ok in H. destruct H as [[k l] [Hhead H]].
  apply bind_Ok in H. destruct H as [rest [Hrest H]]. injection H as <-.
  apply bind_Ok in Hhead. destruct Hhead as [col [Hcol Hhead]].
  assert (Hkl : k = s /\
                ((is_numeric_dtype col = true /\ l = [Str "True"; Str "False"])
                 \/ (is_numeric_dtype col = false /\ np_unique col = Ok l))).
  { destruct (is_numeric_dtype col).
    - inversion Hhead; subst. split; [reflexivity | left; split; reflexivity].
    - apply bind_Ok in Hhead. destruct Hhead as [u [Hu Hhead]].
      inversion Hhead; subst. split; [reflexivity | right; split; [reflexivity | assumption]]. }
  destruct Hkl as [-> Hl]. unfold dict_get. cbn [find fst].
  destruct (Nat.eq_dec s idx) as [<-|Hne].
  - exists col. split; [assumption|]. cbn [option_map snd].
    destruct Hl as [(Hnum & ->) | (Hnum & Hu)].
    + left. split; [assumption | reflexivity].
    + right. split; [assumption|]. exists l. split; [assumption | reflexivity].
  - apply (IH (S s) rest Hrest idx). lia.
Qed.

Lemma unique_levels_NoDup X ul i l :
  unique_levels X = Ok ul -> dict_get Nat.eq_dec i ul = Some l -> NoDup l.
Proof.
  unfold unique_levels. intros H Hget. apply dict_get_In in Hget.
  destruct (mapM_In _ _ _ _ _ _ H Hget) as (idx & _ & Hf).
  apply bind_Ok in Hf. destruct Hf as [col [_ Hf]].
  destruct (is_numeric_dtype col).
  - inversion Hf; subst. repeat constructor; simpl; intuition discriminate.
  - apply bind_Ok in Hf. destruct Hf as [u [Hu Hf]].
    inversion Hf; subst. eapply np_unique_NoDup. eassumption.
Qed.

(** At the root of a fitted tree no column has been removed yet, and the
    labels are those of the split feature: ["True"] and ["False"] for a
    numerical feature, the distinct values of its column in the training
    data for a categorical one. *)
Lemma root_branch_labels log2 self input y est tree :
  fit log2 self input y = Ok est ->
  tree_ est = Some tree ->
  is_leaf tree = false ->
  exists X idx name col,
    input_array input = Some X /\
    nth_error (feature_names_ est) idx = Some name /\
    feature tree = Str name /\
    column idx X = Ok col /\
    ((is_numeric_dtype col = true /\
      (exists t, threshold tree = Some t) /\
      branch_labels tree = [Str "True"; Str "False"])
     \/ (is_numeric_dtype col = false /\
         threshold tree = None /\
         np_unique col = Ok (branch_labels tree))).
Proof.
  intros H Ht Hleaf. apply fit_inv in H.
  destruct H as (X & self0 & tree' & th & HX & _ & _ & Hul & _ & _ & _ & Hul0 &
                 Hnames & Ht' & Hb).
  rewrite Ht in Ht'. injection Ht' as <-.
  apply split_branch_labels in Hb; [|rewrite Hul0; intros i l;
                                     apply unique_levels_NoDup with (X := X);
                                     assumption | assumption].
  destruct Hb as (idx & norm & name & col & Hidx & Hnorm & Hname & Hf & Hcol & Hcases).
  assert (norm = idx).
  { rewrite nth_error_seq in Hnorm.
    destruct (idx <? shape1 X); [injection Hnorm as <-; reflexivity | discriminate]. }
  subst norm. rewrite Hnames in Hname.
  exists X, idx, name, col. repeat (split; [assumption|]).
  destruct Hcases as [Hnum | (Hnum & Hthr & Hget)]; [left; assumption|].
  right. split; [assumption|]. split; [assumption|].
  unfold unique_levels in Hul.
  destruct (unique_levels_entries X _ _ _ Hul idx) as (col' & Hcol' & Hc); [lia|].
  rewrite Hcol in Hcol'. injection Hcol' as <-.
  rewrite Hul0 in Hget.
  destruct Hc as [(Hnum' & _) | (_ & u & Hu & Hget')]; [congruence|].
  congruence.
Qed.

(* ================================================================= *)
(** ** Walking the tree *)

(** Induction on a node with the hypothesis for its children. *)
Lemma DecisionNode_children_ind (P : DecisionNode -> Prop) :
  (forall n, (forall b c, In (b, c) (children n) -> P c) -> P n) ->
  forall n, P n.
Proof.
  intros H. fix IH 1. intros [f t br d p cs tg v ns cl]. apply H. simpl.
  induction cs as [|[b c] cs IHcs]; intros b' c' Hin.
  - destruct Hin.
  - destruct Hin as [Heq|Hin].
    + injection Heq as _ <-. apply IH.
    + eapply IHcs. eassumption.
Qed.

Lemma tree_walk_lookup names x label (l : list (cell * DecisionNode)) :
  (fix lookup (d : list (cell * DecisionNode)) : result DecisionNode :=
     match d with
     | [] => Err (KeyError label)
     | (k, c) :: rest =>
         if cell_eq_dec k label then tree_walk names x c else lookup rest
     end) l =
  (c <- of_option (KeyError label) (dict_get cell_eq_dec label l) ;;
   tree_walk names x c).
Proof.
  induction l as [|[k c] l IH].
  - reflexivity.
  - unfold dict_get. cbn [find fst].
    destruct (cell_eq_dec k label); [reflexivity|]. exact IH.
Qed.

(** One iteration of the loop of [tree_walk]: a leaf is returned; at an
    internal node the feature is resolved to a column of the row, the node
    is indexed by the value found there, and the walk goes on from the
    child. *)
Lemma tree_walk_unfold names x n :
  tree_walk names x n =
  if is_leaf n then Ok n
  else
    feature_idx <- index_of (feature n) names ;;
    query_level <- of_option IndexError (nth_error x feature_idx) ;;
    c <- __getitem__ n query_level ;;
    tree_walk names x c.
Proof.
  destruct n as [f t br d p cs tg v ns cl].
  destruct cs as [|[k0 c0] cs]; [reflexivity|].
  unfold is_leaf, __getitem__. cbn [tree_walk children feature threshold].
  destruct (index_of f names) as [i|e]; [|reflexivity]. cbn [bind].
  destruct (of_option IndexError (nth_error x i)) as [q|e]; [|reflexivity]. cbn [bind].
  destruct (branch_for t q) as [label|e]; [|reflexivity]. cbn [bind].
  unfold dict_get. cbn [find fst].
  destruct (cell_eq_dec k0 label); [reflexivity|].
  apply tree_walk_lookup.
Qed.

Lemma at_depth_prepend root b c k n :
  In (b, c) (children root) -> at_depth c k n -> at_depth root (S k) n.
Proof.
  intros Hin H. induction H as [|k n b' c' _ IH Hin'].
  - eapply at_depth_child; [apply at_depth_root | eassumption].
  - eapply at_depth_child; eassumption.
Qed.

Lemma getitem_child n q c : __getitem__ n q = Ok c -> exists b, In (b, c) (children n).
Proof.
  unfold __getitem__. intros H. inv_bind H. apply of_option_Ok in H.
  apply dict_get_In in H. eauto.
Qed.

(** The node a walk returns is a leaf of the tree. *)
Lemma tree_walk_in_tree names x root :
  forall n, tree_walk names x root = Ok n -> in_tree root n /\ is_leaf n = true.
Proof.
  induction root as [root IH] using DecisionNode_children_ind.
  intros n H. rewrite tree_walk_unfold in H.
  destruct (is_leaf root) eqn:Hleaf.
  - injection H as <-. split; [exists 0; apply at_depth_root | assumption].
  - inv_bind H. destruct (getitem_child _ _ _ E1) as [b Hin].
    destruct (IH _ _ Hin _ H) as [[k Hk] Hl]. split; [|assumption].
    exists (S k). eapply at_depth_prepend; eassumption.
Qed.

(** *** The queries on a valid array *)

Lemma check_X_y_check_array X y : check_X_y X y = Ok tt -> check_array X = Ok tt.
Proof.
  unfold check_X_y, check_array. intros H.
  destruct ((0 <? shape0 X) && (0 <? shape1 X)
            && forallb (fun r : list cell => length r =? shape1 X) X);
    [reflexivity|].
  rewrite andb_false_l in H. discriminate H.
Qed.

(** On a fitted estimator and a query that passes the validation, the
    queries are the walks of the rows. *)
Lemma decision_paths_valid self tree X :
  tree_ self = Some tree ->
  check_array X = Ok tt ->
  _decision_paths self X = mapM (fun x => tree_walk (feature_names_ self) x tree) X.
Proof.
  intros Ht Hchk. unfold _decision_paths, fitted_tree. rewrite Ht, Hchk. reflexivity.
Qed.

Lemma predict_valid self tree X :
  tree_ self = Some tree ->
  check_array X = Ok tt ->
  predict self X =
  (paths <- mapM (fun x => tree_walk (feature_names_ self) x tree) X ;;
   Ok (map feature paths)).
Proof.
  intros Ht Hchk. unfold predict. rewrite (decision_paths_valid _ _ _ Ht Hchk).
  unfold fitted_tree. rewrite Ht, Hchk. reflexivity.
Qed.

Lemma predict_proba_valid self tree X :
  tree_ self = Some tree ->
  check_array X = Ok tt ->
  predict_proba self X =
  (paths <- mapM (fun x => tree_walk (feature_names_ self) x tree) X ;;
   mapM compute_class_proba paths).
Proof.
  intros Ht Hchk. unfold predict_proba. rewrite (decision_paths_valid _ _ _ Ht Hchk).
  unfold fitted_tree. rewrite Ht, Hchk. reflexivity.
Qed.

(** A query that returns was made on a fitted estimator with a valid
    array, and every row was walked to a leaf. *)
Lemma predict_Ok self X preds :
  predict self X = Ok preds ->
  exists tree paths,
    tree_ self = Some tree /\
    check_array X = Ok tt /\
    mapM (fun x => tree_walk (feature_names_ self) x tree) X = Ok paths /\
    preds = map feature paths.
Proof.
  intros H. unfold predict in H.
  apply bind_Ok in H. destruct H as [tree [Ht H]]. apply of_option_Ok in Ht.
  apply bind_Ok in H. destruct H as [[] [Hchk H]].
  rewrite (decision_paths_valid _ _ _ Ht Hchk) in H.
  apply bind_Ok in H. destruct H as [paths [Hpaths H]]. injection H as <-.
  exists tree, paths. repeat split; assumption.
Qed.


(* ================================================================= *)
(** ** The fuel of [fit] suffices *)

Lemma in_fuel_Ok (A : Type) (a : A) : in_fuel (Ok a).
Proof. discriminate. Qed.

Lemma in_fuel_bind (A B : Type) (m : result A) (k : A -> result B) :
  in_fuel m -> (forall a, m = Ok a -> in_fuel (k a)) -> in_fuel (bind m k).
Proof.
  intros Hm Hk. destruct m as [a|e]; simpl.
  - apply Hk. reflexivity.
  - intros H. apply Hm. injection H as ->. reflexivity.
Qed.

Lemma in_fuel_of_option (A : Type) (e : error) (o : option A) :
  e <> OutOfFuel -> in_fuel (of_option e o).
Proof. intros He. destruct o; simpl; intros H; [discriminate | congruence]. Qed.

Lemma in_fuel_mapM (A B : Type) (f : A -> result B) (l : list A) :
  (forall a, In a l -> in_fuel (f a)) -> in_fuel (mapM f l).
Proof.
  induction l as [|a l IH]; simpl; intros H.
  - apply in_fuel_Ok.
  - apply in_fuel_bind; [apply H; left; reflexivity|].
    intros b _. apply in_fuel_bind; [apply IH; intros; apply H; right; assumption|].
    intros bs _. apply in_fuel_Ok.
Qed.

(** Solves [in_fuel] goals on the non-recursive parts of the model. *)
Ltac in_fuel_step :=
  match goal with
  | |- in_fuel (Ok _) => apply in_fuel_Ok
  | |- in_fuel (Err _) => discriminate
  | |- in_fuel (bind _ _) => apply in_fuel_bind; [|intros ? ?]
  | |- in_fuel (of_option _ _) => apply in_fuel_of_option; discriminate
  | |- in_fuel (mapM _ _) => apply in_fuel_mapM; intros ? ?
  | |- in_fuel (if ?c then _ else _) => destruct c
  | |- in_fuel (match ?p with (_, _) => _ end) => destruct p
  | |- in_fuel (match ?x with Num _ => _ | Str _ => _ end) => destruct x
  | |- in_fuel (match ?x with [] => _ | _ :: _ => _ end) => destruct x
  | |- in_fuel (match ?x with Some _ => _ | None => _ end) => destruct x
  | |- in_fuel (match ?x with Zipped _ => _ | Single _ => _ end) => destruct x
  end.

Ltac in_fuel_auto := repeat in_fuel_step.

Lemma in_fuel_np_unique l : in_fuel (np_unique l).
Proof. unfold np_unique. in_fuel_auto. Qed.

Lemma in_fuel_mode l : in_fuel (mode l).
Proof. unfold mode. in_fuel_auto. Qed.

Lemma in_fuel_py_lt a b : in_fuel (py_lt a b).
Proof. unfold py_lt. in_fuel_auto. Qed.

Lemma in_fuel_column idx X : in_fuel (column idx X).
Proof. unfold column. in_fuel_auto. Qed.

Lemma in_fuel_init v b p y cs : in_fuel (DecisionNode_init v b p y cs).
Proof.
  unfold DecisionNode_init, unique_counts. in_fuel_auto. apply in_fuel_np_unique.
Qed.

Lemma in_fuel_entropy log2 x : in_fuel (_entropy log2 x).
Proof. unfold _entropy, proba. in_fuel_auto. apply in_fuel_np_unique. Qed.

Lemma in_fuel_cost log2 X y idx x : in_fuel (cost log2 X y idx x).
Proof.
  unfold cost, last_cell. in_fuel_auto;
    first [apply in_fuel_column | apply in_fuel_py_lt | apply in_fuel_entropy].
Qed.

Lemma in_fuel_optimal_threshold log2 X y idx :
  in_fuel (_compute_optimal_threshold log2 X y idx).
Proof.
  unfold _compute_optimal_threshold, argmin, py_min, last_cell. in_fuel_auto;
    first [apply in_fuel_cost | apply in_fuel_entropy].
Qed.

Lemma in_fuel_information_gain log2 th X y idx :
  in_fuel (_compute_information_gain log2 th X y idx).
Proof.
  unfold _compute_information_gain, proba. in_fuel_auto;
    first [apply in_fuel_column | apply in_fuel_optimal_threshold
          | apply in_fuel_np_unique | apply in_fuel_entropy].
Qed.

Lemma in_fuel_feature_importances log2 X y idxs :
  forall th, in_fuel (feature_importances log2 th X y idxs).
Proof.
  induction idxs as [|i idxs IH]; intros th; simpl; in_fuel_auto.
  - apply in_fuel_information_gain.
  - apply IH.
Qed.

Lemma in_fuel_partition_data X y idx level s :
  in_fuel (_partition_data X y idx level s).
Proof.
  unfold _partition_data. in_fuel_auto;
    first [apply in_fuel_column | apply in_fuel_py_lt].
Qed.

Lemma in_fuel_Err (A B : Type) (m : result A) (e : error) :
  in_fuel m -> m = Err e -> in_fuel (@Err B e).
Proof. intros Hm -> H. apply Hm. injection H as ->. reflexivity. Qed.

Lemma select_split_length (A : Type) (mask : list bool) (a : list A) :
  length mask = length a ->
  length (select mask a) + length (select (invert mask) a) = length a.
Proof.
  unfold select, invert. rewrite !length_map. revert a.
  induction mask as [|m mask IH]; intros [|x a] H; try discriminate; [reflexivity|].
  injection H as H. specialize (IH a H). simpl.
  destruct m; simpl; lia.
Qed.

Lemma rectangular_rows (X : matrix) (r : list cell) :
  rectangular X -> In r X -> length r = shape1 X.
Proof. unfold rectangular. rewrite Forall_forall. auto. Qed.

Lemma rectangular_of_rows (X : matrix) (n : nat) :
  (forall r, In r X -> length r = n) -> rectangular X /\ shape1 X <= n.
Proof.
  intros H. destruct X as [|r0 X].
  - split; [constructor | simpl; lia].
  - assert (H0 : length r0 = n) by (apply H; left; reflexivity).
    split; [|simpl; lia].
    apply Forall_forall. intros r Hr. simpl. rewrite H0. apply H. assumption.
Qed.

Lemma remove_at_length (A : Type) (idx : nat) (l : list A) :
  idx < length l -> length (remove_at idx l) = length l - 1.
Proof.
  revert idx. induction l as [|a l IH]; intros [|i] H; simpl in *; try lia.
  rewrite IH by lia. lia.
Qed.

(** Both sides of a numerical split have fewer rows and as many columns. *)
Lemma numerical_parts_smaller X y mask Xs ys b :
  rectangular X -> length mask = length X ->
  select mask X <> [] -> select (invert mask) X <> [] ->
  In (Xs, ys, b) (numerical_parts X y mask) ->
  rectangular Xs /\ shape0 Xs + shape1 Xs < shape0 X + shape1 X.
Proof.
  intros Hrect Hlen H1 H2 Hin.
  pose proof (select_split_length _ mask X Hlen) as Hsum.
  assert (G : forall m, Xs = select m X ->
                rectangular Xs /\ shape1 Xs <= shape1 X).
  { intros m ->. apply rectangular_of_rows. intros r Hr.
    apply rectangular_rows; [assumption|]. eapply select_incl. eassumption. }
  unfold shape0.
  destruct Hin as [Heq|[Heq|[]]]; injection Heq as <- _ _.
  - destruct (G mask eq_refl) as [Hr Hs]. split; [assumption|].
    destruct (select (invert mask) X); [contradiction|]. simpl in Hsum. lia.
  - destruct (G (invert mask) eq_refl) as [Hr Hs]. split; [assumption|].
    destruct (select mask X); [contradiction|]. simpl in Hsum. lia.
Qed.

Lemma select_length_le (A : Type) (mask : list bool) (a : list A) :
  length (select mask a) <= length a.
Proof.
  unfold select. rewrite length_map. revert a.
  induction mask as [|m mask IH]; intros [|x a]; simpl; try lia.
  specialize (IH a). destruct m; simpl; lia.
Qed.

(** The part of a categorical split has a column less and no more rows. *)
Lemma categorical_part_smaller X y col idx level Xs ys b :
  rectangular X -> idx < shape1 X ->
  categorical_part X y col idx level = (Xs, ys, b) ->
  rectangular Xs /\ shape0 Xs + shape1 Xs < shape0 X + shape1 X.
Proof.
  intros Hrect Hidx Heq. unfold categorical_part in Heq.
  injection Heq as <- _ _.
  set (mask := map (fun v => cell_eqb v level) col).
  destruct (rectangular_of_rows (np_delete_col idx (select mask X)) (shape1 X - 1))
    as [Hr Hs].
  - intros r Hr. unfold np_delete_col in Hr. apply in_map_iff in Hr.
    destruct Hr as [r' [<- Hr']]. apply select_incl in Hr'.
    pose proof (rectangular_rows _ _ Hrect Hr') as Hl.
    rewrite remove_at_length; lia.
  - split; [assumption|].
    assert (Hrows : shape0 (np_delete_col idx (select mask X)) <= shape0 X).
    { unfold shape0, np_delete_col. rewrite length_map. apply select_length_le. }
    lia.
Qed.

Lemma attach_subtrees_in_fuel build : forall subtrees th sn,
  (forall th Xs ys sn b, In (Xs, ys, b) subtrees -> in_fuel (build th Xs ys sn b)) ->
  in_fuel (attach_subtrees build th sn subtrees).
Proof.
  induction subtrees as [|[[Xs ys] b] rest IH]; intros th sn H; simpl.
  - apply in_fuel_Ok.
  - apply in_fuel_bind; [apply H; left; reflexivity|].
    intros [subtree th1] _. apply IH. intros. apply H. right. assumption.
Qed.

(** One call of the builder does not run out of fuel by itself: either its
    outcome is not [OutOfFuel], or it is the outcome of the loop over the
    triples of a split. *)
Lemma tree_builder_step log2 fuel self th X y fi parent branch d :
  in_fuel (_tree_builder log2 (S fuel) self th X y fi parent branch d)
  \/ exists s1 th1 fi' idx col subtrees,
       idx < shape1 X /\
       ((exists mask,
           length mask = length X /\
           select mask X <> [] /\ select (invert mask) X <> [] /\
           subtrees = numerical_parts X y mask)
        \/ (exists levels, subtrees = map (categorical_part X y col idx) levels)) /\
       _tree_builder log2 (S fuel) self th X y fi parent branch d =
       attach_subtrees
         (fun th Xs ys sn b =>
            _tree_builder log2 fuel self th Xs ys fi' (Some sn) (Some b) (d + 1))
         th1 s1 subtrees.
Proof.
  cbn [_tree_builder].
  assert (Hleaf : forall m : result cell,
            in_fuel m ->
            in_fuel (m0 <- m ;;
                     n <- DecisionNode_init m0 branch parent y (classes_ self) ;;
                     Ok (n, th))).
  { intros m Hm. apply in_fuel_bind; [assumption|]. intros m0 _.
    apply in_fuel_bind; [apply in_fuel_init|]. intros n _. apply in_fuel_Ok. }
  destruct (np_unique y) as [uy|e] eqn:Huy; cbn [bind];
    [|left; eapply in_fuel_Err; [apply in_fuel_np_unique | eassumption]].
  destruct (length uy =? 1); [left; apply Hleaf, in_fuel_mode|].
  destruct (size X =? 0).
  { left. apply in_fuel_bind; [apply in_fuel_of_option; discriminate|].
    intros p _. apply Hleaf, in_fuel_mode. }
  destruct (all_rows_equal_first X); [left; apply Hleaf, in_fuel_mode|].
  destruct (match max_depth self with Some k => k =? d | None => false end);
    [left; apply Hleaf, in_fuel_mode|].
  destruct (length X <? min_samples_split self); [left; apply Hleaf, in_fuel_mode|].
  destruct (feature_importances log2 th X y (seq 0 (shape1 X)))
    as [[gains th1]|e] eqn:Hg; cbn [bind];
    [|left; eapply in_fuel_Err; [apply in_fuel_feature_importances | eassumption]].
  destruct (argmax gains) as [idx|e] eqn:Hidx; cbn [bind].
  2:{ left. eapply in_fuel_Err; [|exact Hidx]. unfold argmax. in_fuel_auto. }
  destruct (of_option IndexError (nth_error fi idx)) as [norm|e] eqn:Hnorm;
    cbn [bind];
    [|left; eapply in_fuel_Err; [|eassumption];
      apply in_fuel_of_option; discriminate].
  destruct (of_option IndexError (nth_error (feature_names_ self) norm))
    as [name|e] eqn:Hname; cbn [bind];
    [|left; eapply in_fuel_Err; [|eassumption];
      apply in_fuel_of_option; discriminate].
  destruct (DecisionNode_init (Str name) branch parent y (classes_ self))
    as [s0|e] eqn:Hs0; cbn [bind];
    [|left; eapply in_fuel_Err; [apply in_fuel_init | eassumption]].
  destruct (column idx X) as [col|e] eqn:Hcol; cbn [bind];
    [|left; eapply in_fuel_Err; [apply in_fuel_column | eassumption]].
  match goal with
  | |- in_fuel (bind ?m _) \/ _ => destruct m as [s1|e] eqn:Hs1; cbn [bind]
  end.
  2:{ left. eapply in_fuel_Err; [|exact Hs1]. in_fuel_auto. }
  destruct (of_option (KeyError (key_of_nat idx))
              (dict_get Nat.eq_dec idx (unique_levels_ self)))
    as [levels|e] eqn:Hlev; cbn [bind];
    [|left; eapply in_fuel_Err; [|eassumption];
      apply in_fuel_of_option; discriminate].
  destruct (mapM (fun level => _partition_data X y idx level s1) levels)
    as [parts|e] eqn:Hparts; cbn [bind].
  2:{ left. eapply in_fuel_Err; [|exact Hparts]. apply in_fuel_mapM.
      intros. apply in_fuel_partition_data. }
  match goal with
  | |- in_fuel (bind ?m _) \/ _ =>
      destruct m as [[subtrees fi']|e] eqn:Hsub; cbn [bind]
  end.
  2:{ left. eapply in_fuel_Err; [|exact Hsub]. clear. in_fuel_auto. }
  apply of_option_Ok in Hlev.
  right. exists s1, th1, fi', idx, col, subtrees.
  split.
  { apply argmax_bound in Hidx. apply feature_importances_length in Hg.
    rewrite length_seq in Hg. lia. }
  split; [|reflexivity].
  destruct (subtrees_inv _ _ _ _ _ _ _ _ _ _ _ _ _ _ _ _ Hs0 Hcol Hs1 Hparts Hsub)
    as [(t & mask & _ & _ & Hlen & Hne1 & Hne2 & Hsubs) | (_ & _ & Hsubs)].
  - left. exists mask. auto.
  - right. exists levels. assumption.
Qed.

(** The builder ends within [rows + columns + 1] nested calls on a
    rectangular array: a numerical split leaves fewer rows on both sides,
    a categorical split removes a column. *)
Lemma tree_builder_in_fuel log2 self : forall fuel th X y fi parent branch d,
  rectangular X ->
  shape0 X + shape1 X < fuel ->
  in_fuel (_tree_builder log2 fuel self th X y fi parent branch d).
Proof.
  induction fuel as [|fuel IH]; intros th X y fi parent branch d Hrect Hlt; [lia|].
  destruct (tree_builder_step log2 fuel self th X y fi parent branch d)
    as [H | (s1 & th1 & fi' & idx & col & subtrees & Hidx & Hcases & ->)];
    [exact H|].
  apply attach_subtrees_in_fuel. intros th0 Xs ys sn b Hin.
  assert (Hsmall : rectangular Xs /\ shape0 Xs + shape1 Xs < shape0 X + shape1 X).
  { destruct Hcases as [(mask & Hlen & Hne1 & Hne2 & ->) | (levels & ->)].
    - eapply numerical_parts_smaller; eassumption.
    - apply in_map_iff in Hin. destruct Hin as [level [Heq _]].
      eapply categorical_part_smaller; eassumption. }
  destruct Hsmall as [HrS HltS]. apply IH; [assumption | lia].
Qed.

Lemma check_X_y_rectangular X y : check_X_y X y = Ok tt -> rectangular X.
Proof.
  unfold check_X_y. intros H. case_if H E; [|discriminate].
  apply andb_true_iff in E. destruct E as [E _].
  apply andb_true_iff in E. destruct E as [_ E].
  rewrite forallb_forall in E. apply Forall_forall. intros r Hr.
  apply Nat.eqb_eq. apply E. assumption.
Qed.

(** [fit] never stops for lack of fuel: the bound on the recursion of the
    builder is a device of the model without effect on its results. *)
Theorem fit_in_fuel (log2 : Q -> Q) self input y :
  in_fuel (fit log2 self input y).
Proof.
  unfold fit.
  apply in_fuel_bind.
  { destruct input; in_fuel_auto. }
  intros [names X] _.
  apply in_fuel_bind; [unfold check_X_y; in_fuel_auto|]. intros [] Hchk.
  apply in_fuel_bind; [apply in_fuel_np_unique|]. intros classes _.
  apply in_fuel_bind.
  { unfold unique_levels. in_fuel_auto;
      first [apply in_fuel_column | apply in_fuel_np_unique]. }
  intros levels _.
  apply in_fuel_bind.
  - apply tree_builder_in_fuel; [apply check_X_y_rectangular with (y := y); assumption | lia].
  - intros [tree th] _. apply in_fuel_Ok.
Qed.

(* ================================================================= *)
(** ** Examples of the model *)

Lemma log2_pow2_Proper (q q' : Q) : (q == q')%Q -> log2_pow2 q = log2_pow2 q'.
Proof.
  intros H. unfold log2_pow2. rewrite (Qred_complete _ _ H). reflexivity.
Qed.

(** [log2_pow2] is the base-2 logarithm on the powers of two ... *)
Lemma log2_pow2_power (n : nat) :
  log2_pow2 (inject_Z (2 ^ Z.of_nat n)) = inject_Z (Z.of_nat n).
Proof.
  unfold log2_pow2. rewrite Qred_identity.
  - simpl. rewrite Z.log2_pow2 by lia. f_equal. lia.
  - simpl. apply Z.gcd_1_r.
Qed.

(** ... and on their inverses. *)
Lemma log2_pow2_inverse_power (n : nat) :
  log2_pow2 (/ inject_Z (2 ^ Z.of_nat n)) = inject_Z (- Z.of_nat n).
Proof.
  assert (Hpos : (0 < 2 ^ Z.of_nat n)%Z) by (apply Z.pow_pos_nonneg; lia).
  assert (Hlog : Z.log2 (2 ^ Z.of_nat n) = Z.of_nat n) by (apply Z.log2_pow2; lia).
  destruct (2 ^ Z.of_nat n)%Z as [|p|p] eqn:E; try lia.
  unfold log2_pow2, Qinv. simpl Qnum. cbv iota.
  rewrite Qred_identity.
  - cbn [Qnum Qden inject_Z]. rewrite Hlog. reflexivity.
  - cbn [Qnum Qden inject_Z]. apply Z.gcd_1_l.
Qed.

(** The end-to-end scenario of the specification: four rows of one
    categorical feature [A, A, B, B] with the targets [yes, yes, no, no]
    give a root that splits the feature, with the leaf [yes] (two
    instances of [yes]) under [A] and the leaf [no] under [B], whatever
    [np.log2] computes. *)
Example end_to_end_scenario :
  forall log2 : Q -> Q,
  exists self tree leaf_A leaf_B,
    fit log2 clf (NdArray X_cat) y_cat = Ok self /\
    tree_ self = Some tree /\
    classes_ self = [Str "no"; Str "yes"] /\
    feature tree = Str "feature_0" /\
    children tree = [(Str "A", leaf_A); (Str "B", leaf_B)] /\
    feature leaf_A = Str "yes" /\ value leaf_A = [0; 2] /\ is_leaf leaf_A = true /\
    feature leaf_B = Str "no" /\ value leaf_B = [2; 0] /\ is_leaf leaf_B = true /\
    predict self [[Str "A"]; [Str "B"]] = Ok [Str "yes"; Str "no"].
Proof.
  intros log2. do 4 eexists. vm_compute. repeat split; reflexivity.
Qed.

(** [np.unique] sorts and removes the duplicates; it rejects a mix of
    numbers and strings. *)
Example np_unique_examples :
  np_unique [Str "b"; Str "a"; Str "b"] = Ok [Str "a"; Str "b"] /\
  np_unique [num 3; num 1; num 3; num 2] = Ok [num 1; num 2; num 3] /\
  np_unique [num 1; Str "a"] = Err TypeError.
Proof. vm_compute. repeat split; reflexivity. Qed.

(** [statistics.mode] keeps the first of two equally common values. *)
Example mode_examples :
  mode [Str "u"; Str "v"; Str "v"; Str "u"] = Ok (Str "u") /\
  mode [Str "u"; Str "v"; Str "v"] = Ok (Str "v") /\
  mode [] = Err StatisticsError.
Proof. vm_compute. repeat split; reflexivity. Qed.

(* ================================================================= *)
(** ** Routing at a threshold node (C1) *)

(** At a node with a numerical threshold [T], a numerical query [v] is
    looked up under ["False"] when [v <= T] and under ["True"] when
    [v > T]: the pair [("True", "False")] is indexed by the truth value of
    [v <= T], and [True] is index 1. *)
Lemma getitem_threshold (self : DecisionNode) (T v : Qc) :
  threshold self = Some (Num T) ->
  __getitem__ self (Num v) =
    let label := Str (if Qc_leb v T then "False" else "True") in
    of_option (KeyError label) (dict_get cell_eq_dec label (children self)).
Proof.
  intros HT. unfold __getitem__. rewrite HT. simpl.
  destruct (Qc_leb v T); reflexivity.
Qed.

(** C1. The specification routes a query value [v <= T] to the child
    under ["True"] and [v > T] to the child under ["False"]; the code does
    the opposite: at every node with a numerical threshold [T], the query
    [v] is looked up under ["False"] when [v <= T] and under ["True"]
    otherwise. On the tree fitted on the column [1, 2] with the targets
    [a, b], the root has the threshold 2, its ["True"] child is the leaf
    [a] (built from the rows below the threshold) and its ["False"] child
    the leaf [b]; the query 1 <= 2 gets the leaf [b] and the query 3 > 2
    the leaf [a], so that the training row 1 is predicted [b]. *)
Theorem getitem_routes_le_to_False :
  (forall (self : DecisionNode) (T v : Qc),
     __getitem__ (set_threshold self (Num T)) (Num v) =
     let label := Str (if Qc_leb v T then "False" else "True") in
     of_option (KeyError label) (dict_get cell_eq_dec label (children self)))
  /\
  exists self tree leaf_a leaf_b,
    fit log2_pow2 clf (NdArray X_two) y_two = Ok self /\
    tree_ self = Some tree /\
    threshold tree = Some (num 2) /\
    children tree = [(Str "True", leaf_a); (Str "False", leaf_b)] /\
    feature leaf_a = Str "a" /\ feature leaf_b = Str "b" /\
    __getitem__ tree (num 1) = Ok leaf_b /\
    __getitem__ tree (num 2) = Ok leaf_b /\
    __getitem__ tree (num 3) = Ok leaf_a /\
    predict self [[num 1]; [num 2]; [num 3]] = Ok [Str "b"; Str "b"; Str "a"].
Proof.
  split.
  - intros self T v.
    exact (getitem_threshold (set_threshold self (Num T)) T v eq_refl).
  - do 4 eexists. vm_compute. repeat split; reflexivity.
Qed.

(* ================================================================= *)
(** ** The threshold search (C2) *)

Lemma argmin_bound (l : list Q) (i : nat) : argmin l = Ok i -> i < length l.
Proof.
  destruct l as [|x t]; simpl; [discriminate|].
  intros H. injection H as <-.
  assert (G : forall (better : Q -> Q -> bool) t bi b i,
             bi < i -> arg_best better bi b i t < i + length t).
  { clear. intros better t. induction t as [|c t IH]; simpl; intros bi b i Hlt.
    - lia.
    - destruct (better c b).
      + specialize (IH i c (S i)). lia.
      + specialize (IH bi b (S i)). lia. }
  specialize (G Qltb t 0 x 1). lia.
Qed.

Lemma Qltb_lt (a b : Q) : Qltb a b = true <-> (a < b)%Q.
Proof.
  unfold Qltb. rewrite negb_true_iff. split; intros H.
  - apply Qnot_le_lt. intros Hle. apply Qle_bool_iff in Hle. congruence.
  - destruct (Qle_bool b a) eqn:E; [|reflexivity].
    apply Qle_bool_iff in E. exfalso. exact (Qlt_not_le _ _ H E).
Qed.

Lemma Qltb_ge (a b : Q) : Qltb a b = false <-> (b <= a)%Q.
Proof.
  unfold Qltb. rewrite negb_false_iff. apply Qle_bool_iff.
Qed.

(** [np.argmin] and [min] agree on the first minimal element: starting
    from a best element [b] at position [bi] of the prefix [pre], minimal
    in it and strictly below what precedes it, the scan of the rest [t]
    ends on such an element of the whole list. *)
Lemma arg_best_first_min : forall t pre bi b,
  nth_error pre bi = Some b ->
  (forall j c, nth_error pre j = Some c -> (b <= c)%Q) ->
  (forall j c, j < bi -> nth_error pre j = Some c -> (b < c)%Q) ->
  let k := arg_best Qltb bi b (length pre) t in
  let m := fold_left (fun m c => if Qltb c m then c else m) t b in
  nth_error (pre ++ t) k = Some m /\
  (forall j c, nth_error (pre ++ t) j = Some c -> (m <= c)%Q) /\
  (forall j c, j < k -> nth_error (pre ++ t) j = Some c -> (m < c)%Q).
Proof.
  induction t as [|c t IH]; intros pre bi b Hb Hmin Hfirst; cbn zeta.
  - simpl. rewrite app_nil_r. auto.
  - cbn [arg_best fold_left].
    assert (Hlen : length (pre ++ [c]) = S (length pre))
      by (rewrite length_app; simpl; lia).
    replace (pre ++ c :: t) with ((pre ++ [c]) ++ t)
      by (rewrite <- app_assoc; reflexivity).
    rewrite <- Hlen.
    assert (Hsplit : forall j c', nth_error (pre ++ [c]) j = Some c' ->
                       (j < length pre /\ nth_error pre j = Some c')
                       \/ (j = length pre /\ c' = c)).
    { intros j c' Hj. destruct (Nat.lt_ge_cases j (length pre)) as [Hlt|Hge].
      - left. rewrite nth_error_app1 in Hj by assumption. auto.
      - right. rewrite nth_error_app2 in Hj by assumption.
        destruct (j - length pre) as [|d] eqn:Ed; simpl in Hj.
        + injection Hj as <-. split; [lia | reflexivity].
        + destruct d; discriminate. }
    destruct (Qltb c b) eqn:E.
    + apply Qltb_lt in E. apply IH.
      * rewrite nth_error_app2 by lia. rewrite Nat.sub_diag. reflexivity.
      * intros j c' Hj. destruct (Hsplit j c' Hj) as [[_ Hp] | [_ ->]].
        -- apply Qlt_le_weak. eapply Qlt_le_trans; [exact E | eapply Hmin; exact Hp].
        -- apply Qle_refl.
      * intros j c' Hlt Hj. destruct (Hsplit j c' Hj) as [[_ Hp] | [Heq _]]; [|lia].
        eapply Qlt_le_trans; [exact E | eapply Hmin; exact Hp].
    + apply Qltb_ge in E. apply IH.
      * rewrite nth_error_app1; [assumption|]. apply nth_error_Some. congruence.
      * intros j c' Hj. destruct (Hsplit j c' Hj) as [[_ Hp] | [_ ->]].
        -- eapply Hmin. exact Hp.
        -- assumption.
      * intros j c' Hlt Hj. destruct (Hsplit j c' Hj) as [[_ Hp] | [Heq _]].
        -- eapply Hfirst; eassumption.
        -- assert (bi < length pre) by (apply nth_error_Some; congruence). lia.
Qed.

Lemma argmin_first_min (l : list Q) (k : nat) (m : Q) :
  argmin l = Ok k -> py_min l = Ok m ->
  nth_error l k = Some m /\
  (forall j c, nth_error l j = Some c -> (m <= c)%Q) /\
  (forall j c, j < k -> nth_error l j = Some c -> (m < c)%Q).
Proof.
  destruct l as [|x t]; [discriminate|]. unfold argmin, py_min.
  intros Hk Hm. injection Hk as <-. injection Hm as <-.
  apply (arg_best_first_min t [x] 0 x).
  - reflexivity.
  - intros [|j] c Hj; simpl in Hj; [|destruct j; discriminate].
    injection Hj as <-. apply Qle_refl.
  - intros j c Hlt. lia.
Qed.

(** What the search does, whatever the column searched: the candidate
    thresholds are the last cells of the rows of [X]; each is charged the
    weighted entropy of the two sides of the strict-less mask on column
    [feature_idx]; the candidate returned is the first of least cost, and
    the gain is the entropy of [y] less that cost. *)
Lemma optimal_threshold_spec (log2 : Q -> Q) (X : matrix)
    (y : list cell) (feature_idx : nat) (g : Q) (t_hat : cell) :
  _compute_optimal_threshold log2 X y feature_idx = Ok (g, t_hat) ->
  exists costs k row c ey,
    mapM (cost log2 X y feature_idx) X = Ok costs /\
    nth_error X k = Some row /\
    last_cell row = Ok t_hat /\
    nth_error costs k = Some c /\
    (forall j c', nth_error costs j = Some c' -> (c <= c')%Q) /\
    (forall j c', j < k -> nth_error costs j = Some c' -> (c < c')%Q) /\
    _entropy log2 y = Ok ey /\
    g = (ey - c)%Q.
Proof.
  unfold _compute_optimal_threshold. intros H.
  apply bind_Ok in H. destruct H as [costs [Hcosts H]].
  apply bind_Ok in H. destruct H as [k [Hk H]].
  apply bind_Ok in H. destruct H as [row [Hrow H]].
  apply bind_Ok in H. destruct H as [t [Ht H]].
  apply bind_Ok in H. destruct H as [c [Hc H]].
  apply bind_Ok in H. destruct H as [ey [Hey H]].
  injection H as <- <-.
  destruct (argmin_first_min _ _ _ Hk Hc) as (Hnth & Hmin & Hfirst).
  apply of_option_Ok in Hrow.
  exists costs, k, row, c, ey. repeat split; assumption.
Qed.

(** Whatever the column searched, the threshold returned is the last cell
    of a row of [X]. *)
Lemma optimal_threshold_in_last_column (log2 : Q -> Q) (X : matrix)
    (y : list cell) (feature_idx : nat) (g : Q) (t_hat : cell) :
  _compute_optimal_threshold log2 X y feature_idx = Ok (g, t_hat) ->
  exists row, In row X /\ last_cell row = Ok t_hat.
Proof.
  intros H. apply optimal_threshold_spec in H.
  destruct H as (costs & k & row & c & ey & _ & Hrow & Ht & _).
  exists row. split; [|assumption]. eapply nth_error_In. eassumption.
Qed.

(** C2. The specification takes the candidate thresholds of the search on
    column [feature_idx] among the observed values of that column; the
    code takes them in the last column. On the two-column partition
    [[1, 10], [2, 20]], searched on column 0, the candidates are 10 and
    20: both rows cost the same, the first is kept, and the threshold
    returned is 10, which column 0 does not contain. This holds whatever
    [np.log2] computes. *)
Theorem optimal_threshold_reads_last_column :
  forall log2 : Q -> Q,
  exists g,
    _compute_optimal_threshold log2 X_pair y_two 0 = Ok (g, num 10) /\
    column 0 X_pair = Ok [num 1; num 2] /\
    ~ In (num 10) [num 1; num 2].
Proof.
  intros log2.
  assert (Hc : exists c, mapM (cost log2 X_pair y_two 0) X_pair = Ok [c; c]).
  { eexists. vm_compute. reflexivity. }
  destruct Hc as [c Hc].
  unfold _compute_optimal_threshold. rewrite Hc.
  cbn [bind argmin arg_best py_min fold_left]. rewrite !Qltb_irrefl.
  cbn [bind].
  eexists. split; [vm_compute; reflexivity|].
  split; [vm_compute; reflexivity|].
  simpl. intros [H|[H|[]]]; inversion H.
Qed.

(* ================================================================= *)
(** ** Branch labels of a categorical split (C3) *)

Lemma argmax_tie (g : Q) : argmax [g; g] = Ok 0.
Proof. unfold argmax. cbn [arg_best]. rewrite Qltb_irrefl. reflexivity. Qed.

(** On [X_nested] both features have the same gain, whatever [np.log2]
    computes, and the first is split; no other comparison of gains or
    costs takes place, and the fitted estimator does not depend on
    [np.log2]. *)
Lemma fit_nested_any_log2 (log2 : Q -> Q) :
  fit log2 clf (NdArray X_nested) y_nested
  = fit log2_pow2 clf (NdArray X_nested) y_nested.
Proof.
  assert (Hfi : exists g, feature_importances log2 [] X_nested y_nested
                            (seq 0 (shape1 X_nested)) = Ok ([g; g], [])).
  { eexists. vm_compute. reflexivity. }
  destruct Hfi as [g Hfi].
  run (fit log2_pow2 clf (NdArray X_nested) y_nested).
  unfold fit. cbn [bind].
  run (shape0 X_nested + shape1 X_nested).
  cbn [_tree_builder]. rewrite Hfi. cbn [bind]. rewrite argmax_tie.
  vm_compute. reflexivity.
Qed.

(** C3. The specification gives a node splitting a categorical feature
    one child per level of the fit-time domain of that feature; below a
    categorical split the code reads the domain of another feature. On the
    data with the features [feature_0] in [{A, B}] and [feature_1] in
    [{P, Q}], the root splits [feature_0] and drops its column; the child
    under [A] splits [feature_1], now at position 0, and reads the levels
    recorded under the key 0, those of [feature_0]: its branch labels are
    [A, B], not [P, Q], and the training row [(A, P)] cannot be predicted.
    This holds whatever [np.log2] computes. *)
Theorem nested_split_uses_levels_of_other_feature :
  forall log2 : Q -> Q,
  exists self tree child,
    fit log2 clf (NdArray X_nested) y_nested = Ok self /\
    tree_ self = Some tree /\
    feature tree = Str "feature_0" /\
    dict_get cell_eq_dec (Str "A") (children tree) = Some child /\
    feature child = Str "feature_1" /\
    threshold child = None /\
    dict_get Nat.eq_dec 1 (unique_levels_ self) = Some [Str "P"; Str "Q"] /\
    branch_labels child = [Str "A"; Str "B"] /\
    predict self [[Str "A"; Str "P"]] = Err (KeyError (Str "P")).
Proof.
  intros log2. rewrite fit_nested_any_log2.
  do 3 eexists. vm_compute. repeat split; reflexivity.
Qed.

(* ================================================================= *)
(** ** Unimplemented paths (C4) *)

(** C4. The specification has the fit of a regression tree, and the
    training through the parallel classifier, fail with an error; in the
    code neither fails. [DecisionTreeRegressor.fit]
    validates its input and returns the estimator, without a tree and
    without an error (only [_tree_builder], which [fit] never calls,
    raises [NotImplementedError]); the parallel classifier inherits
    everything from the classifier and builds a tree. *)
Theorem unimplemented_paths_do_not_fail :
  DecisionTreeRegressor_fit DecisionTreeRegressor X_two [num 1; num 2]
    = Ok DecisionTreeRegressor /\
  tree_ DecisionTreeRegressor = None /\
  (forall self X y,
     DecisionTreeRegressor_fit self X y <> Err NotImplementedError) /\
  exists self tree,
    ParallelDecisionTreeClassifier_fit log2_pow2
      (ParallelDecisionTreeClassifier None 2) (NdArray X_two) y_two = Ok self /\
    tree_ self = Some tree.
Proof.
  split; [vm_compute; reflexivity|].
  split; [reflexivity|].
  split.
  - intros self X y. unfold DecisionTreeRegressor_fit, check_X_y_numeric, check_X_y.
    destruct (_ && _); simpl; [|discriminate].
    destruct (forallb (forallb is_num) X); simpl; discriminate.
  - do 2 eexists. vm_compute. split; reflexivity.
Qed.

(* ================================================================= *)
(** ** The leaf of an empty partition (C5) *)

Lemma mode_from_spec data : forall todo best,
  let r := mode_from best (count best data) todo data in
  (r = best \/ In r todo) /\
  count best data <= count r data /\
  (forall c, In c todo -> count c data <= count r data).
Proof.
  induction todo as [|k todo IH]; intros best; cbn zeta.
  - simpl. split; [left; reflexivity|]. split; [lia | intros c []].
  - cbn [mode_from]. destruct (count best data <? count k data) eqn:E.
    + apply Nat.ltb_lt in E. pose proof (IH k) as Hs. cbn zeta in Hs.
      destruct Hs as (Hr & Hk & Hall).
      split; [|split].
      * right. destruct Hr as [->|Hr]; [left; reflexivity | right; assumption].
      * lia.
      * intros c [<-|Hc]; [assumption | apply Hall; assumption].
    + apply Nat.ltb_ge in E. pose proof (IH best) as Hs. cbn zeta in Hs.
      destruct Hs as (Hr & Hk & Hall).
      split; [|split].
      * destruct Hr as [->|Hr]; [left; reflexivity | right; right; assumption].
      * assumption.
      * intros c [<-|Hc]; [lia | apply Hall; assumption].
Qed.

(** [mode] returns a most common value of the data. *)
Lemma mode_most_common data m :
  mode data = Ok m ->
  In m data /\ forall c, count c data <= count m data.
Proof.
  destruct data as [|x t]; [discriminate|]. unfold mode. intros H.
  assert (Hm : mode_from x (count x (x :: t)) t (x :: t) = m)
    by (injection H as H; exact H).
  clear H. pose proof (mode_from_spec (x :: t) t x) as Hs. cbn zeta in Hs.
  rewrite Hm in Hs. destruct Hs as (Hr & Hx & Hall). split.
  - destruct Hr as [->|Hr]; [left; reflexivity | right; assumption].
  - intros c. destruct (in_dec cell_eq_dec c (x :: t)) as [[<-|Hc]|Hc].
    + assumption.
    + apply Hall. assumption.
    + apply (count_occ_not_In cell_eq_dec) in Hc. unfold count at 1.
      rewrite Hc. lia.
Qed.

(** In a tree produced by [fit], the recursive calls on a partition
    without rows are those that built the nodes without samples: each is a
    leaf labelled by the mode of the target slice of its parent. *)
Lemma empty_partition_leaf_in_tree (log2 : Q -> Q) self input y est tree n :
  fit log2 self input y = Ok est ->
  tree_ est = Some tree ->
  in_tree tree n ->
  n_samples n = 0 ->
  is_leaf n = true /\
  exists p, parent n = Some p /\ 0 < length (target p) /\
            mode (target p) = Ok (feature n).
Proof.
  intros Hfit Ht [k Hat] Hn.
  destruct (fit_built _ _ _ _ _ _ Hfit Ht) as [_ Hb].
  pose proof (built_at_depth _ _ _ _ Hat _ Hb) as Hbn.
  inversion Hbn as [? ? _ _ _ Hz _]; subst.
  destruct (Hz Hn) as (p & Hp & (_ & _ & Hlen) & Hpos & Hch & Hm).
  split; [unfold is_leaf; rewrite Hch; reflexivity|].
  exists p. split; [assumption|]. split; [lia | assumption].
Qed.

(** C5. A call of the builder on a partition without rows, made below a
    parent whose target slice is not empty, returns a leaf labelled with
    the mode of the parent's target slice, a most common class of it, and
    raises nothing. *)
Theorem empty_partition_yields_parent_mode :
  forall (log2 : Q -> Q) fuel self th X y feature_indices p branch depth,
    shape0 X = 0 ->
    length y = shape0 X ->
    0 < length (target p) ->
    exists m leaf,
      mode (target p) = Ok m /\
      In m (target p) /\
      (forall c, count c (target p) <= count m (target p)) /\
      _tree_builder log2 (S fuel) self th X y feature_indices (Some p) branch depth
        = Ok (leaf, th) /\
      feature leaf = m /\
      is_leaf leaf = true /\
      parent leaf = Some p.
Proof.
  intros log2 fuel self th X y fi p branch d HX Hy Hp.
  destruct X as [|r X]; [|discriminate].
  destruct y as [|c y]; [|discriminate].
  destruct (mode_nonempty _ Hp) as [m Hm].
  destruct (mode_most_common _ _ Hm) as [Hin Hmax].
  exists m. eexists. split; [exact Hm|]. split; [exact Hin|]. split; [exact Hmax|].
  cbn [_tree_builder]. 
  change (np_unique []) with (Ok (@nil cell)). cbn [bind length Nat.eqb].
  change (size [] =? 0) with true. cbn [of_option bind].
  rewrite Hm. cbn [bind]. unfold DecisionNode_init.
  change (unique_counts []) with (Ok (@nil (cell * nat))). cbn [bind].
  split; [reflexivity|]. repeat split.
Qed.

(** Witness for C5: an empty partition below the root of the end-to-end
    scenario, whose target slice is [yes, yes, no, no]. *)
Lemma empty_partition_yields_parent_mode_witness :
  shape0 ([] : matrix) = 0 /\
  length ([] : list cell) = shape0 ([] : matrix) /\
  0 < length (target tree_cat) /\
  exists m leaf,
    mode (target tree_cat) = Ok m /\
    In m (target tree_cat) /\
    (forall c, count c (target tree_cat) <= count m (target tree_cat)) /\
    _tree_builder log2_pow2 1 fitted_cat [] [] [] [] (Some tree_cat)
      (Some (Str "C")) 1 = Ok (leaf, []) /\
    feature leaf = m /\
    is_leaf leaf = true /\
    parent leaf = Some tree_cat.
Proof.
  assert (H1 : shape0 ([] : matrix) = 0) by reflexivity.
  assert (H2 : length ([] : list cell) = shape0 ([] : matrix)) by reflexivity.
  assert (H3 : 0 < length (target tree_cat)) by (vm_compute; lia).
  split; [exact H1|]. split; [exact H2|]. split; [exact H3|].
  exact (empty_partition_yields_parent_mode log2_pow2 0 fitted_cat [] [] [] []
           tree_cat (Some (Str "C")) 1 H1 H2 H3).
Defined.

(* ================================================================= *)
(** ** A value never seen for its feature (C6) *)

(** The walk from a node the loop reaches is the rest of the walk from
    the root. *)
Lemma walk_reaches_same names x root n :
  walk_reaches names x root n ->
  tree_walk names x root = tree_walk names x n.
Proof.
  induction 1 as [|n i q c _ IH Hleaf Hidx Hq Hget]; [reflexivity|].
  rewrite IH, (tree_walk_unfold names x n), Hleaf, Hidx. cbn [bind].
  rewrite Hq. cbn [of_option bind]. rewrite Hget. reflexivity.
Qed.

(** The error of a value that labels no branch: fitted on the domain
    [{A, B}], the estimator fails on the value [C] with a [KeyError] whose
    argument is the value; the feature, [feature_0], is not named. *)
Lemma unseen_category_error_omits_feature :
  exists self e,
    fit log2_pow2 clf (NdArray X_cat) y_cat = Ok self /\
    dict_get Nat.eq_dec 0 (unique_levels_ self) = Some [Str "A"; Str "B"] /\
    nth_error (feature_names_ self) 0 = Some "feature_0" /\
    predict self [[Str "C"]] = Err e /\
    error_names e (Str "C") /\
    ~ error_names e (Str "feature_0").
Proof.
  do 2 eexists. vm_compute.
  repeat split; try reflexivity. intros H. discriminate H.
Qed.

(** A walk that reaches a categorical split node with a value that labels
    none of its branches fails with the [KeyError] of that value. *)
Lemma tree_walk_unseen_label names x tree n feature_idx v :
  walk_reaches names x tree n ->
  is_leaf n = false ->
  threshold n = None ->
  index_of (feature n) names = Ok feature_idx ->
  nth_error x feature_idx = Some v ->
  ~ In v (branch_labels n) ->
  __getitem__ n v = Err (KeyError v) /\
  tree_walk names x tree = Err (KeyError v).
Proof.
  intros Hreach Hleaf Hthr Hidx Hv Hnot.
  assert (Hget : __getitem__ n v = Err (KeyError v)).
  { unfold __getitem__. rewrite Hthr. cbn [branch_for bind].
    rewrite dict_get_None by exact Hnot. reflexivity. }
  split; [exact Hget|].
  rewrite (walk_reaches_same _ _ _ _ Hreach), tree_walk_unfold, Hleaf, Hidx.
  cbn [bind]. rewrite Hv. cbn [of_option bind]. rewrite Hget. reflexivity.
Qed.

Lemma predict_first_row_fails self tree x rest e :
  tree_ self = Some tree ->
  check_array (x :: rest) = Ok tt ->
  tree_walk (feature_names_ self) x tree = Err e ->
  predict self (x :: rest) = Err e.
Proof.
  intros Ht Hchk Hwalk. rewrite (predict_valid _ _ _ Ht Hchk).
  cbn [mapM]. rewrite Hwalk. reflexivity.
Qed.

(** At the root of a fitted tree that splits a categorical feature, a
    valid query whose first row holds, for that feature, a value that
    does not occur in the column of the feature in the training data
    fails with the [KeyError] of the value. *)
Lemma unseen_category_at_root (log2 : Q -> Q) self input y est tree x rest
    feature_idx v :
  fit log2 self input y = Ok est ->
  tree_ est = Some tree ->
  is_leaf tree = false ->
  threshold tree = None ->
  index_of (feature tree) (feature_names_ est) = Ok feature_idx ->
  nth_error x feature_idx = Some v ->
  check_array (x :: rest) = Ok tt ->
  exists X idx name col,
    input_array input = Some X /\
    nth_error (feature_names_ est) idx = Some name /\
    feature tree = Str name /\
    column idx X = Ok col /\
    (~ In v col -> predict est (x :: rest) = Err (KeyError v)).
Proof.
  intros Hfit Ht Hleaf Hthr Hidx Hv Hchk.
  destruct (root_branch_labels _ _ _ _ _ _ Hfit Ht Hleaf)
    as (X & idx & name & col & HX & Hname & Hf & Hcol & Hcases).
  exists X, idx, name, col. repeat (split; [assumption|]).
  intros Hnot.
  destruct Hcases as [(_ & (t & Ht') & _) | (_ & _ & Hu)]; [congruence|].
  apply predict_first_row_fails with (tree := tree); [assumption | assumption |].
  apply (tree_walk_unseen_label (feature_names_ est) x tree tree feature_idx v);
    try assumption.
  - apply walk_start.
  - intros Hin. apply Hnot. apply (proj1 (np_unique_In _ _ v Hu)). exact Hin.
Qed.

(** C6. The specification has the prediction fail, and never fall back
    to a child, when the value of the query row for the feature of a
    reached categorical split node was never observed at fit time for that
    feature. Below a categorical split the code labels the branches of a
    node with the levels of another feature (C3), so that a value never
    observed for the feature of the node, but observed for that other
    feature, finds a branch. On the data with the features [feature_0] in
    [{A, B}] and [feature_1] in [{P, Q}], the walk of the valid query row
    [(A, A)] reaches the node that splits [feature_1]; the value [A] of
    the row for [feature_1] occurs nowhere in the column of [feature_1];
    yet the node returns its child under [A], and the row is predicted the
    label [u] of that child: no error is raised. This holds whatever [np.log2]
    computes. *)
Theorem unseen_value_is_routed_to_a_child :
  forall log2 : Q -> Q,
  exists col,
    fit log2 clf (NdArray X_nested) y_nested = Ok fitted_nested /\
    tree_ fitted_nested = Some tree_nested /\
    column 1 X_nested = Ok col /\
    ~ In (Str "A") col /\
    dict_get Nat.eq_dec 1 (unique_levels_ fitted_nested) = Some [Str "P"; Str "Q"] /\
    check_array [[Str "A"; Str "A"]] = Ok tt /\
    walk_reaches (feature_names_ fitted_nested) [Str "A"; Str "A"]
      tree_nested node_nested_A /\
    is_leaf node_nested_A = false /\
    threshold node_nested_A = None /\
    feature node_nested_A = Str "feature_1" /\
    index_of (feature node_nested_A) (feature_names_ fitted_nested) = Ok 1 /\
    nth_error [Str "A"; Str "A"] 1 = Some (Str "A") /\
    __getitem__ node_nested_A (Str "A") = Ok leaf_nested_AA /\
    is_leaf leaf_nested_AA = true /\
    feature leaf_nested_AA = Str "u" /\
    predict fitted_nested [[Str "A"; Str "A"]] = Ok [Str "u"].
Proof.
  intros log2. rewrite fit_nested_any_log2.
  exists [Str "P"; Str "Q"; Str "P"; Str "Q"].
  split; [vm_compute; reflexivity|].
  split; [vm_compute; reflexivity|].
  split; [vm_compute; reflexivity|].
  split.
  { intros [H|[H|[H|[H|[]]]]]; discriminate H. }
  split; [vm_compute; reflexivity|].
  split; [reflexivity|].
  split.
  { apply walk_step with (n := tree_nested) (feature_idx := 0)
                         (query_level := Str "A");
      [apply walk_start | vm_compute; reflexivity ..]. }
  repeat split; vm_compute; reflexivity.
Qed.

(* ================================================================= *)
(** ** Depth (C7) *)

(** C7. In every tree produced by [fit], the depth of a node is the number
    of edges on the path from the root to it: the root has depth 0 and a
    child has the depth of its parent plus one; and when [max_depth = m] is
    configured no node is deeper than [m]. *)
Theorem depth_is_path_length_and_bounded :
  forall (log2 : Q -> Q) self input y est tree k n,
    fit log2 self input y = Ok est ->
    tree_ est = Some tree ->
    at_depth tree k n ->
    depth n = k /\
    (forall b c, In (b, c) (children n) -> depth c = depth n + 1) /\
    (forall m, max_depth self = Some m -> depth n <= m).
Proof.
  intros log2 self input y est tree k n Hfit Ht Hat.
  destruct (fit_built _ _ _ _ _ _ Hfit Ht) as [Hmd Hb].
  pose proof (built_at_depth _ _ _ _ Hat _ Hb) as Hn. simpl in Hn.
  inversion Hn as [? ? Hd Hk _ _ Hkids]; subst.
  split; [reflexivity|]. split.
  - intros b c Hin. specialize (Hkids _ _ Hin).
    inversion Hkids; subst. lia.
  - intros m Hm. apply Hk. congruence.
Qed.

(** Witness for C7: the leaf under [A] of the tree fitted on the
    end-to-end scenario with [max_depth = 1]. *)
Lemma depth_is_path_length_and_bounded_witness :
  fit log2_pow2 clf_depth1 (NdArray X_cat) y_cat = Ok fitted_cat /\
  tree_ fitted_cat = Some tree_cat /\
  at_depth tree_cat 1 leaf_cat_A /\
  depth leaf_cat_A = 1 /\
  (forall b c, In (b, c) (children leaf_cat_A) -> depth c = depth leaf_cat_A + 1) /\
  (forall m, max_depth clf_depth1 = Some m -> depth leaf_cat_A <= m).
Proof.
  assert (Hfit : fit log2_pow2 clf_depth1 (NdArray X_cat) y_cat = Ok fitted_cat)
    by (vm_compute; reflexivity).
  assert (Ht : tree_ fitted_cat = Some tree_cat) by (vm_compute; reflexivity).
  assert (Hat : at_depth tree_cat 1 leaf_cat_A).
  { apply at_depth_child with (n := tree_cat) (b := Str "A");
      [apply at_depth_root | vm_compute; left; reflexivity]. }
  split; [exact Hfit|]. split; [exact Ht|]. split; [exact Hat|].
  exact (depth_is_path_length_and_bounded log2_pow2 clf_depth1 (NdArray X_cat)
           y_cat fitted_cat tree_cat 1 leaf_cat_A Hfit Ht Hat).
Defined.

(* ================================================================= *)
(** ** Enumeration order (C8) *)

Lemma pop_snoc (A : Type) (l : list A) (x : A) : pop (l ++ [x]) = Some (x, l).
Proof.
  induction l as [|a l IH]; simpl.
  - reflexivity.
  - rewrite IH. reflexivity.
Qed.

Lemma insert_by_true (A : Type) (key : A -> bool) (x : A) (lo hi : list A) :
  key x = true ->
  forallb (fun a => negb (key a)) lo = true ->
  forallb key hi = true ->
  insert_by key x (lo ++ hi) = lo ++ x :: hi.
Proof.
  intros Hx Hlo Hhi. induction lo as [|a lo IH]; simpl in *.
  - destruct hi as [|h hi]; [reflexivity|]. simpl in Hhi.
    apply andb_true_iff in Hhi. destruct Hhi as [Hh _].
    simpl. rewrite Hx, Hh. reflexivity.
  - apply andb_true_iff in Hlo. destruct Hlo as [Ha Hlo].
    apply negb_true_iff in Ha. rewrite Hx, Ha. simpl. rewrite IH by assumption.
    reflexivity.
Qed.

Lemma insert_by_false (A : Type) (key : A -> bool) (x : A) (l : list A) :
  key x = false -> insert_by key x l = x :: l.
Proof.
  intros Hx. destruct l as [|h l]; simpl; [reflexivity|]. rewrite Hx. reflexivity.
Qed.

Lemma forallb_filter (A : Type) (f : A -> bool) (l : list A) :
  forallb f (filter f l) = true.
Proof.
  induction l as [|a l IH]; simpl; [reflexivity|].
  destruct (f a) eqn:E; simpl; [rewrite E|]; assumption.
Qed.

(** A stable sort on a boolean key puts the elements with the key [False]
    first and those with the key [True] after them, each group in its
    original order. *)
Lemma sorted_by_bool (A : Type) (key : A -> bool) (l : list A) :
  sorted key l = filter (fun a => negb (key a)) l ++ filter key l.
Proof.
  induction l as [|a l IH]; simpl; [reflexivity|].
  unfold sorted in *. simpl. rewrite IH.
  destruct (key a) eqn:E; simpl.
  - apply insert_by_true; [assumption | apply forallb_filter | apply forallb_filter].
  - apply insert_by_false. assumption.
Qed.

Lemma push_each_rev (A : Type) (xs stack : list A) :
  push_each stack xs = rev xs ++ stack.
Proof.
  unfold push_each. revert stack.
  induction xs as [|x xs IH]; intros stack; simpl; [reflexivity|].
  rewrite IH, <- app_assoc. reflexivity.
Qed.

(** The loop of [__iter__] on a frontier and the traversal of the
    specification on the same nodes as a stack agree at every step. *)
Lemma iter_loop_spec_dfs fuel : forall stack,
  iter_loop fuel (rev stack) = spec_dfs fuel stack.
Proof.
  induction fuel as [|fuel IH]; intros [|n stack]; try reflexivity.
  - simpl rev. cbn [iter_loop]. rewrite pop_snoc. reflexivity.
  - simpl rev. cbn [iter_loop spec_dfs]. rewrite pop_snoc.
    rewrite <- IH. rewrite !push_each_rev, sorted_by_bool.
    rewrite !rev_app_distr, !rev_involutive, <- app_assoc.
    rewrite (filter_ext (fun a => negb (negb (is_leaf a))) is_leaf)
      by (intros c; apply negb_involutive).
    reflexivity.
Qed.

Lemma node_count_children n :
  node_count n = S (list_sum (map node_count (dict_values (children n)))).
Proof.
  destruct n as [f t br d p cs tg v ns cl]. cbn [node_count children].
  f_equal. induction cs as [|[k c] cs IH]; [reflexivity|].
  simpl. f_equal. exact IH.
Qed.

Lemma list_sum_filter (A : Type) (w : A -> nat) (f : A -> bool) (l : list A) :
  list_sum (map w (filter f l)) + list_sum (map w (filter (fun a => negb (f a)) l))
  = list_sum (map w l).
Proof.
  induction l as [|a l IH]; simpl; [reflexivity|].
  destruct (f a); simpl; lia.
Qed.

Lemma list_sum_rev (l : list nat) : list_sum (rev l) = list_sum l.
Proof.
  induction l as [|a l IH]; simpl; [reflexivity|].
  rewrite list_sum_app. simpl. lia.
Qed.

(** [preorder], in terms of the children of the node. *)
Lemma preorder_unfold n :
  preorder n =
  n :: flat_map preorder
         (rev (filter (fun c => negb (is_leaf c)) (dict_values (children n))))
    ++ rev (filter is_leaf (dict_values (children n))).
Proof.
  destruct n as [f t br d p cs tg v ns cl].
  cbn [preorder children]. f_equal.
  set (n := mkNode f t br d p cs tg v ns cl). clearbody n.
  rewrite <- (app_nil_r (rev (filter is_leaf (dict_values cs)))).
  rewrite <- (app_nil_r (flat_map preorder _)).
  generalize (@nil DecisionNode) at 1 3. generalize (@nil DecisionNode).
  induction cs as [|[k c] cs IH]; intros acc1 acc2; [reflexivity|].
  cbn [dict_values map snd filter]. fold (dict_values cs).
  rewrite IH. destruct (is_leaf c); cbn [negb rev];
    rewrite ?flat_map_app; cbn [flat_map]; rewrite ?app_nil_r;
    repeat rewrite <- app_assoc; reflexivity.
Qed.

Lemma preorder_leaves (l : list DecisionNode) :
  forallb is_leaf l = true -> flat_map preorder l = l.
Proof.
  induction l as [|c l IH]; simpl; intros H; [reflexivity|].
  apply andb_true_iff in H. destruct H as [Hc Hl].
  rewrite IH by assumption. rewrite preorder_unfold.
  unfold is_leaf in Hc. destruct (children c); [reflexivity | discriminate].
Qed.

Lemma forallb_rev (A : Type) (f : A -> bool) (l : list A) :
  forallb f l = true -> forallb f (rev l) = true.
Proof.
  rewrite !forallb_forall. intros H x Hx. apply H. apply in_rev. assumption.
Qed.

(** With as many iterations as the stack holds nodes, below and including
    its entries, the traversal ends, and yields the nodes of its entries
    in the order of [preorder]. *)
Lemma spec_dfs_preorder fuel : forall stack,
  list_sum (map node_count stack) <= fuel ->
  spec_dfs fuel stack = Ok (flat_map preorder stack).
Proof.
  induction fuel as [|fuel IH]; intros [|n stack] Hle; try reflexivity.
  - simpl in Hle. rewrite node_count_children in Hle. lia.
  - cbn [spec_dfs]. rewrite !push_each_rev. rewrite IH.
    + cbn [bind flat_map]. rewrite (preorder_unfold n), !flat_map_app.
      rewrite (preorder_leaves (rev (filter is_leaf (dict_values (children n)))))
        by apply forallb_rev, forallb_filter.
      cbn [app]. rewrite <- ?app_assoc. reflexivity.
    + simpl in Hle. rewrite node_count_children in Hle.
      rewrite !map_app, !list_sum_app, !map_rev, !list_sum_rev.
      pose proof (list_sum_filter _ node_count is_leaf (dict_values (children n))).
      lia.
Qed.

(** C8. The nodes of a fitted tree are enumerated in the order of the
    explicit-stack depth-first traversal that yields each popped node and
    pushes its leaf children, then its non-leaf children, each group in
    insertion order; the enumeration is produced, and in it the subtrees of
    the internal children of a node come before its leaf children. *)
Theorem iter_is_leaves_first_stack_dfs :
  forall self tree,
    tree_ self = Some tree ->
    exists nodes,
      __iter__ self = Ok nodes /\
      spec_dfs (node_count tree) [tree] = Ok nodes /\
      nodes = preorder tree.
Proof.
  intros self tree Ht. unfold __iter__, fitted_tree. rewrite Ht. cbn [of_option bind].
  assert (Hl : spec_dfs (node_count tree) [tree] = Ok (preorder tree)).
  { rewrite spec_dfs_preorder by (simpl; lia). simpl. rewrite app_nil_r. reflexivity. }
  exists (preorder tree). split; [|split; [assumption | reflexivity]].
  rewrite <- Hl. apply (iter_loop_spec_dfs (node_count tree) [tree]).
Qed.

(** Witness for C8: the tree of the end-to-end scenario. *)
Lemma iter_is_leaves_first_stack_dfs_witness :
  tree_ fitted_cat = Some tree_cat /\
  exists nodes,
    __iter__ fitted_cat = Ok nodes /\
    spec_dfs (node_count tree_cat) [tree_cat] = Ok nodes /\
    nodes = preorder tree_cat.
Proof.
  assert (Ht : tree_ fitted_cat = Some tree_cat) by (vm_compute; reflexivity).
  split; [exact Ht|].
  exact (iter_is_leaves_first_stack_dfs fitted_cat tree_cat Ht).
Defined.

(* ================================================================= *)
(** ** Class counts and probabilities (C9) *)








(* ================================================================= *)
(** ** The assertions of [_partition_data] (C10) *)

Lemma costs_tie (log2 : Q -> Q) :
  mapM (cost log2 X_tie y_tie 0) X_tie
  = Ok [cost_tie_low log2; cost_tie_high log2;
        cost_tie_low log2; cost_tie_high log2].
Proof. vm_compute. reflexivity. Qed.

(** The two candidates cost the same: the entropy of [a, a, b, b] against
    the mean of the entropies of its two halves [a, b]. *)
Lemma costs_tie_equal (log2 : Q -> Q) :
  (log2 (2 # 4) == log2 (1 # 2))%Q ->
  (cost_tie_low log2 == cost_tie_high log2)%Q.
Proof.
  intros H. unfold cost_tie_low, cost_tie_high, dot, Qsum.
  cbn [map combine fold_right fst snd].
  change (Q_of_nat 2 / Q_of_nat 4)%Q with (2 # 4)%Q.
  change (Q_of_nat 1 / Q_of_nat 2)%Q with (1 # 2)%Q.
  change (Q_of_nat 0 / Q_of_nat 4)%Q with (0 # 4)%Q.
  change (Q_of_nat 4 / Q_of_nat 4)%Q with (4 # 4)%Q.
  rewrite H. field.
Qed.

Lemma optimal_threshold_tie (log2 : Q -> Q) :
  (log2 (2 # 4) == log2 (1 # 2))%Q ->
  exists g, _compute_optimal_threshold log2 X_tie y_tie 0 = Ok (g, num 1).
Proof.
  intros H. pose proof (costs_tie_equal log2 H) as Heq.
  assert (Hhl : Qltb (cost_tie_high log2) (cost_tie_low log2) = false).
  { apply Qltb_ge. rewrite Heq. apply Qle_refl. }
  unfold _compute_optimal_threshold. rewrite costs_tie.
  cbn [bind argmin arg_best py_min fold_left].
  rewrite Hhl, Qltb_irrefl. rewrite Hhl. cbn [bind].
  eexists. vm_compute. reflexivity.
Qed.

(** C10. The assertions of [_partition_data] state that neither side of a
    numerical split is empty; the threshold search does not ensure it. On
    the column [1, 2, 1, 2] with the targets [a, a, b, b] every candidate
    threshold costs the same, as soon as [np.log2] takes the same value on
    the equal rationals 2/4 and 1/2; the first, 1, is kept. It is the
    minimum of the column, no row is strictly below it, and the assertion
    of [_partition_data] fails. *)
Theorem partition_assertion_fails :
  forall log2 : Q -> Q,
    (log2 (2 # 4) == log2 (1 # 2))%Q ->
    (exists g, _compute_optimal_threshold log2 X_tie y_tie 0 = Ok (g, num 1)) /\
    (exists col mask,
       column 0 X_tie = Ok col /\
       mapM (fun v => py_lt v (num 1)) col = Ok mask /\
       select mask X_tie = []) /\
    fit log2 clf (NdArray X_tie) y_tie = Err AssertionError.
Proof.
  intros log2 H. destruct (optimal_threshold_tie log2 H) as [g Hopt].
  split; [exists g; exact Hopt|].
  split; [do 2 eexists; vm_compute; repeat split; reflexivity|].
  assert (Hfi : feature_importances log2 [] X_tie y_tie (seq 0 (shape1 X_tie))
                = Ok ([g], [(0, num 1)])).
  { run (seq 0 (shape1 X_tie)). cbn [feature_importances].
    unfold _compute_information_gain. run (column 0 X_tie). cbn [bind].
    run (is_numeric_dtype [num 1; num 2; num 1; num 2]). cbv iota.
    rewrite Hopt. reflexivity. }
  unfold fit. cbn [bind].
  run (shape0 X_tie + shape1 X_tie).
  cbn [_tree_builder]. rewrite Hfi. cbn [bind].
  vm_compute. reflexivity.
Qed.

(** Witness for C10: the logarithm of the examples. *)
Lemma partition_assertion_fails_witness :
  (log2_pow2 (2 # 4) == log2_pow2 (1 # 2))%Q /\
  (exists g, _compute_optimal_threshold log2_pow2 X_tie y_tie 0 = Ok (g, num 1)) /\
  (exists col mask,
     column 0 X_tie = Ok col /\
     mapM (fun v => py_lt v (num 1)) col = Ok mask /\
     select mask X_tie = []) /\
  fit log2_pow2 clf (NdArray X_tie) y_tie = Err AssertionError.
Proof.
  assert (H : (log2_pow2 (2 # 4) == log2_pow2 (1 # 2))%Q) by reflexivity.
  split; [exact H|].
  exact (partition_assertion_fails log2_pow2 H).
Defined.

(* ================================================================= *)
(** ** One call of the builder that splits *)

Lemma attach_subtrees_ext build1 build2 : forall subtrees th sn,
  (forall th Xs ys sn b, build1 th Xs ys sn b = build2 th Xs ys sn b) ->
  attach_subtrees build1 th sn subtrees = attach_subtrees build2 th sn subtrees.
Proof.
  induction subtrees as [|[[Xs ys] b] rest IH]; simpl; intros th sn Hext.
  - reflexivity.
  - rewrite Hext. destruct (build2 th Xs ys sn b) as [[c th1]|e]; simpl.
    + apply IH. assumption.
    + reflexivity.
Qed.

(** The builder reads the hyperparameters, the names, the classes and the
    levels of the estimator, and nothing else of it. *)
Lemma tree_builder_ext log2 a b :
  max_depth a = max_depth b ->
  min_samples_split a = min_samples_split b ->
  feature_names_ a = feature_names_ b ->
  classes_ a = classes_ b ->
  unique_levels_ a = unique_levels_ b ->
  forall fuel th X y fi parent branch d,
    _tree_builder log2 fuel a th X y fi parent branch d =
    _tree_builder log2 fuel b th X y fi parent branch d.
Proof.
  intros Hmd Hms Hfn Hcl Hul.
  induction fuel as [|fuel IH]; intros th X y fi parent branch d; [reflexivity|].
  cbn [_tree_builder]. rewrite Hmd, Hms, Hfn, Hcl, Hul.
  destruct (np_unique y) as [uy|e]; [|reflexivity]. cbn [bind].
  destruct (length uy =? 1); [reflexivity|].
  destruct (size X =? 0); [reflexivity|].
  destruct (all_rows_equal_first X); [reflexivity|].
  destruct (match max_depth b with Some k => k =? d | None => false end);
    [reflexivity|].
  destruct (length X <? min_samples_split b); [reflexivity|].
  destruct (feature_importances log2 th X y (seq 0 (shape1 X))) as [[gains th1]|e];
    [|reflexivity]. cbn [bind].
  destruct (argmax gains) as [idx|e]; [|reflexivity]. cbn [bind].
  destruct (of_option IndexError (nth_error fi idx)) as [norm|e]; [|reflexivity].
  cbn [bind].
  destruct (of_option IndexError (nth_error (feature_names_ b) norm)) as [name|e];
    [|reflexivity]. cbn [bind].
  destruct (DecisionNode_init (Str name) branch parent y (classes_ b)) as [s0|e];
    [|reflexivity]. cbn [bind].
  destruct (column idx X) as [col|e]; [|reflexivity]. cbn [bind].
  match goal with |- bind ?m _ = bind ?m _ => destruct m as [s1|e] end;
    [|reflexivity]. cbn [bind].
  match goal with |- bind ?m _ = bind ?m _ => destruct m as [levels|e] end;
    [|reflexivity]. cbn [bind].
  match goal with |- bind ?m _ = bind ?m _ => destruct m as [parts|e] end;
    [|reflexivity]. cbn [bind].
  match goal with |- bind ?m _ = bind ?m _ => destruct m as [[subtrees fi']|e] end;
    [|reflexivity]. cbn [bind].
  apply attach_subtrees_ext. intros. apply IH.
Qed.

(** One call of the builder, with the rule it stopped on or the split it
    made: a leaf on pure targets; a leaf labelled by the parent on an array
    without any cell; a leaf on identical rows, at the depth limit or below
    the sample limit; otherwise a split on the column of greatest gain,
    with one subtree per triple. *)
Lemma tree_builder_cases log2 fuel self th X y fi pa br d n th' :
  _tree_builder log2 (S fuel) self th X y fi pa br d = Ok (n, th') ->
  exists uy,
    np_unique y = Ok uy /\
    ((exists m,
        DecisionNode_init m br pa y (classes_ self) = Ok n /\
        ((length uy = 1 /\ mode y = Ok m)
         \/ (length uy <> 1 /\ size X = 0 /\
             exists p, pa = Some p /\ mode (target p) = Ok m)
         \/ (length uy <> 1 /\ size X <> 0 /\ mode y = Ok m /\
             (all_rows_equal_first X = true
              \/ max_depth self = Some d
              \/ length X < min_samples_split self))))
     \/ (exists gains th1 idx norm name s0 col s1 levels subtrees fi',
           length uy <> 1 /\
           size X <> 0 /\ all_rows_equal_first X = false /\
           (forall k, max_depth self = Some k -> k <> d) /\
           min_samples_split self <= length X /\
           feature_importances log2 th X y (seq 0 (shape1 X)) = Ok (gains, th1) /\
           argmax gains = Ok idx /\ idx < shape1 X /\
           nth_error fi idx = Some norm /\
           nth_error (feature_names_ self) norm = Some name /\
           DecisionNode_init (Str name) br pa y (classes_ self) = Ok s0 /\
           column idx X = Ok col /\
           dict_get Nat.eq_dec idx (unique_levels_ self) = Some levels /\
           ((exists t mask,
               is_numeric_dtype col = true /\
               dict_get Nat.eq_dec idx th1 = Some t /\
               s1 = set_threshold s0 t /\
               mapM (fun v => py_lt v t) col = Ok mask /\
               select mask X <> [] /\ select (invert mask) X <> [] /\
               subtrees = numerical_parts X y mask /\ fi' = fi)
            \/ (is_numeric_dtype col = false /\
                s1 = s0 /\
                subtrees = map (categorical_part X y col idx) levels /\
                fi' = remove_at idx fi)) /\
           attach_subtrees
             (fun th Xs ys sn b =>
                _tree_builder log2 fuel self th Xs ys fi' (Some sn) (Some b) (d + 1))
             th1 s1 subtrees = Ok (n, th'))).
Proof.
  cbn [_tree_builder]. intros H.
  apply bind_Ok in H. destruct H as [uy [Huy H]].
  exists uy. split; [assumption|].
  destruct (length uy =? 1) eqn:Hpure.
  { left. inv_bind H. injection H as <- _. apply Nat.eqb_eq in Hpure.
    exists a. split; [assumption|]. left. tauto. }
  apply Nat.eqb_neq in Hpure.
  destruct (size X =? 0) eqn:Hsize.
  { left. inv_bind H. injection H as <- _. apply Nat.eqb_eq in Hsize.
    apply of_option_Ok in E.
    exists a0. split; [assumption|]. right. left.
    split; [assumption|]. split; [assumption|]. exists a. tauto. }
  apply Nat.eqb_neq in Hsize.
  destruct (all_rows_equal_first X) eqn:Hsame.
  { left. inv_bind H. injection H as <- _.
    exists a. split; [assumption|]. right. right. tauto. }
  destruct (match max_depth self with Some k => k =? d | None => false end) eqn:Hmax.
  { left. inv_bind H. injection H as <- _.
    exists a. split; [assumption|]. right. right.
    repeat (split; [assumption|]). right. left.
    destruct (max_depth self) as [k|]; [|discriminate].
    apply Nat.eqb_eq in Hmax. congruence. }
  destruct (length X <? min_samples_split self) eqn:Hmin.
  { left. inv_bind H. injection H as <- _. apply Nat.ltb_lt in Hmin.
    exists a. split; [assumption|]. right. right. tauto. }
  right.
  apply bind_Ok in H. destruct H as [[gains th1] [Hg H]].
  apply bind_Ok in H. destruct H as [idx [Hidx H]].
  apply bind_Ok in H. destruct H as [norm [Hnorm H]].
  apply bind_Ok in H. destruct H as [name [Hname H]].
  apply bind_Ok in H. destruct H as [s0 [Hs0 H]].
  apply bind_Ok in H. destruct H as [col [Hcol H]].
  apply bind_Ok in H. destruct H as [s1 [Hs1 H]].
  apply bind_Ok in H. destruct H as [levels [Hlev H]].
  apply bind_Ok in H. destruct H as [parts [Hparts H]].
  apply bind_Ok in H. destruct H as [[subtrees fi'] [Hsub H]].
  apply of_option_Ok in Hnorm, Hname, Hlev.
  exists gains, th1, idx, norm, name, s0, col, s1, levels, subtrees, fi'.
  split; [assumption|].
  split; [assumption|].
  split; [reflexivity|].
  split. { intros k Hk. rewrite Hk in Hmax. apply Nat.eqb_neq. assumption. }
  split; [apply Nat.ltb_ge; assumption|].
  split; [assumption|]. split; [assumption|].
  split. { apply argmax_bound in Hidx. apply feature_importances_length in Hg.
           rewrite length_seq in Hg. lia. }
  split; [assumption|]. split; [assumption|]. split; [assumption|].
  split; [assumption|]. split; [assumption|].
  split; [|exact H].
  pose proof (init_threshold _ _ _ _ _ _ Hs0) as Hthr.
  destruct (subtrees_inv _ _ _ _ _ _ _ _ _ _ _ _ _ _ _ _ Hs0 Hcol Hs1 Hparts Hsub)
    as [(t & mask & Hnum & -> & _ & Hne1 & Hne2 & ->) | (Hnum & -> & ->)].
  - left. rewrite Hnum in Hs1, Hsub.
    inv_bind Hs1. apply of_option_Ok in E.
    assert (Ht : a = t).
    { injection Hs1 as Ht. exact Ht. }
    subst a.
    destruct parts as [|[z|single] parts]; try discriminate.
    injection Hsub as Hz <-.
    destruct levels as [|level levels']; [discriminate|].
    simpl in Hparts. inv_bind Hparts. injection Hparts as -> _.
    apply partition_data_numerical with (t := t) in E0; [|reflexivity].
    destruct E0 as [col' [mask' [Hcol' [Hmask [Hne1' [Hne2' Hz']]]]]].
    injection Hz' as ->. rewrite Hcol in Hcol'. injection Hcol' as <-.
    exists t, mask'. repeat split; try assumption; try reflexivity.
    symmetry. assumption.
  - right. rewrite Hnum in Hsub.
    inv_bind Hsub. destruct (idx <? length fi); [|discriminate].
    injection Hsub as _ <-. repeat split; try reflexivity; assumption.
Qed.

(* ================================================================= *)
(** ** The subtrees of a split, in the order they are attached *)

Lemma dict_set_new (V : Type) (k : cell) (v : V) (d : list (cell * V)) :
  ~ In k (dict_keys d) -> dict_set cell_eq_dec k v d = d ++ [(k, v)].
Proof.
  unfold dict_keys. induction d as [|[k' v'] d IH]; simpl; intros H.
  - reflexivity.
  - destruct (cell_eq_dec k' k) as [->|Hne].
    + contradiction H. left. reflexivity.
    + f_equal. apply IH. intros Hin. apply H. right. assumption.
Qed.

Lemma attach_all_set_children sn kids :
  attach_all sn kids = set_children sn (children (attach_all sn kids)).
Proof.
  revert sn. induction kids as [|[k c] kids IH]; intros sn.
  - destruct sn. reflexivity.
  - simpl. rewrite IH at 1. unfold set_children. simpl. reflexivity.
Qed.

Lemma attach_all_In sn kids b c :
  In (b, c) (children (attach_all sn kids)) ->
  In (b, c) (children sn) \/ In (b, c) kids.
Proof.
  revert sn. induction kids as [|[k c'] kids IH]; simpl; intros sn H.
  - left. assumption.
  - apply IH in H. destruct H as [H|H].
    + simpl in H. apply dict_set_In in H. destruct H as [H|H].
      * right. left. symmetry. assumption.
      * left. assumption.
    + right. right. assumption.
Qed.

Lemma attach_all_children sn kids :
  NoDup (dict_keys (children sn) ++ map fst kids) ->
  children (attach_all sn kids) = children sn ++ kids.
Proof.
  revert sn. induction kids as [|[k c] kids IH]; simpl; intros sn H.
  - rewrite app_nil_r. reflexivity.
  - assert (Hk : ~ In k (dict_keys (children sn))).
    { apply NoDup_remove_2 in H. intros Hin. apply H. apply in_or_app. left.
      assumption. }
    rewrite IH; simpl; rewrite (dict_set_new _ _ _ _ Hk).
    + rewrite <- app_assoc. reflexivity.
    + unfold dict_keys in *. rewrite map_app. simpl. rewrite <- app_assoc.
      simpl. assumption.
Qed.

(** The loop attaching the subtrees returns the split node with one child
    per triple, in the order of the triples; each child was returned by
    the recursive call on its triple, made with the split node holding the
    children attached before it as parent. *)
Lemma attach_subtrees_kids build : forall subtrees th sn n th',
  attach_subtrees build th sn subtrees = Ok (n, th') ->
  exists kids,
    n = attach_all sn kids /\
    map fst kids = map snd subtrees /\
    forall l1 k c l2, kids = l1 ++ (k, c) :: l2 ->
      exists Xs ys th0 th1,
        nth_error subtrees (length l1) = Some (Xs, ys, k) /\
        build th0 Xs ys (attach_all sn l1) k = Ok (c, th1).
Proof.
  induction subtrees as [|[[Xs ys] b] rest IH]; simpl; intros th sn n th' H.
  - injection H as <- <-. exists []. split; [reflexivity|]. split; [reflexivity|].
    intros [|? ?] k c l2 Hk; discriminate.
  - apply bind_Ok in H. destruct H as [[subtree th1] [Hsub H]].
    apply IH in H. destruct H as (kids & Hn & Hkeys & Hkids).
    exists ((b, subtree) :: kids). split; [exact Hn|].
    split; [simpl; f_equal; exact Hkeys|].
    intros [|[k0 c0] l1] k c l2 Hk; simpl in Hk.
    + injection Hk as <- <- _. exists Xs, ys, th, th1.
      split; [reflexivity | exact Hsub].
    + injection Hk as <- <- Hk. apply Hkids in Hk. exact Hk.
Qed.

(** The fields of the node a call of the builder returns. *)
Lemma tree_builder_fields log2 fuel self th X y fi pa br d n th' :
  _tree_builder log2 fuel self th X y fi pa br d = Ok (n, th') ->
  branch n = br /\ depth n = ctx_depth pa /\ parent n = pa /\
  target n = y /\ value n = map (fun k => count k y) (classes_ self) /\
  n_samples n = length y /\ classes n = classes_ self.
Proof.
  destruct fuel as [|fuel]; [discriminate|]. intros H.
  apply tree_builder_inv in H.
  destruct H as [(m & Hm & Hn) | [(p & m & Hsz & Hp & Hm & Hn) | H]].
  - apply DecisionNode_init_fields in Hn. tauto.
  - apply DecisionNode_init_fields in Hn. tauto.
  - destruct H as (name & s0 & s1 & th1 & fi' & idx & col & subtrees &
                   _ & _ & Hs0 & _ & _ & _ & Hcases & Hloop).
    apply DecisionNode_init_fields in Hs0.
    apply attach_subtrees_kids in Hloop. destruct Hloop as (kids & -> & _).
    rewrite attach_all_set_children. unfold set_children. simpl.
    destruct Hcases as [(t & mask & _ & -> & _) | (levels & _ & -> & _)];
      simpl; tauto.
Qed.

Lemma attach_all_nonempty kids : forall sn,
  children sn <> [] \/ kids <> [] -> children (attach_all sn kids) <> [].
Proof.
  induction kids as [|[k c] kids IH]; simpl; intros sn H.
  - destruct H as [H|H]; [assumption | contradiction H; reflexivity].
  - apply IH. left. simpl. destruct (children sn) as [|[k' c'] rest]; simpl.
    + discriminate.
    + destruct (cell_eq_dec k' k); discriminate.
Qed.

(** A call of the builder that returns an internal node passed every
    stopping rule and made a split. *)
Lemma tree_builder_split log2 fuel self th X y fi pa br d n th' :
  _tree_builder log2 (S fuel) self th X y fi pa br d = Ok (n, th') ->
  is_leaf n = false ->
  exists uy gains th1 idx norm name s0 col s1 levels subtrees fi',
    np_unique y = Ok uy /\ length uy <> 1 /\
    size X <> 0 /\ all_rows_equal_first X = false /\
    (forall k, max_depth self = Some k -> k <> d) /\
    min_samples_split self <= length X /\
    feature_importances log2 th X y (seq 0 (shape1 X)) = Ok (gains, th1) /\
    argmax gains = Ok idx /\ idx < shape1 X /\
    nth_error fi idx = Some norm /\
    nth_error (feature_names_ self) norm = Some name /\
    DecisionNode_init (Str name) br pa y (classes_ self) = Ok s0 /\
    column idx X = Ok col /\
    dict_get Nat.eq_dec idx (unique_levels_ self) = Some levels /\
    ((exists t mask,
        is_numeric_dtype col = true /\
        dict_get Nat.eq_dec idx th1 = Some t /\
        s1 = set_threshold s0 t /\
        mapM (fun v => py_lt v t) col = Ok mask /\
        select mask X <> [] /\ select (invert mask) X <> [] /\
        subtrees = numerical_parts X y mask /\ fi' = fi)
     \/ (is_numeric_dtype col = false /\
         s1 = s0 /\
         subtrees = map (categorical_part X y col idx) levels /\
         fi' = remove_at idx fi)) /\
    attach_subtrees
      (fun th Xs ys sn b =>
         _tree_builder log2 fuel self th Xs ys fi' (Some sn) (Some b) (d + 1))
      th1 s1 subtrees = Ok (n, th').
Proof.
  intros H Hleaf. apply tree_builder_cases in H.
  destruct H as (uy & Huy & [(m & Hn & _) | H]).
  - apply DecisionNode_init_fields in Hn. destruct Hn as (_&_&_&_&_&Hch&_).
    unfold is_leaf in Hleaf. rewrite Hch in Hleaf. discriminate.
  - destruct H as (gains & th1 & idx & norm & name & s0 & col & s1 & levels &
                   subtrees & fi' & H).
    exists uy, gains, th1, idx, norm, name, s0, col, s1, levels, subtrees, fi'.
    split; [assumption | exact H].
Qed.

(** A call of the builder that returns a leaf stopped on one of the five
    rules; the label is the mode of the targets of the call, except on an
    array without any cell, where it is the mode of the targets of the
    parent. *)
Lemma tree_builder_leaf log2 fuel self th X y fi pa br d n th' :
  (forall i l, dict_get Nat.eq_dec i (unique_levels_ self) = Some l -> l <> []) ->
  _tree_builder log2 (S fuel) self th X y fi pa br d = Ok (n, th') ->
  is_leaf n = true ->
  exists uy m,
    np_unique y = Ok uy /\
    DecisionNode_init m br pa y (classes_ self) = Ok n /\
    ((length uy = 1 /\ mode y = Ok m)
     \/ (length uy <> 1 /\ size X = 0 /\
         exists p, pa = Some p /\ mode (target p) = Ok m)
     \/ (length uy <> 1 /\ size X <> 0 /\ mode y = Ok m /\
         (all_rows_equal_first X = true
          \/ max_depth self = Some d
          \/ length X < min_samples_split self))).
Proof.
  intros Hlevels H Hleaf. apply tree_builder_cases in H.
  destruct H as (uy & Huy & [(m & Hn & Hcases) | H]).
  - exists uy, m. tauto.
  - exfalso.
    destruct H as (gains & th1 & idx & norm & name & s0 & col & s1 & levels &
                   subtrees & fi' & _ & _ & _ & _ & _ & _ & _ & _ & _ & _ & _ & _ &
                   Hlev & Hcases & Hloop).
    apply attach_subtrees_kids in Hloop. destruct Hloop as (kids & -> & Hkeys & _).
    assert (Hne : subtrees <> []).
    { destruct Hcases as [(t & mask & _ & _ & _ & _ & _ & _ & -> & _) | (_ & _ & -> & _)].
      - discriminate.
      - specialize (Hlevels _ _ Hlev). destruct levels; [contradiction Hlevels|];
          [reflexivity | discriminate]. }
    assert (Hk : kids <> []).
    { intros ->. destruct subtrees; [contradiction Hne; reflexivity | discriminate]. }
    pose proof (attach_all_nonempty kids s1 (or_intror Hk)) as Hch.
    unfold is_leaf in Hleaf. destruct (children (attach_all s1 kids));
      [contradiction Hch; reflexivity | discriminate].
Qed.

(** What [fit] does when it succeeds: the input is validated, the
    attributes are set, and the tree is the one the builder returns for the
    whole training data. *)
Lemma fit_call log2 self input y est :
  fit log2 self input y = Ok est ->
  exists X tree th,
    input_array input = Some X /\
    check_X_y X y = Ok tt /\
    np_unique y = Ok (classes_ est) /\
    unique_levels X = Ok (unique_levels_ est) /\
    max_depth est = max_depth self /\
    min_samples_split est = min_samples_split self /\
    feature_names_ est =
      match input with
      | DataFrame columns _ => columns
      | _ => map feature_name (seq 0 (shape1 X))
      end /\
    tree_ est = Some tree /\
    _tree_builder log2 (S (shape0 X + shape1 X)) est [] X y
      (seq 0 (shape1 X)) None None 0 = Ok (tree, th).
Proof.
  unfold fit. intros H.
  apply bind_Ok in H. destruct H as [[names X] [Hin H]].
  assert (HX : input_array input = Some X /\
               names = match input with
                       | DataFrame columns _ => columns
                       | _ => map feature_name (seq 0 (shape1 X))
                       end).
  { destruct input as [X0|X0|columns X0|]; simpl in Hin.
    - inv_bind Hin. injection Hin as <- <-. apply of_option_Ok in E.
      destruct X0; [discriminate|]. injection E as <-. split; reflexivity.
    - injection Hin as <- <-. split; reflexivity.
    - injection Hin as <- <-. split; reflexivity.
    - discriminate. }
  destruct HX as [HX Hnames].
  apply bind_Ok in H. destruct H as [[] [Hchk H]].
  apply bind_Ok in H. destruct H as [classes [Hcl H]].
  apply bind_Ok in H. destruct H as [levels [Hlev H]].
  apply bind_Ok in H. destruct H as [[tree th] [Hb H]].
  injection H as <-.
  exists X, tree, th.
  cbn [max_depth min_samples_split feature_names_ classes_ unique_levels_ tree_].
  repeat split; try assumption.
  rewrite <- Hb. apply tree_builder_ext; reflexivity.
Qed.

(** ** Every node of a tree is what a call of the builder returned *)

Section Calls.

Variable log2 : Q -> Q.
Variable self : estimator.

(** A property of the partitions that every split hands down. *)
Variable I : matrix -> list cell -> Prop.
Hypothesis I_select : forall X y mask, I X y -> I (select mask X) (select mask y).
Hypothesis I_delete : forall X y idx, I X y -> I (np_delete_col idx X) y.

Lemma subtrees_keep X y col idx subtrees Xs ys b :
  I X y ->
  (exists mask, subtrees = numerical_parts X y mask)
  \/ (exists levels, subtrees = map (categorical_part X y col idx) levels) ->
  In (Xs, ys, b) subtrees -> I Xs ys.
Proof.
  intros HI [[mask ->] | [levels ->]] Hin.
  - destruct Hin as [Heq|[Heq|[]]]; injection Heq as <- <- _; apply I_select;
      assumption.
  - apply in_map_iff in Hin. destruct Hin as [level [Heq _]].
    injection Heq as <- <- _. apply I_delete, I_select. assumption.
Qed.

Lemma tree_nodes_calls : forall fuel th X y fi pa br d root th',
  I X y ->
  _tree_builder log2 fuel self th X y fi pa br d = Ok (root, th') ->
  forall k n, at_depth root k n ->
  exists fuel' th0 Xn yn fin th1,
    I Xn yn /\
    _tree_builder log2 (S fuel') self th0 Xn yn fin (parent n) (branch n) (d + k)
    = Ok (n, th1) /\
    ((k = 0 /\ Xn = X /\ yn = y /\ fin = fi)
     \/ (0 < k /\ exists p Xp, parent n = Some p /\ I Xp (target p))).
Proof.
  intros fuel th X y fi pa br d root th' HI H k n Hat.
  induction Hat as [|k n b c Hat IH Hin].
  - destruct fuel as [|fuel]; [discriminate|].
    pose proof (tree_builder_fields _ _ _ _ _ _ _ _ _ _ _ _ H) as (Hb & _ & Hp & _).
    exists fuel, th, X, y, fi, th'. rewrite Hb, Hp, Nat.add_0_r.
    split; [assumption|]. split; [assumption|]. left. repeat split.
  - destruct IH as (fuel' & th0 & Xn & yn & fin & th1 & HIn & Hn & _).
    assert (Hleaf : is_leaf n = false).
    { unfold is_leaf. destruct (children n); [destruct Hin | reflexivity]. }
    destruct (tree_builder_split _ _ _ _ _ _ _ _ _ _ _ _ Hn Hleaf)
      as (uy & gains & th2 & idx & norm & name & s0 & col & s1 & levels &
          subtrees & fi' & _ & _ & _ & _ & _ & _ & _ & _ & _ & _ & _ & Hs0 & _ & _ &
          Hcases & Hloop).
    apply attach_subtrees_kids in Hloop. destruct Hloop as (kids & Hnk & _ & Hkids).
    apply DecisionNode_init_fields in Hs0.
    assert (Hs1 : children s1 = [] /\ target s1 = yn).
    { destruct Hcases as [(t & mask & _ & _ & -> & _) | (_ & -> & _)]; simpl; tauto. }
    destruct Hs1 as [Hch1 Htg1].
    rewrite Hnk in Hin. apply attach_all_In in Hin. rewrite Hch1 in Hin.
    destruct Hin as [[]|Hin].
    apply in_split in Hin. destruct Hin as (l1 & l2 & Hsplit).
    destruct (Hkids _ _ _ _ Hsplit) as (Xs & ys & th3 & th4 & Hnth & Hc).
    apply nth_error_In in Hnth.
    assert (HIs : I Xs ys).
    { eapply subtrees_keep; [exact HIn | | exact Hnth].
      destruct Hcases as [(t & mask & _ & _ & _ & _ & _ & _ & -> & _) | (_ & _ & -> & _)];
        [left | right]; eauto. }
    destruct fuel' as [|fuel']; [discriminate|].
    pose proof (tree_builder_fields _ _ _ _ _ _ _ _ _ _ _ _ Hc) as (Hb & _ & Hp & _).
    exists fuel', th3, Xs, ys, fi', th4. split; [assumption|].
    rewrite Hb, Hp. replace (d + S k) with (d + k + 1) by lia.
    split; [exact Hc|]. right. split; [lia|].
    exists (attach_all s1 l1), Xn. split; [reflexivity|].
    rewrite attach_all_set_children. unfold set_children. simpl.
    rewrite Htg1. assumption.
Qed.

End Calls.

(* ================================================================= *)
(** ** The calls behind the nodes of a fitted tree *)

Lemma unique_levels_nonempty X ul i l :
  0 < shape0 X ->
  unique_levels X = Ok ul -> dict_get Nat.eq_dec i ul = Some l -> l <> [].
Proof.
  unfold unique_levels. intros Hrows H Hget. apply dict_get_In in Hget.
  destruct (mapM_In _ _ _ _ _ _ H Hget) as (idx & _ & Hf).
  apply bind_Ok in Hf. destruct Hf as [col [Hcol Hf]].
  destruct (is_numeric_dtype col).
  - inversion Hf; subst. discriminate.
  - apply bind_Ok in Hf. destruct Hf as [u [Hu Hf]].
    inversion Hf; subst. intros ->.
    apply mapM_length in Hcol. unfold shape0 in Hrows.
    destruct col as [|c col]; [simpl in Hcol; lia|].
    apply (proj2 (np_unique_In _ _ c Hu)). left. reflexivity.
Qed.

Lemma check_X_y_rows X y : check_X_y X y = Ok tt -> 0 < shape0 X /\ 0 < shape1 X.
Proof.
  unfold check_X_y. intros H. case_if H E; [|discriminate].
  apply andb_true_iff in E. destruct E as [E _].
  apply andb_true_iff in E. destruct E as [E _].
  apply andb_true_iff in E. destruct E as [E1 E2].
  apply Nat.ltb_lt in E1, E2. split; assumption.
Qed.

(** The levels recorded by [fit] are lists without duplicates, none of
    them empty. *)
Lemma fit_levels log2 self input y est :
  fit log2 self input y = Ok est ->
  forall i l, dict_get Nat.eq_dec i (unique_levels_ est) = Some l ->
    NoDup l /\ l <> [].
Proof.
  intros H i l Hget. apply fit_call in H.
  destruct H as (X & tree & th & _ & Hchk & _ & Hul & _).
  split.
  - eapply unique_levels_NoDup; eassumption.
  - eapply unique_levels_nonempty; [|eassumption|eassumption].
    apply check_X_y_rows in Hchk. tauto.
Qed.

Lemma remove_at_incl (A : Type) (idx : nat) (l : list A) : incl (remove_at idx l) l.
Proof.
  revert idx. induction l as [|a l IH]; intros [|idx]; simpl.
  - apply incl_refl.
  - apply incl_refl.
  - apply incl_tl, incl_refl.
  - intros x [<-|Hx]; [left; reflexivity | right; eapply IH; eassumption].
Qed.

(** Every node of a fitted tree was returned by a call of the builder on
    a partition whose rows are aligned with its targets, the targets being
    among those of the training data and every cell being a cell of the
    training array. *)
Lemma fit_nodes_calls log2 self input y est tree k n :
  fit log2 self input y = Ok est ->
  tree_ est = Some tree ->
  at_depth tree k n ->
  exists fuel th0 Xn yn fin th1,
    length Xn = length yn /\ incl yn y /\
    (forall X, input_array input = Some X ->
       forall r c, In r Xn -> In c r -> exists r0, In r0 X /\ In c r0) /\
    _tree_builder log2 (S fuel) est th0 Xn yn fin (parent n) (branch n) k
    = Ok (n, th1) /\
    ((k = 0 /\ input_array input = Some Xn /\ yn = y)
     \/ (0 < k /\ exists p, parent n = Some p /\ incl (target p) y)).
Proof.
  intros H Ht Hat. apply fit_call in H.
  destruct H as (X & tree' & th & HX & Hchk & _ & _ & _ & _ & _ & Ht' & Hb).
  rewrite Ht in Ht'. injection Ht' as <-.
  destruct (tree_nodes_calls log2 est
              (fun X' y' => length X' = length y' /\ incl y' y /\
                 forall r c, In r X' -> In c r -> exists r0, In r0 X /\ In c r0)) with
      (fuel := S (shape0 X + shape1 X)) (th := @nil (nat * cell)) (X := X) (y := y)
      (fi := seq 0 (shape1 X)) (pa := @None DecisionNode) (br := @None cell)
      (d := 0) (root := tree) (th' := th) (k := k) (n := n)
    as (fuel' & th0 & Xn & yn & fin & th1 & (Hlen & Hincl & Hcells) & Hn & Hpar).
  - intros X' y' mask (Hl & Hi & Hc). split; [|split].
    + apply select_length. assumption.
    + eapply incl_tran; [apply select_incl | assumption].
    + intros r c Hr. apply Hc. eapply select_incl. eassumption.
  - intros X' y' idx (Hl & Hi & Hc). split; [|split; [assumption|]].
    + unfold np_delete_col. rewrite length_map. assumption.
    + intros r c Hr Hcr. unfold np_delete_col in Hr. apply in_map_iff in Hr.
      destruct Hr as (r' & <- & Hr'). apply (Hc r'); [assumption|].
      eapply remove_at_incl. eassumption.
  - split; [apply check_X_y_aligned; assumption|].
    split; [apply incl_refl|]. intros r c Hr Hc. exists r. split; assumption.
  - assumption.
  - assumption.
  - exists fuel', th0, Xn, yn, fin, th1. repeat (split; [assumption|]).
    split; [intros X0 HX0; rewrite HX in HX0; injection HX0 as <-; assumption|].
    split; [assumption|].
    destruct Hpar as [(Hk & -> & -> & _) | (Hk & p & Xp & Hp & _ & Hi & _)].
    + left. repeat split; assumption.
    + right. split; [assumption|]. exists p. split; assumption.
Qed.

(* ================================================================= *)
(** ** The labels of the leaves *)

Lemma np_unique_pure y uy c :
  y <> [] -> (forall v, In v y -> v = c) -> np_unique y = Ok uy -> uy = [c].
Proof.
  intros Hne Hall Hu.
  pose proof (np_unique_NoDup _ _ Hu) as Hnd.
  assert (Hin : forall v, In v uy -> v = c).
  { intros v Hv. apply Hall. apply (proj1 (np_unique_In _ _ v Hu)). assumption. }
  destruct uy as [|a [|b uy]].
  - destruct y as [|v y]; [contradiction Hne; reflexivity|].
    assert (Hv : In v []) by (apply (proj2 (np_unique_In _ _ v Hu)); left; reflexivity).
    destruct Hv.
  - f_equal. apply Hin. left. reflexivity.
  - exfalso. assert (a = b).
    { rewrite (Hin a), (Hin b); [reflexivity | right; left | left]; reflexivity. }
    subst b. inversion Hnd as [|? ? Hn _]; subst. apply Hn. left. reflexivity.
Qed.

(** The root of a fitted tree has no parent. *)
Lemma fit_root_parent log2 self input y est tree :
  fit log2 self input y = Ok est -> tree_ est = Some tree -> parent tree = None.
Proof.
  intros Hfit Ht. apply fit_call in Hfit.
  destruct Hfit as (X & tree' & th & _ & _ & _ & _ & _ & _ & _ & Ht' & Hb).
  rewrite Ht in Ht'. injection Ht' as <-.
  apply tree_builder_fields in Hb. tauto.
Qed.

(** The rule a leaf of a fitted tree was made by: on pure targets, or on
    another rule, it is labelled by the mode of its own targets; on an array
    without any cell, below the root, by the mode of the targets of its
    parent. *)
Lemma fit_leaf_rule log2 self input y est tree k n :
  fit log2 self input y = Ok est ->
  tree_ est = Some tree ->
  at_depth tree k n ->
  is_leaf n = true ->
  incl (target n) y /\
  exists uy,
    np_unique (target n) = Ok uy /\
    ((length uy = 1 /\ mode (target n) = Ok (feature n))
     \/ (length uy <> 1 /\ 0 < k /\
         exists p, parent n = Some p /\ incl (target p) y /\
                   mode (target p) = Ok (feature n))
     \/ (length uy <> 1 /\ mode (target n) = Ok (feature n))).
Proof.
  intros Hfit Ht Hat Hleaf.
  destruct (fit_nodes_calls _ _ _ _ _ _ _ _ Hfit Ht Hat)
    as (fuel & th0 & Xn & yn & fin & th1 & Hlen & Hincl & _ & Hn & Hpar).
  assert (Hlevels : forall i l,
            dict_get Nat.eq_dec i (unique_levels_ est) = Some l -> l <> []).
  { intros i l Hl. eapply fit_levels; eassumption. }
  destruct (tree_builder_leaf _ _ _ _ _ _ _ _ _ _ _ _ Hlevels Hn Hleaf)
    as (uy & m & Huy & Hinit & Hcases).
  apply DecisionNode_init_fields in Hinit.
  destruct Hinit as (Hf & _ & _ & _ & _ & _ & Htg & _).
  rewrite Hf, Htg. split; [assumption|]. exists uy. split; [assumption|].
  destruct Hcases as [(Hl & Hm) | [(Hl & _ & p & Hp & Hm) | (Hl & _ & Hm & _)]].
  - left. split; assumption.
  - right. left. split; [assumption|].
    destruct Hpar as [(-> & _) | (Hk & p' & Hp' & Hip)].
    + inversion Hat; subst.
      rewrite (fit_root_parent _ _ _ _ _ _ Hfit Ht) in Hp. discriminate.
    + split; [assumption|].
      exists p. rewrite Hp in Hp'. injection Hp' as <-. repeat split; assumption.
  - right. right. split; assumption.
Qed.

(** X1. In a tree produced by [fit], the label of a leaf is the mode of
    its own target slice or the mode of the target slice of its parent; it
    is one of the classes of the training targets. The label of the root,
    when the root is a leaf, and the label of a leaf whose targets are all
    the same class are the mode of the leaf's own targets. *)
Theorem leaf_label_is_a_mode :
  forall (log2 : Q -> Q) self input y est tree k n,
    fit log2 self input y = Ok est ->
    tree_ est = Some tree ->
    at_depth tree k n ->
    is_leaf n = true ->
    In (feature n) y /\
    In (feature n) (classes_ est) /\
    (mode (target n) = Ok (feature n)
     \/ exists p, parent n = Some p /\ mode (target p) = Ok (feature n)) /\
    (k = 0 -> mode (target n) = Ok (feature n)) /\
    (forall c, target n <> [] -> (forall v, In v (target n) -> v = c) ->
               feature n = c).
Proof.
  intros log2 self input y est tree k n Hfit Ht Hat Hleaf.
  destruct (fit_leaf_rule _ _ _ _ _ _ _ _ Hfit Ht Hat Hleaf)
    as (Hincl & uy & Huy & Hcases).
  assert (Hy : In (feature n) y).
  { destruct Hcases as [(_ & Hm) | [(_ & _ & p & _ & Hip & Hm) | (_ & Hm)]];
      apply mode_most_common in Hm; destruct Hm as [Hm _]; auto. }
  split; [assumption|]. split; [|split; [|split]].
  - apply fit_call in Hfit.
    destruct Hfit as (X & tree' & th & _ & _ & Hu & _).
    apply (proj2 (np_unique_In _ _ _ Hu)). assumption.
  - destruct Hcases as [(_ & Hm) | [(_ & _ & p & Hp & _ & Hm) | (_ & Hm)]];
      [left | right; exists p | left]; auto.
  - intros ->.
    destruct Hcases as [(_ & Hm) | [(_ & Hk & _) | (_ & Hm)]];
      [assumption | lia | assumption].
  - intros c Hne Hall.
    pose proof (np_unique_pure _ _ _ Hne Hall Huy) as ->.
    destruct Hcases as [(_ & Hm) | [(Hl & _) | (Hl & _)]];
      [|contradiction Hl; reflexivity..].
    apply Hall. apply mode_most_common in Hm. tauto.
Qed.

(** Witness for X1: the leaf under [A] of the end-to-end scenario. *)
Lemma leaf_label_is_a_mode_witness :
  fit log2_pow2 clf_depth1 (NdArray X_cat) y_cat = Ok fitted_cat /\
  tree_ fitted_cat = Some tree_cat /\
  at_depth tree_cat 1 leaf_cat_A /\
  is_leaf leaf_cat_A = true /\
  In (feature leaf_cat_A) y_cat /\
  In (feature leaf_cat_A) (classes_ fitted_cat) /\
  (mode (target leaf_cat_A) = Ok (feature leaf_cat_A)
   \/ exists p, parent leaf_cat_A = Some p /\
                mode (target p) = Ok (feature leaf_cat_A)) /\
  (1 = 0 -> mode (target leaf_cat_A) = Ok (feature leaf_cat_A)) /\
  (forall c, target leaf_cat_A <> [] ->
             (forall v, In v (target leaf_cat_A) -> v = c) ->
             feature leaf_cat_A = c).
Proof.
  assert (Hfit : fit log2_pow2 clf_depth1 (NdArray X_cat) y_cat = Ok fitted_cat)
    by (vm_compute; reflexivity).
  assert (Ht : tree_ fitted_cat = Some tree_cat) by (vm_compute; reflexivity).
  assert (Hat : at_depth tree_cat 1 leaf_cat_A).
  { apply at_depth_child with (n := tree_cat) (b := Str "A");
      [apply at_depth_root | vm_compute; left; reflexivity]. }
  assert (Hleaf : is_leaf leaf_cat_A = true) by (vm_compute; reflexivity).
  split; [exact Hfit|]. split; [exact Ht|]. split; [exact Hat|].
  split; [exact Hleaf|].
  exact (leaf_label_is_a_mode log2_pow2 clf_depth1 (NdArray X_cat) y_cat
           fitted_cat tree_cat 1 leaf_cat_A Hfit Ht Hat Hleaf).
Defined.

(* ================================================================= *)
(** ** What [predict] returns *)

(** X2. The labels [predict] returns for the rows of a query are as many as
    the rows, and each of them is a class of the training targets: no
    label is made up. *)
Theorem predictions_are_training_classes :
  forall (log2 : Q -> Q) self input y est Xq preds,
    fit log2 self input y = Ok est ->
    predict est Xq = Ok preds ->
    length preds = length Xq /\
    Forall (fun c => In c y /\ In c (classes_ est)) preds.
Proof.
  intros log2 self input y est Xq preds Hfit Hp.
  destruct (predict_Ok _ _ _ Hp) as (tree & paths & Htree & _ & Hpaths & ->).
  split.
  - rewrite length_map. eapply mapM_length. eassumption.
  - apply Forall_forall. intros c Hc. apply in_map_iff in Hc.
    destruct Hc as (leaf & <- & Hleaf).
    destruct (mapM_In _ _ _ _ _ _ Hpaths Hleaf) as (x & _ & Hwalk).
    apply tree_walk_in_tree in Hwalk. destruct Hwalk as [[k Hat] Hl].
    destruct (fit_leaf_rule _ _ _ _ _ _ _ _ Hfit Htree Hat Hl)
      as (Hincl & uy & _ & Hcases).
    assert (Hy : In (feature leaf) y).
    { destruct Hcases as [(_ & Hm) | [(_ & _ & p & _ & Hip & Hm) | (_ & Hm)]];
        apply mode_most_common in Hm; destruct Hm as [Hm _]; auto. }
    split; [assumption|].
    apply fit_call in Hfit.
    destruct Hfit as (X & tree' & th & _ & _ & Hu & _).
    apply (proj2 (np_unique_In _ _ _ Hu)). assumption.
Qed.

(** Witness for X2: two queries on the end-to-end scenario. *)
Lemma predictions_are_training_classes_witness :
  fit log2_pow2 clf_depth1 (NdArray X_cat) y_cat = Ok fitted_cat /\
  predict fitted_cat [[Str "B"]; [Str "A"]] = Ok [Str "no"; Str "yes"] /\
  length [Str "no"; Str "yes"] = length [[Str "B"]; [Str "A"]] /\
  Forall (fun c => In c y_cat /\ In c (classes_ fitted_cat))
         [Str "no"; Str "yes"].
Proof.
  assert (Hfit : fit log2_pow2 clf_depth1 (NdArray X_cat) y_cat = Ok fitted_cat)
    by (vm_compute; reflexivity).
  assert (Hp : predict fitted_cat [[Str "B"]; [Str "A"]]
               = Ok [Str "no"; Str "yes"]) by (vm_compute; reflexivity).
  split; [exact Hfit|]. split; [exact Hp|].
  exact (predictions_are_training_classes log2_pow2 clf_depth1 (NdArray X_cat)
           y_cat fitted_cat [[Str "B"]; [Str "A"]] [Str "no"; Str "yes"]
           Hfit Hp).
Defined.

(** ** The stopping rules, read on the internal nodes *)

(** X3. An internal node of a tree produced by [fit] passed every stopping
    rule: its target slice holds at least two distinct classes and at
    least [min_samples_split] instances, and its depth is below
    [max_depth]. *)
Theorem internal_nodes_pass_stopping_rules :
  forall (log2 : Q -> Q) self input y est tree k n,
    fit log2 self input y = Ok est ->
    tree_ est = Some tree ->
    at_depth tree k n ->
    is_leaf n = false ->
    (exists uy, np_unique (target n) = Ok uy /\ 2 <= length uy) /\
    min_samples_split self <= n_samples n /\
    1 <= n_samples n /\
    (forall m, max_depth self = Some m -> k < m).
Proof.
  intros log2 self input y est tree k n Hfit Ht Hat Hleaf.
  destruct (fit_nodes_calls _ _ _ _ _ _ _ _ Hfit Ht Hat)
    as (fuel & th0 & Xn & yn & fin & th1 & Hlen & Hincl & _ & Hn & _).
  pose proof (tree_builder_fields _ _ _ _ _ _ _ _ _ _ _ _ Hn)
    as (_ & _ & _ & Htg & _ & Hns & _).
  destruct (tree_builder_split _ _ _ _ _ _ _ _ _ _ _ _ Hn Hleaf)
    as (uy & gains & th2 & idx & norm & name & s0 & col & s1 & levels &
        subtrees & fi' & Huy & Hpure & Hsize & _ & Hmax & Hmin & _).
  pose proof (size_nonzero_rows _ Hsize) as Hrows.
  destruct (fit_call _ _ _ _ _ Hfit)
    as (X & tree' & th & _ & _ & _ & _ & Hmd & Hms & _).
  rewrite Htg, Hns, <- Hlen.
  split; [|split; [|split]].
  - exists uy. split; [assumption|].
    destruct uy as [|a [|b uy]]; simpl in *; try lia.
    destruct yn as [|v yn]; [simpl in Hlen; lia|].
    assert (Hv : In v []) by (apply (proj2 (np_unique_In _ _ v Huy)); left; reflexivity).
    destruct Hv.
  - rewrite <- Hms. assumption.
  - lia.
  - intros m Hm. rewrite <- Hmd in Hm. specialize (Hmax m Hm).
    destruct (fit_built _ _ _ _ _ _ Hfit Ht) as [_ Hb].
    pose proof (built_at_depth _ _ _ _ Hat _ Hb) as Hbn. simpl in Hbn.
    inversion Hbn as [? ? _ Hk _ _ _]; subst.
    specialize (Hk m Hm). lia.
Qed.

(** Witness for X3: the root of the end-to-end scenario. *)
Lemma internal_nodes_pass_stopping_rules_witness :
  fit log2_pow2 clf_depth1 (NdArray X_cat) y_cat = Ok fitted_cat /\
  tree_ fitted_cat = Some tree_cat /\
  at_depth tree_cat 0 tree_cat /\
  is_leaf tree_cat = false /\
  (exists uy, np_unique (target tree_cat) = Ok uy /\ 2 <= length uy) /\
  min_samples_split clf_depth1 <= n_samples tree_cat /\
  1 <= n_samples tree_cat /\
  (forall m, max_depth clf_depth1 = Some m -> 0 < m).
Proof.
  assert (Hfit : fit log2_pow2 clf_depth1 (NdArray X_cat) y_cat = Ok fitted_cat)
    by (vm_compute; reflexivity).
  assert (Ht : tree_ fitted_cat = Some tree_cat) by (vm_compute; reflexivity).
  assert (Hleaf : is_leaf tree_cat = false) by (vm_compute; reflexivity).
  split; [exact Hfit|]. split; [exact Ht|]. split; [apply at_depth_root|].
  split; [exact Hleaf|].
  exact (internal_nodes_pass_stopping_rules log2_pow2 clf_depth1
           (NdArray X_cat) y_cat fitted_cat tree_cat 0 tree_cat Hfit Ht
           (at_depth_root tree_cat) Hleaf).
Defined.

(* ================================================================= *)
(** ** The internal nodes of a fitted tree and their children *)

Lemma set_children_attach_all s1 kids l :
  set_children (attach_all s1 kids) l = set_children s1 l.
Proof.
  rewrite attach_all_set_children. reflexivity.
Qed.

Lemma NoDup_app_l (A : Type) (l1 l2 : list A) : NoDup (l1 ++ l2) -> NoDup l1.
Proof.
  induction l1 as [|a l1 IH]; simpl; intros H.
  - constructor.
  - inversion H as [|? ? Hn Hd]; subst. constructor.
    + intros Hin. apply Hn. apply in_or_app. left. assumption.
    + apply IH. assumption.
Qed.

(** An internal node of a fitted tree, with the call of the builder that
    made it: the partition of the call, the column it split, the triples
    of the split, and for each child, in the order of the triples, the
    recursive call that returned it. The parent handed to that call is the
    node with the children attached so far. *)
Lemma fit_internal_node log2 self input y est tree k n :
  fit log2 self input y = Ok est ->
  tree_ est = Some tree ->
  at_depth tree k n ->
  is_leaf n = false ->
  exists fuel Xn yn idx col name s0 s1 subtrees fi',
    length Xn = length yn /\ incl yn y /\ size Xn <> 0 /\
    (forall X, input_array input = Some X ->
       forall r c, In r Xn -> In c r -> exists r0, In r0 X /\ In c r0) /\
    (k = 0 -> input_array input = Some Xn /\ yn = y) /\
    DecisionNode_init (Str name) (branch n) (parent n) yn (classes_ est) = Ok s0 /\
    idx < shape1 Xn /\ column idx Xn = Ok col /\
    In name (feature_names_ est) /\
    ((exists t mask,
        is_numeric_dtype col = true /\
        s1 = set_threshold s0 t /\
        mapM (fun v => py_lt v t) col = Ok mask /\
        select mask Xn <> [] /\ select (invert mask) Xn <> [] /\
        subtrees = numerical_parts Xn yn mask)
     \/ (exists levels,
           is_numeric_dtype col = false /\
           s1 = s0 /\
           dict_get Nat.eq_dec idx (unique_levels_ est) = Some levels /\
           subtrees = map (categorical_part Xn yn col idx) levels)) /\
    n = attach_all s1 (children n) /\
    NoDup (map fst (children n)) /\
    map fst (children n) = map snd subtrees /\
    forall l1 b c l2, children n = l1 ++ (b, c) :: l2 ->
      exists Xs ys th0 th1,
        nth_error subtrees (length l1) = Some (Xs, ys, b) /\
        _tree_builder log2 fuel est th0 Xs ys fi' (Some (set_children n l1))
          (Some b) (k + 1) = Ok (c, th1).
Proof.
  intros Hfit Ht Hat Hleaf.
  destruct (fit_nodes_calls _ _ _ _ _ _ _ _ Hfit Ht Hat)
    as (fuel & th0 & Xn & yn & fin & th1 & Hlen & Hincl & Hcells & Hn & Hroot).
  destruct (tree_builder_split _ _ _ _ _ _ _ _ _ _ _ _ Hn Hleaf)
    as (uy & gains & th2 & idx & norm & name & s0 & col & s1 & levels &
        subtrees & fi' & _ & _ & Hsize & _ & _ & _ & _ & _ & Hidx & _ & Hname &
        Hs0 & Hcol & Hlev & Hcases & Hloop).
  apply attach_subtrees_kids in Hloop. destruct Hloop as (kids & Hnk & Hkeys & Hkids).
  pose proof (DecisionNode_init_fields _ _ _ _ _ _ Hs0) as Hf0.
  assert (Hch1 : children s1 = []).
  { destruct Hcases as [(t & mask & _ & _ & -> & _) | (_ & -> & _)]; simpl; tauto. }
  assert (Hnd : NoDup (map snd subtrees)).
  { destruct Hcases as [(t & mask & _ & _ & _ & _ & _ & _ & -> & _) | (_ & _ & -> & _)].
    - simpl. repeat constructor; simpl; intuition discriminate.
    - rewrite map_map. simpl. rewrite map_id.
      eapply fit_levels; eassumption. }
  assert (Hch : children n = kids).
  { rewrite Hnk, attach_all_children; rewrite Hch1; [reflexivity|].
    simpl. rewrite Hkeys. assumption. }
  exists fuel, Xn, yn, idx, col, name, s0, s1, subtrees, fi'.
  split; [assumption|]. split; [assumption|]. split; [assumption|].
  split; [assumption|].
  split. { intros ->. destruct Hroot as [(_ & HX & Hy) | (Hk & _)]; [tauto | lia]. }
  split; [assumption|]. split; [assumption|]. split; [assumption|].
  split; [eapply nth_error_In; eassumption|].
  split.
  { destruct Hcases as [(t & mask & Hnum & _ & Hs1 & Hmask & Hne1 & Hne2 & Hsub & _)
                       | (Hnum & Hs1 & Hsub & _)].
    - left. exists t, mask. repeat split; assumption.
    - right. exists levels. repeat split; assumption. }
  rewrite Hch. split; [assumption|].
  split; [rewrite Hkeys; assumption|]. split; [assumption|].
  intros l1 b c l2 Hsplit.
  destruct (Hkids _ _ _ _ Hsplit) as (Xs & ys & th3 & th4 & Hnth & Hc).
  exists Xs, ys, th3, th4. split; [assumption|].
  replace (set_children n l1) with (attach_all s1 l1).
  - exact Hc.
  - rewrite Hnk, set_children_attach_all.
    rewrite attach_all_set_children. f_equal.
    rewrite attach_all_children; rewrite Hch1; [reflexivity|].
    simpl. rewrite <- Hkeys, Hsplit, map_app in Hnd.
    eapply NoDup_app_l. eassumption.
Qed.

(* ================================================================= *)
(** ** The two sides of a numerical split *)

Lemma select_perm (A : Type) (mask : list bool) (a : list A) :
  length mask = length a ->
  Permutation (select mask a ++ select (invert mask) a) a.
Proof.
  unfold select, invert. revert a.
  induction mask as [|m mask IH]; intros [|x a] Hlen; try discriminate.
  - constructor.
  - injection Hlen as Hlen. specialize (IH a Hlen).
    destruct m; simpl.
    + constructor. assumption.
    + eapply Permutation_trans; [apply Permutation_sym, Permutation_middle|].
      constructor. assumption.
Qed.

Lemma select_nonempty (A B : Type) (mask : list bool) (a : list A) (b : list B) :
  length a = length b -> select mask a <> [] -> 0 < length (select mask b).
Proof.
  intros Hlen Hne. rewrite <- (select_length _ _ mask a b Hlen).
  destruct (select mask a); [contradiction Hne; reflexivity | simpl; lia].
Qed.

(** A threshold that was compared with a numerical column is a number. *)
Lemma compared_threshold_is_num col t mask :
  col <> [] -> is_numeric_dtype col = true ->
  mapM (fun v => py_lt v t) col = Ok mask -> exists q, t = Num q.
Proof.
  destruct col as [|[a|s] col]; [intros H; contradiction H; reflexivity | | ];
    intros _ Hnum H; simpl in Hnum; [|discriminate].
  simpl in H. apply bind_Ok in H. destruct H as [b [Hb _]].
  destruct t as [q|s]; [eauto | discriminate].
Qed.

(** A node of a fitted tree that holds a threshold was split on a
    numerical column: the threshold is a number, the children are the two
    sides of the split, neither of them empty. *)
Lemma fit_threshold_node log2 self input y est tree k n t :
  fit log2 self input y = Ok est ->
  tree_ est = Some tree ->
  at_depth tree k n ->
  threshold n = Some t ->
  exists q cT cF mask,
    t = Num q /\
    children n = [(Str "True", cT); (Str "False", cF)] /\
    length mask = length (target n) /\
    target cT = select mask (target n) /\
    target cF = select (invert mask) (target n) /\
    n_samples cT = length (target cT) /\ n_samples cF = length (target cF) /\
    n_samples n = length (target n) /\
    0 < n_samples cT /\ 0 < n_samples cF.
Proof.
  intros Hfit Ht Hat Hthr.
  assert (Hleaf : is_leaf n = false).
  { destruct (is_leaf n) eqn:Hl; [|reflexivity].
    destruct (fit_nodes_calls _ _ _ _ _ _ _ _ Hfit Ht Hat)
      as (fuel & th0 & Xn & yn & fin & th1 & _ & _ & _ & Hn & _).
    apply tree_builder_leaf in Hn;
      [|intros i l Hget; eapply fit_levels; eassumption | assumption].
    destruct Hn as (uy & m & _ & Hinit & _).
    apply init_threshold in Hinit. congruence. }
  destruct (fit_internal_node _ _ _ _ _ _ _ _ Hfit Ht Hat Hleaf)
    as (fuel & Xn & yn & idx & col & name & s0 & s1 & subtrees & fi' &
        Hlen & _ & Hsize & _ & _ & Hs0 & _ & Hcol & _ & Hcases & Hn & _ & Hkeys & Hkids).
  pose proof (DecisionNode_init_fields _ _ _ _ _ _ Hs0)
    as (_ & Hthr0 & _ & _ & _ & _ & Htg0 & _ & Hns0 & _).
  assert (Hfields : threshold n = threshold s1 /\ target n = target s1 /\
                    n_samples n = n_samples s1).
  { rewrite Hn, attach_all_set_children. repeat split. }
  destruct Hfields as (Ht1 & Htg1 & Hns1).
  destruct Hcases as [(t' & mask & Hnum & -> & Hmask & Hne1 & Hne2 & ->)
                     | (levels & _ & -> & _)];
    [|congruence].
  simpl in Ht1, Htg1, Hns1.
  assert (t' = t) by congruence. subst t'.
  assert (Hlm : length mask = length yn).
  { apply mapM_length in Hmask. apply mapM_length in Hcol. congruence. }
  unfold numerical_parts in Hkeys. cbn [map snd] in Hkeys.
  destruct (children n) as [|[b1 c1] [|[b2 c2] [|kc rest]]] eqn:Hch;
    cbn [map fst] in Hkeys; [discriminate Hkeys | discriminate Hkeys | | discriminate Hkeys].
  injection Hkeys as -> ->.
  destruct (Hkids [] _ _ _ eq_refl) as (Xs1 & ys1 & th3 & th4 & Hnth1 & Hc1).
  destruct (Hkids [(Str "True", c1)] _ _ _ eq_refl)
    as (Xs2 & ys2 & th5 & th6 & Hnth2 & Hc2).
  simpl in Hnth1, Hnth2. injection Hnth1 as <- <-. injection Hnth2 as <- <-.
  apply tree_builder_fields in Hc1, Hc2.
  destruct Hc1 as (_ & _ & _ & Htc1 & _ & Hnc1 & _).
  destruct Hc2 as (_ & _ & _ & Htc2 & _ & Hnc2 & _).
  assert (Hcolne : col <> []).
  { apply mapM_length in Hcol. apply size_nonzero_rows in Hsize.
    destruct col; [simpl in Hcol; lia | discriminate]. }
  destruct (compared_threshold_is_num _ _ _ Hcolne Hnum Hmask) as [q ->].
  exists q, c1, c2, mask. split; [reflexivity|]. split; [reflexivity|].
  rewrite Hnc1, Hnc2, Htc1, Htc2, Hns1, Htg1, Hns0, Htg0.
  repeat (split; [solve [assumption | reflexivity]|]).
  split; [exact (select_nonempty _ _ mask Xn yn Hlen Hne1)|].
  exact (select_nonempty _ _ (invert mask) Xn yn Hlen Hne2).
Qed.

(** X4. A node of a fitted tree that holds a threshold holds a number, and
    has exactly two children, under ["True"] and ["False"] in this order;
    neither is without instances, and their target slices together are the
    target slice of the node: a numerical split loses no instance and makes
    none up. *)
Theorem threshold_node_has_two_nonempty_sides :
  forall (log2 : Q -> Q) self input y est tree k n t,
    fit log2 self input y = Ok est ->
    tree_ est = Some tree ->
    at_depth tree k n ->
    threshold n = Some t ->
    exists q cT cF,
      t = Num q /\
      children n = [(Str "True", cT); (Str "False", cF)] /\
      0 < n_samples cT /\ 0 < n_samples cF /\
      n_samples cT + n_samples cF = n_samples n /\
      Permutation (target cT ++ target cF) (target n).
Proof.
  intros log2 self input y est tree k n t Hfit Ht Hat Hthr.
  destruct (fit_threshold_node _ _ _ _ _ _ _ _ _ Hfit Ht Hat Hthr)
    as (q & cT & cF & mask & Hq & Hch & Hlm & HtT & HtF & HnT & HnF & Hn & HpT & HpF).
  exists q, cT, cF. repeat (split; [assumption|]). split.
  - rewrite HnT, HnF, Hn, HtT, HtF. apply select_split_length. assumption.
  - rewrite HtT, HtF. apply select_perm. assumption.
Qed.

(** Witness for X4: the root of the tree fitted on [X_two]. *)
Lemma threshold_node_has_two_nonempty_sides_witness :
  fit log2_pow2 clf (NdArray X_two) y_two = Ok fitted_two /\
  tree_ fitted_two = Some tree_two /\
  at_depth tree_two 0 tree_two /\
  threshold tree_two = Some (num 2) /\
  exists q cT cF,
    num 2 = Num q /\
    children tree_two = [(Str "True", cT); (Str "False", cF)] /\
    0 < n_samples cT /\ 0 < n_samples cF /\
    n_samples cT + n_samples cF = n_samples tree_two /\
    Permutation (target cT ++ target cF) (target tree_two).
Proof.
  assert (Hfit : fit log2_pow2 clf (NdArray X_two) y_two = Ok fitted_two)
    by (vm_compute; reflexivity).
  assert (Ht : tree_ fitted_two = Some tree_two) by (vm_compute; reflexivity).
  assert (Hthr : threshold tree_two = Some (num 2)) by (vm_compute; reflexivity).
  split; [exact Hfit|]. split; [exact Ht|]. split; [apply at_depth_root|].
  split; [exact Hthr|].
  exact (threshold_node_has_two_nonempty_sides log2_pow2 clf (NdArray X_two)
           y_two fitted_two tree_two 0 tree_two (num 2) Hfit Ht
           (at_depth_root tree_two) Hthr).
Defined.

(** ** The copy of the parent a child holds *)

(** X5. In a fitted tree every child records the label of its edge in
    [branch], and its [parent] is the copy of the parent node taken when
    the child was made: the parent with the children attached before this
    one, and none of those attached after it. *)
Theorem child_holds_earlier_copy_of_parent :
  forall (log2 : Q -> Q) self input y est tree k n l1 b c l2,
    fit log2 self input y = Ok est ->
    tree_ est = Some tree ->
    at_depth tree k n ->
    children n = l1 ++ (b, c) :: l2 ->
    branch c = Some b /\
    parent c = Some (set_children n l1) /\
    ~ In b (map fst l1) /\ ~ In b (map fst l2).
Proof.
  intros log2 self input y est tree k n l1 b c l2 Hfit Ht Hat Hsplit.
  assert (Hleaf : is_leaf n = false).
  { unfold is_leaf. rewrite Hsplit. destruct l1; reflexivity. }
  destruct (fit_internal_node _ _ _ _ _ _ _ _ Hfit Ht Hat Hleaf)
    as (fuel & Xn & yn & idx & col & name & s0 & s1 & subtrees & fi' &
        _ & _ & _ & _ & _ & _ & _ & _ & _ & _ & _ & Hnd & _ & Hkids).
  destruct (Hkids _ _ _ _ Hsplit) as (Xs & ys & th0 & th1 & _ & Hc).
  apply tree_builder_fields in Hc. destruct Hc as (Hb & _ & Hp & _).
  split; [assumption|]. split; [assumption|].
  rewrite Hsplit, map_app in Hnd. simpl in Hnd.
  split.
  - intros Hin. apply NoDup_remove_2 in Hnd. apply Hnd. apply in_or_app.
    left. assumption.
  - intros Hin. apply NoDup_remove_2 in Hnd. apply Hnd. apply in_or_app.
    right. assumption.
Qed.

(** Witness for X5: the second child of the root of the end-to-end
    scenario, whose parent holds the first child only. *)
Lemma child_holds_earlier_copy_of_parent_witness :
  fit log2_pow2 clf_depth1 (NdArray X_cat) y_cat = Ok fitted_cat /\
  tree_ fitted_cat = Some tree_cat /\
  at_depth tree_cat 0 tree_cat /\
  children tree_cat = [(Str "A", leaf_cat_A)] ++ (Str "B", leaf_cat_B) :: [] /\
  branch leaf_cat_B = Some (Str "B") /\
  parent leaf_cat_B = Some (set_children tree_cat [(Str "A", leaf_cat_A)]) /\
  ~ In (Str "B") (map fst [(Str "A", leaf_cat_A)]) /\
  ~ In (Str "B") (map fst (@nil (cell * DecisionNode))).
Proof.
  assert (Hfit : fit log2_pow2 clf_depth1 (NdArray X_cat) y_cat = Ok fitted_cat)
    by (vm_compute; reflexivity).
  assert (Ht : tree_ fitted_cat = Some tree_cat) by (vm_compute; reflexivity).
  assert (Hch : children tree_cat
                = [(Str "A", leaf_cat_A)] ++ (Str "B", leaf_cat_B) :: [])
    by (vm_compute; reflexivity).
  split; [exact Hfit|]. split; [exact Ht|]. split; [apply at_depth_root|].
  split; [exact Hch|].
  exact (child_holds_earlier_copy_of_parent log2_pow2 clf_depth1
           (NdArray X_cat) y_cat fitted_cat tree_cat 0 tree_cat
           [(Str "A", leaf_cat_A)] (Str "B") leaf_cat_B [] Hfit Ht
           (at_depth_root tree_cat) Hch).
Defined.

(* ================================================================= *)
(** ** Queries at a threshold node *)

Lemma predict_row_fails self tree pre x rest e oks :
  tree_ self = Some tree ->
  check_array (pre ++ x :: rest) = Ok tt ->
  mapM (fun x => tree_walk (feature_names_ self) x tree) pre = Ok oks ->
  tree_walk (feature_names_ self) x tree = Err e ->
  predict self (pre ++ x :: rest) = Err e.
Proof.
  intros Ht Hchk Hpre Hwalk. rewrite (predict_valid _ _ _ Ht Hchk). clear Hchk.
  assert (Hm : mapM (fun x => tree_walk (feature_names_ self) x tree)
                 (pre ++ x :: rest) = Err e).
  { revert oks Hpre. induction pre as [|p pre IH]; simpl; intros oks Hpre.
    - rewrite Hwalk. reflexivity.
    - apply bind_Ok in Hpre. destruct Hpre as [a [Ha Hpre]]. rewrite Ha. cbn [bind].
      apply bind_Ok in Hpre. destruct Hpre as [bs [Hbs _]].
      rewrite (IH _ Hbs). reflexivity. }
  rewrite Hm. reflexivity.
Qed.

(** X6. At a threshold node of a fitted tree a numerical query value always
    finds a child, the one under ["False"] when it is at most the
    threshold and the one under ["True"] otherwise; a string raises
    [TypeError], and so does the prediction for a valid query with a row
    whose walk reaches the node with a string for its feature. *)
Theorem threshold_node_queries :
  forall (log2 : Q -> Q) self input y est tree k n t,
    fit log2 self input y = Ok est ->
    tree_ est = Some tree ->
    at_depth tree k n ->
    threshold n = Some t ->
    exists q cT cF,
      t = Num q /\
      children n = [(Str "True", cT); (Str "False", cF)] /\
      (forall v, __getitem__ n (Num v) = Ok (if Qc_leb v q then cF else cT)) /\
      (forall s, __getitem__ n (Str s) = Err TypeError) /\
      (forall pre oks x rest feature_idx s,
         check_array (pre ++ x :: rest) = Ok tt ->
         mapM (fun x => tree_walk (feature_names_ est) x tree) pre = Ok oks ->
         walk_reaches (feature_names_ est) x tree n ->
         index_of (feature n) (feature_names_ est) = Ok feature_idx ->
         nth_error x feature_idx = Some (Str s) ->
         predict est (pre ++ x :: rest) = Err TypeError).
Proof.
  intros log2 self input y est tree k n t Hfit Ht Hat Hthr.
  destruct (fit_threshold_node _ _ _ _ _ _ _ _ _ Hfit Ht Hat Hthr)
    as (q & cT & cF & mask & -> & Hch & _).
  assert (Hstr : forall s, __getitem__ n (Str s) = Err TypeError).
  { intros s. unfold __getitem__. rewrite Hthr. reflexivity. }
  exists q, cT, cF. split; [reflexivity|]. split; [assumption|]. split; [|split].
  - intros v. unfold __getitem__. rewrite Hthr, Hch. cbn [branch_for py_le bind].
    destruct (Qc_leb v q); reflexivity.
  - exact Hstr.
  - intros pre oks x rest i s Hchk Hpre Hreach Hidx Hx.
    eapply predict_row_fails; [eassumption | eassumption | eassumption |].
    rewrite (walk_reaches_same _ _ _ _ Hreach), tree_walk_unfold.
    unfold is_leaf. rewrite Hch, Hidx. cbn [bind]. rewrite Hx. cbn [of_option bind].
    rewrite Hstr. reflexivity.
Qed.

(** Witness for X6: the root of the tree fitted on [X_two]. *)
Lemma threshold_node_queries_witness :
  fit log2_pow2 clf (NdArray X_two) y_two = Ok fitted_two /\
  tree_ fitted_two = Some tree_two /\
  at_depth tree_two 0 tree_two /\
  threshold tree_two = Some (num 2) /\
  exists q cT cF,
    num 2 = Num q /\
    children tree_two = [(Str "True", cT); (Str "False", cF)] /\
    (forall v, __getitem__ tree_two (Num v) = Ok (if Qc_leb v q then cF else cT)) /\
    (forall s, __getitem__ tree_two (Str s) = Err TypeError) /\
    (forall pre oks x rest feature_idx s,
       check_array (pre ++ x :: rest) = Ok tt ->
       mapM (fun x => tree_walk (feature_names_ fitted_two) x tree_two) pre
         = Ok oks ->
       walk_reaches (feature_names_ fitted_two) x tree_two tree_two ->
       index_of (feature tree_two) (feature_names_ fitted_two) = Ok feature_idx ->
       nth_error x feature_idx = Some (Str s) ->
       predict fitted_two (pre ++ x :: rest) = Err TypeError).
Proof.
  assert (Hfit : fit log2_pow2 clf (NdArray X_two) y_two = Ok fitted_two)
    by (vm_compute; reflexivity).
  assert (Ht : tree_ fitted_two = Some tree_two) by (vm_compute; reflexivity).
  assert (Hthr : threshold tree_two = Some (num 2)) by (vm_compute; reflexivity).
  split; [exact Hfit|]. split; [exact Ht|]. split; [apply at_depth_root|].
  split; [exact Hthr|].
  exact (threshold_node_queries log2_pow2 clf (NdArray X_two) y_two fitted_two
           tree_two 0 tree_two (num 2) Hfit Ht (at_depth_root tree_two) Hthr).
Defined.

(** ** Prediction on numerical data *)

Lemma index_of_In name names :
  In name names ->
  exists i, index_of (Str name) names = Ok i /\ i < length names.
Proof.
  induction names as [|s names IH]; cbn [index_of In length]; intros Hin;
    [destruct Hin|].
  destruct (cell_eq_dec (Str s) (Str name)) as [_|Hne].
  - exists 0. split; [reflexivity | lia].
  - destruct Hin as [->|Hin]; [contradiction Hne; reflexivity|].
    destruct (IH Hin) as (i & Hi & Hlt). rewrite Hi. exists (S i).
    split; [reflexivity | lia].
Qed.

Lemma column_cells idx X col c :
  column idx X = Ok col -> In c col -> exists r, In r X /\ In c r.
Proof.
  unfold column. intros H Hc.
  destruct (mapM_In _ _ _ _ _ _ H Hc) as (r & Hr & Hnth).
  apply of_option_Ok in Hnth. exists r. split; [assumption|].
  eapply nth_error_In. eassumption.
Qed.

(** On training data without any string, every internal node of the
    fitted tree holds a threshold. *)
Lemma numerical_data_thresholds log2 self input X y est tree k n :
  fit log2 self input y = Ok est ->
  tree_ est = Some tree ->
  input_array input = Some X ->
  Forall (fun r => forallb is_num r = true) X ->
  at_depth tree k n ->
  is_leaf n = false ->
  exists t name,
    threshold n = Some t /\ feature n = Str name /\ In name (feature_names_ est).
Proof.
  intros Hfit Ht HX Hnum Hat Hleaf.
  destruct (fit_internal_node _ _ _ _ _ _ _ _ Hfit Ht Hat Hleaf)
    as (fuel & Xn & yn & idx & col & name & s0 & s1 & subtrees & fi' &
        _ & _ & _ & Hcells & _ & Hs0 & _ & Hcol & Hname & Hcases & Hn & _).
  apply DecisionNode_init_fields in Hs0. destruct Hs0 as (Hf0 & _).
  assert (Hcn : is_numeric_dtype col = true).
  { unfold is_numeric_dtype. apply forallb_forall. intros c Hc.
    destruct (column_cells _ _ _ _ Hcol Hc) as (r & Hr & Hcr).
    destruct (Hcells X HX r c Hr Hcr) as (r0 & Hr0 & Hc0).
    rewrite Forall_forall in Hnum. specialize (Hnum r0 Hr0).
    rewrite forallb_forall in Hnum. apply Hnum. assumption. }
  destruct Hcases as [(t & mask & _ & -> & _) | (levels & Hcat & _)]; [|congruence].
  exists t, name. rewrite Hn, attach_all_set_children. simpl.
  repeat split; assumption.
Qed.

(** X7. An estimator fitted on training data without any string predicts
    every valid query made of numbers whose rows are at least as long as
    the list of feature names: no exception is raised, and there is one
    label per row. *)
Theorem predict_succeeds_on_numerical_data :
  forall (log2 : Q -> Q) self input X y est Xq,
    fit log2 self input y = Ok est ->
    input_array input = Some X ->
    Forall (fun r => forallb is_num r = true) X ->
    check_array Xq = Ok tt ->
    Forall (fun x => length (feature_names_ est) <= length x /\
                     forallb is_num x = true) Xq ->
    exists preds, predict est Xq = Ok preds /\ length preds = length Xq.
Proof.
  intros log2 self input X y est Xq Hfit HX Hnum Hchk Hq.
  destruct (fit_call _ _ _ _ _ Hfit)
    as (X' & tree & th & _ & _ & _ & _ & _ & _ & _ & Ht & _).
  assert (Hwalk : forall x,
            length (feature_names_ est) <= length x -> forallb is_num x = true ->
            forall n k, at_depth tree k n ->
              exists leaf, tree_walk (feature_names_ est) x n = Ok leaf).
  { intros x Hlen Hx n.
    induction n as [n IH] using DecisionNode_children_ind. intros k Hat.
    rewrite tree_walk_unfold. destruct (is_leaf n) eqn:Hleaf; [eauto|].
    destruct (numerical_data_thresholds _ _ _ _ _ _ _ _ _ Hfit Ht HX Hnum Hat Hleaf)
      as (t & name & Hthr & Hf & Hname).
    destruct (fit_threshold_node _ _ _ _ _ _ _ _ _ Hfit Ht Hat Hthr)
      as (q & cT & cF & mask & -> & Hch & _).
    rewrite Hf. destruct (index_of_In _ _ Hname) as (i & -> & Hi). cbn [bind].
    destruct (nth_error x i) as [v|] eqn:Hv;
      [|apply nth_error_None in Hv; lia].
    cbn [of_option bind].
    assert (Hvn : is_num v = true).
    { rewrite forallb_forall in Hx. apply Hx. eapply nth_error_In. eassumption. }
    destruct v as [v|s]; [|discriminate].
    assert (Hg : __getitem__ n (Num v) = Ok (if Qc_leb v q then cF else cT)).
    { unfold __getitem__. rewrite Hthr, Hch. cbn [branch_for py_le bind].
      destruct (Qc_leb v q); reflexivity. }
    rewrite Hg. cbn [bind].
    destruct (Qc_leb v q).
    - apply (IH (Str "False") cF) with (k := S k).
      + rewrite Hch. right. left. reflexivity.
      + eapply at_depth_child; [eassumption|]. rewrite Hch. right. left. reflexivity.
    - apply (IH (Str "True") cT) with (k := S k).
      + rewrite Hch. left. reflexivity.
      + eapply at_depth_child; [eassumption|]. rewrite Hch. left. reflexivity. }
  assert (Hpaths : exists paths,
            mapM (fun x => tree_walk (feature_names_ est) x tree) Xq = Ok paths).
  { clear Hchk. induction Hq as [|x Xq [Hlen Hx] _ IH]; simpl; [eauto|].
    destruct (Hwalk x Hlen Hx tree 0 (at_depth_root tree)) as [leaf ->].
    destruct IH as [paths ->]. simpl. eauto. }
  destruct Hpaths as [paths Hpaths].
  exists (map feature paths). split.
  - rewrite (predict_valid _ _ _ Ht Hchk), Hpaths. reflexivity.
  - rewrite length_map. eapply mapM_length. eassumption.
Qed.

(** Witness for X7: a query of two numerical rows on the tree fitted on
    [X_two]. *)
Lemma predict_succeeds_on_numerical_data_witness :
  fit log2_pow2 clf (NdArray X_two) y_two = Ok fitted_two /\
  input_array (NdArray X_two) = Some X_two /\
  Forall (fun r => forallb is_num r = true) X_two /\
  check_array [[num 1; num 3]; [num 5; num 7]] = Ok tt /\
  Forall (fun x => length (feature_names_ fitted_two) <= length x /\
                   forallb is_num x = true) [[num 1; num 3]; [num 5; num 7]] /\
  exists preds,
    predict fitted_two [[num 1; num 3]; [num 5; num 7]] = Ok preds /\
    length preds = length [[num 1; num 3]; [num 5; num 7]].
Proof.
  assert (Hfit : fit log2_pow2 clf (NdArray X_two) y_two = Ok fitted_two)
    by (vm_compute; reflexivity).
  assert (Hin : input_array (NdArray X_two) = Some X_two) by reflexivity.
  assert (HX : Forall (fun r => forallb is_num r = true) X_two)
    by (repeat constructor).
  assert (Hchk : check_array [[num 1; num 3]; [num 5; num 7]] = Ok tt)
    by reflexivity.
  assert (Hq : Forall (fun x => length (feature_names_ fitted_two) <= length x /\
                                forallb is_num x = true)
                      [[num 1; num 3]; [num 5; num 7]])
    by (repeat constructor).
  split; [exact Hfit|]. split; [exact Hin|]. split; [exact HX|].
  split; [exact Hchk|]. split; [exact Hq|].
  exact (predict_succeeds_on_numerical_data log2_pow2 clf (NdArray X_two) X_two
           y_two fitted_two [[num 1; num 3]; [num 5; num 7]] Hfit Hin HX Hchk
           Hq).
Defined.

(* ================================================================= *)
(** ** Trees that are a single leaf *)

Lemma predict_leaf self tree Xq :
  tree_ self = Some tree -> is_leaf tree = true ->
  check_array Xq = Ok tt ->
  predict self Xq = Ok (map (fun _ => feature tree) Xq).
Proof.
  intros Ht Hleaf Hchk. rewrite (predict_valid _ _ _ Ht Hchk). clear Hchk.
  assert (Hm : mapM (fun x => tree_walk (feature_names_ self) x tree) Xq
               = Ok (map (fun _ => tree) Xq)).
  { induction Xq as [|x Xq IH]; [reflexivity|].
    cbn [mapM map]. rewrite tree_walk_unfold, Hleaf. cbn [bind]. rewrite IH.
    reflexivity. }
  rewrite Hm. cbn [bind]. rewrite map_map. reflexivity.
Qed.

(** X8. When all the training targets are one class, the fitted tree is a
    single leaf labelled by that class, the class is the only one in
    [classes_], and every row of a valid query, whatever its content, is
    predicted that class. *)
Theorem pure_targets_give_a_single_leaf :
  forall (log2 : Q -> Q) self input y est c,
    fit log2 self input y = Ok est ->
    (forall v, In v y -> v = c) ->
    classes_ est = [c] /\
    exists tree,
      tree_ est = Some tree /\
      is_leaf tree = true /\
      feature tree = c /\
      target tree = y /\
      forall Xq, check_array Xq = Ok tt ->
                 predict est Xq = Ok (map (fun _ => c) Xq).
Proof.
  intros log2 self input y est c Hfit Hall.
  destruct (fit_call _ _ _ _ _ Hfit)
    as (X & tree & th & _ & Hchk & Hcl & _ & _ & _ & _ & Ht & Hb).
  assert (Hne : y <> []).
  { pose proof (check_X_y_aligned _ _ Hchk) as Hlen.
    apply check_X_y_rows in Hchk. unfold shape0 in Hchk.
    intros ->. simpl in Hlen. lia. }
  pose proof (np_unique_pure _ _ _ Hne Hall Hcl) as Hc.
  split; [assumption|]. exists tree.
  apply tree_builder_cases in Hb.
  destruct Hb as (uy & Huy & Hcases).
  rewrite Hcl in Huy. injection Huy as <-. rewrite Hc in Hcases.
  destruct Hcases as [(m & Hinit & [(_ & Hm) | [(Hl & _) | (Hl & _)]]) | H];
    try (contradiction Hl; reflexivity).
  - apply DecisionNode_init_fields in Hinit.
    destruct Hinit as (Hf & _ & _ & _ & _ & Hch & Htg & _).
    assert (Hleaf : is_leaf tree = true) by (unfold is_leaf; rewrite Hch; reflexivity).
    assert (Hmc : feature tree = c).
    { rewrite Hf. apply Hall. apply mode_most_common in Hm. tauto. }
    repeat (split; [assumption|]).
    intros Xq Hq. rewrite (predict_leaf _ _ Xq Ht Hleaf Hq), Hmc. reflexivity.
  - destruct H as (gains & th1 & idx & norm & name & s0 & col & s1 & levels &
                   subtrees & fi' & Hl & _).
    contradiction Hl. reflexivity.
Qed.

(** Witness for X8: [X_two] with the targets [y_pure]. *)
Lemma pure_targets_give_a_single_leaf_witness :
  fit log2_pow2 clf (NdArray X_two) y_pure = Ok fitted_pure /\
  (forall v, In v y_pure -> v = Str "a") /\
  classes_ fitted_pure = [Str "a"] /\
  exists tree,
    tree_ fitted_pure = Some tree /\
    is_leaf tree = true /\
    feature tree = Str "a" /\
    target tree = y_pure /\
    forall Xq, check_array Xq = Ok tt ->
               predict fitted_pure Xq = Ok (map (fun _ => Str "a") Xq).
Proof.
  assert (Hfit : fit log2_pow2 clf (NdArray X_two) y_pure = Ok fitted_pure)
    by (vm_compute; reflexivity).
  assert (Hall : forall v, In v y_pure -> v = Str "a").
  { intros v [<-|[<-|[]]]; reflexivity. }
  split; [exact Hfit|]. split; [exact Hall|].
  exact (pure_targets_give_a_single_leaf log2_pow2 clf (NdArray X_two) y_pure
           fitted_pure (Str "a") Hfit Hall).
Defined.

(** X9. With [max_depth = 0], or with fewer training instances than
    [min_samples_split], the fitted tree is a single leaf labelled by the
    mode of the training targets, a most common class, and every row of a
    valid query is predicted that class. *)
Theorem no_split_gives_the_majority_leaf :
  forall (log2 : Q -> Q) self input y est,
    fit log2 self input y = Ok est ->
    max_depth self = Some 0 \/ length y < min_samples_split self ->
    exists tree m,
      tree_ est = Some tree /\
      is_leaf tree = true /\
      feature tree = m /\
      mode y = Ok m /\
      (forall c, count c y <= count m y) /\
      forall Xq, check_array Xq = Ok tt ->
                 predict est Xq = Ok (map (fun _ => m) Xq).
Proof.
  intros log2 self input y est Hfit Hstop.
  destruct (fit_call _ _ _ _ _ Hfit)
    as (X & tree & th & _ & Hchk & _ & _ & Hmd & Hms & _ & Ht & Hb).
  pose proof (check_X_y_aligned _ _ Hchk) as Hlen.
  assert (Hleaf : is_leaf tree = true).
  { destruct (is_leaf tree) eqn:Hl; [reflexivity|].
    destruct (tree_builder_split _ _ _ _ _ _ _ _ _ _ _ _ Hb Hl)
      as (uy & gains & th1 & idx & norm & name & s0 & col & s1 & levels &
          subtrees & fi' & _ & _ & _ & _ & Hmax & Hmin & _).
    destruct Hstop as [Hs|Hs].
    - rewrite <- Hmd in Hs. specialize (Hmax _ Hs). contradiction Hmax. reflexivity.
    - rewrite <- Hms in Hs. lia. }
  destruct (fit_leaf_rule _ _ _ _ _ _ _ _ Hfit Ht (at_depth_root tree) Hleaf)
    as (_ & uy & _ & Hcases).
  pose proof (tree_builder_fields _ _ _ _ _ _ _ _ _ _ _ _ Hb)
    as (_ & _ & _ & Htg & _).
  rewrite Htg in Hcases.
  assert (Hm : mode y = Ok (feature tree)).
  { destruct Hcases as [(_ & Hm) | [(_ & Hk & _) | (_ & Hm)]];
      [assumption | lia | assumption]. }
  exists tree, (feature tree). repeat (split; [solve [assumption | reflexivity]|]).
  split.
  - apply mode_most_common in Hm. tauto.
  - intros Xq Hq. apply predict_leaf; assumption.
Qed.

(** Witness for X9: the end-to-end scenario with [max_depth = 0]. *)
Lemma no_split_gives_the_majority_leaf_witness :
  fit log2_pow2 clf_depth0 (NdArray X_cat) y_cat = Ok fitted_stump /\
  (max_depth clf_depth0 = Some 0 \/ length y_cat < min_samples_split clf_depth0) /\
  exists tree m,
    tree_ fitted_stump = Some tree /\
    is_leaf tree = true /\
    feature tree = m /\
    mode y_cat = Ok m /\
    (forall c, count c y_cat <= count m y_cat) /\
    forall Xq, check_array Xq = Ok tt ->
               predict fitted_stump Xq = Ok (map (fun _ => m) Xq).
Proof.
  assert (Hfit : fit log2_pow2 clf_depth0 (NdArray X_cat) y_cat = Ok fitted_stump)
    by (vm_compute; reflexivity).
  assert (Hno : max_depth clf_depth0 = Some 0
                \/ length y_cat < min_samples_split clf_depth0)
    by (left; reflexivity).
  split; [exact Hfit|]. split; [exact Hno|].
  exact (no_split_gives_the_majority_leaf log2_pow2 clf_depth0 (NdArray X_cat)
           y_cat fitted_stump Hfit Hno).
Defined.

(** ** A partition that has run out of features *)

(** X10. A call of the builder on a partition without any column (every
    feature was split on above), with targets that are not of one class,
    returns a leaf labelled by the mode of the target slice of the parent,
    not of its own, whether or not the partition has rows; the leaf keeps
    its own targets and counts. *)
Theorem exhausted_features_leaf_takes_parent_mode :
  forall (log2 : Q -> Q) fuel self th X y feature_indices p br depth uy,
    shape1 X = 0 ->
    np_unique y = Ok uy ->
    length uy <> 1 ->
    0 < length (target p) ->
    exists m leaf,
      mode (target p) = Ok m /\
      _tree_builder log2 (S fuel) self th X y feature_indices (Some p) br depth
        = Ok (leaf, th) /\
      feature leaf = m /\
      is_leaf leaf = true /\
      target leaf = y /\
      n_samples leaf = length y.
Proof.
  intros log2 fuel self th X y fi p br d uy Hcols Huy Hpure Hp.
  destruct (mode_nonempty _ Hp) as [m Hm].
  assert (Hinit : exists leaf, DecisionNode_init m br (Some p) y (classes_ self)
                               = Ok leaf).
  { unfold DecisionNode_init, unique_counts. rewrite Huy. cbn [bind]. eauto. }
  destruct Hinit as [leaf Hinit].
  exists m, leaf. split; [assumption|].
  split.
  - cbn [_tree_builder]. rewrite Huy. cbn [bind].
    apply Nat.eqb_neq in Hpure. rewrite Hpure.
    unfold size. rewrite Hcols, Nat.mul_0_r. cbn [Nat.eqb of_option bind].
    rewrite Hm. cbn [bind]. rewrite Hinit. reflexivity.
  - apply DecisionNode_init_fields in Hinit.
    destruct Hinit as (Hf & _ & _ & _ & _ & Hch & Htg & _ & Hns & _).
    unfold is_leaf. rewrite Hch. repeat split; assumption.
Qed.

(** Witness for X10: two rows without a column, below the root of the
    end-to-end scenario. *)
Lemma exhausted_features_leaf_takes_parent_mode_witness :
  shape1 X_bare = 0 /\
  np_unique y_bare = Ok [Str "q"; Str "r"] /\
  length [Str "q"; Str "r"] <> 1 /\
  0 < length (target tree_cat) /\
  exists m leaf,
    mode (target tree_cat) = Ok m /\
    _tree_builder log2_pow2 1 fitted_cat [] X_bare y_bare [] (Some tree_cat)
      (Some (Str "A")) 1 = Ok (leaf, []) /\
    feature leaf = m /\
    is_leaf leaf = true /\
    target leaf = y_bare /\
    n_samples leaf = length y_bare.
Proof.
  assert (Hs : shape1 X_bare = 0) by reflexivity.
  assert (Hu : np_unique y_bare = Ok [Str "q"; Str "r"])
    by (vm_compute; reflexivity).
  assert (Hl : length [Str "q"; Str "r"] <> 1) by (simpl; lia).
  assert (Hp : 0 < length (target tree_cat)) by (vm_compute; lia).
  split; [exact Hs|]. split; [exact Hu|]. split; [exact Hl|].
  split; [exact Hp|].
  exact (exhausted_features_leaf_takes_parent_mode log2_pow2 0 fitted_cat []
           X_bare y_bare [] tree_cat (Some (Str "A")) 1 [Str "q"; Str "r"]
           Hs Hu Hl Hp).
Defined.

(* ================================================================= *)
(** ** The thresholds recorded during a call *)

Lemma dict_get_set_same (V : Type) (k : nat) (v : V) (d : list (nat * V)) :
  dict_get Nat.eq_dec k (dict_set Nat.eq_dec k v d) = Some v.
Proof.
  unfold dict_get. induction d as [|[k' v'] d IH]; cbn [dict_set find fst].
  - destruct (Nat.eq_dec k k) as [_|Hne]; [reflexivity | contradiction Hne; reflexivity].
  - destruct (Nat.eq_dec k' k) as [->|Hne]; cbn [find fst].
    + destruct (Nat.eq_dec k k) as [_|Hne]; [reflexivity | contradiction Hne; reflexivity].
    + destruct (Nat.eq_dec k' k) as [He|_]; [contradiction | exact IH].
Qed.

Lemma dict_get_set_other (V : Type) (k k' : nat) (v : V) (d : list (nat * V)) :
  k' <> k ->
  dict_get Nat.eq_dec k' (dict_set Nat.eq_dec k v d) = dict_get Nat.eq_dec k' d.
Proof.
  unfold dict_get. intros Hne.
  induction d as [|[k0 v0] d IH]; cbn [dict_set find fst].
  - destruct (Nat.eq_dec k k') as [He|_]; [contradiction Hne; congruence | reflexivity].
  - destruct (Nat.eq_dec k0 k) as [->|Hne0]; cbn [find fst].
    + destruct (Nat.eq_dec k k') as [He|_]; [contradiction Hne; congruence | reflexivity].
    + destruct (Nat.eq_dec k0 k'); [reflexivity | exact IH].
Qed.

(** What one evaluation of the gain of a column leaves in the thresholds:
    the threshold of its own search under its own index when the column is
    numerical, nothing new otherwise; the other indices keep what they
    had. *)
Lemma information_gain_thresholds log2 th X y idx g th1 :
  _compute_information_gain log2 th X y idx = Ok (g, th1) ->
  exists col,
    column idx X = Ok col /\
    (forall j, j <> idx -> dict_get Nat.eq_dec j th1 = dict_get Nat.eq_dec j th) /\
    (if is_numeric_dtype col
     then exists t, _compute_optimal_threshold log2 X y idx = Ok (g, t) /\
                    dict_get Nat.eq_dec idx th1 = Some t
     else th1 = th).
Proof.
  unfold _compute_information_gain. intros H.
  apply bind_Ok in H. destruct H as [col [Hcol H]].
  exists col. split; [assumption|].
  destruct (is_numeric_dtype col).
  - apply bind_Ok in H. destruct H as [[g' t] [Hopt H]].
    injection H as <- <-. split.
    + intros j Hj. apply dict_get_set_other. assumption.
    + exists t. split; [assumption | apply dict_get_set_same].
  - inv_bind H. injection H as _ <-. split; [reflexivity | reflexivity].
Qed.

Lemma feature_importances_thresholds log2 X y : forall idxs th gains th1,
  NoDup idxs ->
  feature_importances log2 th X y idxs = Ok (gains, th1) ->
  (forall j, ~ In j idxs -> dict_get Nat.eq_dec j th1 = dict_get Nat.eq_dec j th) /\
  (forall idx col, In idx idxs -> column idx X = Ok col ->
     is_numeric_dtype col = true ->
     exists g t, _compute_optimal_threshold log2 X y idx = Ok (g, t) /\
                 dict_get Nat.eq_dec idx th1 = Some t).
Proof.
  induction idxs as [|i idxs IH]; intros th gains th1 Hnd H.
  - simpl in H. injection H as _ <-. split; [reflexivity | intros idx col []].
  - cbn [feature_importances] in H.
    apply bind_Ok in H. destruct H as [[g th2] [Hg H]].
    apply bind_Ok in H. destruct H as [[gs th3] [Hgs H]].
    injection H as _ <-.
    inversion Hnd as [|? ? Hni Hnd']; subst.
    destruct (IH _ _ _ Hnd' Hgs) as [Hother Hnum].
    destruct (information_gain_thresholds _ _ _ _ _ _ _ Hg) as (col & Hcol & Hkeep & Hown).
    split.
    + intros j Hj. rewrite Hother; [apply Hkeep|]; intros Hc; apply Hj;
        [left; congruence | right; assumption].
    + intros idx col' [<-|Hin] Hcol' Hn.
      * rewrite Hcol in Hcol'. injection Hcol' as <-. rewrite Hn in Hown.
        destruct Hown as (t & Hopt & Hget). exists g, t. split; [assumption|].
        rewrite Hother; assumption.
      * eapply Hnum; eassumption.
Qed.

(** X11. The threshold of a node the builder returns comes from the
    partition of this very call, whatever [n_thresholds_] held from earlier
    calls: it is the last cell of a row of the partition. The node is
    named, through [feature_indices], after a numerical column of the
    partition, and it is that column the node splits: its two children
    hold the targets of the rows whose value in the column is strictly
    below the threshold, and of the others. *)
Theorem split_threshold_comes_from_own_partition :
  forall (log2 : Q -> Q) fuel self th X y feature_indices pa br depth n th' t,
    _tree_builder log2 (S fuel) self th X y feature_indices pa br depth
      = Ok (n, th') ->
    threshold n = Some t ->
    exists idx norm name col mask row cT cF,
      idx < shape1 X /\
      nth_error feature_indices idx = Some norm /\
      nth_error (feature_names_ self) norm = Some name /\
      feature n = Str name /\
      column idx X = Ok col /\
      is_numeric_dtype col = true /\
      In row X /\ last_cell row = Ok t /\
      mapM (fun v => py_lt v t) col = Ok mask /\
      children n = [(Str "True", cT); (Str "False", cF)] /\
      target cT = select mask y /\
      target cF = select (invert mask) y.
Proof.
  intros log2 fuel self th X y fi pa br d n th' t H Hthr.
  apply tree_builder_cases in H.
  destruct H as (uy & _ & [(m & Hinit & _) | H]).
  { apply init_threshold in Hinit. congruence. }
  destruct H as (gains & th1 & idx & norm & name & s0 & col & s1 & levels &
                 subtrees & fi' & _ & _ & _ & _ & _ & Hg & _ & Hidx & Hnorm &
                 Hname & Hs0 & Hcol & _ & Hcases & Hloop).
  apply attach_subtrees_kids in Hloop. destruct Hloop as (kids & Hn & Hkeys & Hkids).
  pose proof (DecisionNode_init_fields _ _ _ _ _ _ Hs0)
    as (Hf0 & Hthr0 & _ & _ & _ & Hch0 & _).
  assert (Hfields : threshold n = threshold s1 /\ feature n = feature s1).
  { rewrite Hn, attach_all_set_children. split; reflexivity. }
  destruct Hfields as [Ht1 Hf1].
  destruct Hcases as [(t' & mask & Hnum & Hget & -> & Hmask & _ & _ & -> & _)
                     | (_ & -> & _)];
    [|congruence].
  simpl in Ht1, Hf1. assert (t' = t) by congruence. subst t'.
  destruct (feature_importances_thresholds _ _ _ _ _ _ _ (seq_NoDup _ _) Hg)
    as [_ Hown].
  destruct (Hown idx col) as (g & t' & Hopt & Hget'); try assumption.
  { apply in_seq. lia. }
  assert (t' = t) by congruence. subst t'.
  destruct (optimal_threshold_in_last_column _ _ _ _ _ _ Hopt) as (row & Hrow & Hlast).
  unfold numerical_parts in Hkeys, Hkids. cbn [map snd] in Hkeys.
  destruct kids as [|[b1 c1] [|[b2 c2] [|kc rest]]];
    cbn [map fst] in Hkeys;
    [discriminate Hkeys | discriminate Hkeys | | discriminate Hkeys].
  injection Hkeys as -> ->.
  assert (Hch : children n = [(Str "True", c1); (Str "False", c2)]).
  { rewrite Hn, attach_all_children.
    - simpl. rewrite Hch0. reflexivity.
    - simpl. rewrite Hch0. simpl.
      constructor; [intros [He|[]]; discriminate He|].
      constructor; [intros []|constructor]. }
  destruct (Hkids [] _ _ _ eq_refl) as (Xs1 & ys1 & th3 & th4 & Hnth1 & Hc1).
  destruct (Hkids [(Str "True", c1)] _ _ _ eq_refl)
    as (Xs2 & ys2 & th5 & th6 & Hnth2 & Hc2).
  simpl in Hnth1, Hnth2. injection Hnth1 as <- <-. injection Hnth2 as <- <-.
  apply tree_builder_fields in Hc1, Hc2.
  destruct Hc1 as (_ & _ & _ & Htc1 & _).
  destruct Hc2 as (_ & _ & _ & Htc2 & _).
  exists idx, norm, name, col, mask, row, c1, c2.
  rewrite Hf1, Hf0.
  repeat (split; [solve [assumption | reflexivity]|]).
  assumption.
Qed.

(** Witness for X11: a call of the builder on the two columns of
    [X_pair], with a stale threshold recorded for each of them. *)
Lemma split_threshold_comes_from_own_partition_witness :
  _tree_builder log2_pow2 5 fitted_pair_full [(0, num 7); (1, num 7)] X_pair
    y_two [0; 1] None None 0 = Ok (fst built_pair, snd built_pair) /\
  threshold (fst built_pair) = Some (num 20) /\
  exists idx norm name col mask row cT cF,
    idx < shape1 X_pair /\
    nth_error [0; 1] idx = Some norm /\
    nth_error (feature_names_ fitted_pair_full) norm = Some name /\
    feature (fst built_pair) = Str name /\
    column idx X_pair = Ok col /\
    is_numeric_dtype col = true /\
    In row X_pair /\ last_cell row = Ok (num 20) /\
    mapM (fun v => py_lt v (num 20)) col = Ok mask /\
    children (fst built_pair) = [(Str "True", cT); (Str "False", cF)] /\
    target cT = select mask y_two /\
    target cF = select (invert mask) y_two.
Proof.
  assert (Hb : _tree_builder log2_pow2 5 fitted_pair_full
                 [(0, num 7); (1, num 7)] X_pair y_two [0; 1] None None 0
               = Ok (fst built_pair, snd built_pair))
    by (vm_compute; reflexivity).
  assert (Hthr : threshold (fst built_pair) = Some (num 20))
    by (vm_compute; reflexivity).
  split; [exact Hb|]. split; [exact Hthr|].
  exact (split_threshold_comes_from_own_partition log2_pow2 4 fitted_pair_full
           [(0, num 7); (1, num 7)] X_pair y_two [0; 1] None None 0
           (fst built_pair) (snd built_pair) (num 20) Hb Hthr).
Defined.

(* ================================================================= *)
(** ** The gain of a categorical column with a single level *)

Lemma count_all (c : cell) (l : list cell) :
  (forall v, In v l -> v = c) -> count c l = length l.
Proof.
  unfold count. induction l as [|a l IH]; intros H; [reflexivity|].
  rewrite (H a (or_introl eq_refl)). rewrite count_occ_cons_eq by reflexivity.
  simpl. f_equal. apply IH. intros v Hv. apply H. right. assumption.
Qed.

Lemma select_all (A : Type) (mask : list bool) (a : list A) :
  length mask = length a -> (forall b, In b mask -> b = true) ->
  select mask a = a.
Proof.
  unfold select. revert a. induction mask as [|m mask IH]; intros [|x a] Hlen Hall;
    try discriminate; [reflexivity|].
  injection Hlen as Hlen.
  rewrite (Hall m (or_introl eq_refl)). simpl. f_equal.
  apply IH; [assumption|]. intros b Hb. apply Hall. right. assumption.
Qed.

Lemma np_unique_strings (l : list cell) :
  (forall v, In v l -> is_str v = true) -> exists u, np_unique l = Ok u.
Proof.
  intros H. unfold np_unique, homogeneous.
  assert (Hs : forallb is_str l = true) by (apply forallb_forall; assumption).
  rewrite Hs, orb_true_r. eauto.
Qed.

(** X12. A categorical column whose cells are all the same string carries
    no information: its gain is zero, whatever [np.log2] computes, and
    evaluating it leaves the recorded thresholds as they were. *)
Theorem single_level_column_has_zero_gain :
  forall (log2 : Q -> Q) th X y feature_idx col s e,
    column feature_idx X = Ok col ->
    col <> [] ->
    (forall v, In v col -> v = Str s) ->
    length y = length X ->
    _entropy log2 y = Ok e ->
    exists g,
      _compute_information_gain log2 th X y feature_idx = Ok (g, th) /\
      (g == 0)%Q.
Proof.
  intros log2 th X y idx col s e Hcol Hne Hall Hlen He.
  assert (Hlc : length col = length y).
  { apply mapM_length in Hcol. congruence. }
  destruct (np_unique_strings col) as [u Hu].
  { intros v Hv. rewrite (Hall v Hv). reflexivity. }
  pose proof (np_unique_pure _ _ _ Hne Hall Hu) as ->.
  assert (Hnum : is_numeric_dtype col = false).
  { destruct col as [|c col]; [contradiction Hne; reflexivity|].
    simpl. rewrite (Hall c (or_introl eq_refl)). reflexivity. }
  assert (Hmask : select (map (fun v => cell_eqb v (Str s)) col) y = y).
  { apply select_all.
    - rewrite length_map. assumption.
    - intros b Hb. apply in_map_iff in Hb. destruct Hb as (v & <- & Hv).
      rewrite (Hall v Hv). unfold cell_eqb.
      destruct (cell_eq_dec (Str s) (Str s)) as [_|Hn];
        [reflexivity | contradiction Hn; reflexivity]. }
  eexists. split.
  - unfold _compute_information_gain. rewrite Hcol. cbn [bind]. rewrite Hnum.
    unfold proba. rewrite Hu. cbn [bind mapM map]. rewrite Hmask, He.
    cbn [bind]. reflexivity.
  - rewrite (count_all _ _ Hall). unfold dot, Qsum. cbn [combine map fold_right fst snd].
    assert (Hpos : ~ (Q_of_nat (length col) == 0)%Q).
    { unfold Q_of_nat. destruct col as [|c col]; [contradiction Hne; reflexivity|].
      simpl length. rewrite Nat2Z.inj_succ. unfold Qeq. simpl. lia. }
    field. assumption.
Qed.

(** Witness for X12: the column of [X_same]. *)
Lemma single_level_column_has_zero_gain_witness :
  column 0 X_same = Ok [Str "A"; Str "A"] /\
  [Str "A"; Str "A"] <> [] /\
  (forall v, In v [Str "A"; Str "A"] -> v = Str "A") /\
  length y_two = length X_same /\
  _entropy log2_pow2 y_two = Ok (4 # 4)%Q /\
  exists g,
    _compute_information_gain log2_pow2 [] X_same y_two 0 = Ok (g, []) /\
    (g == 0)%Q.
Proof.
  assert (Hc : column 0 X_same = Ok [Str "A"; Str "A"]) by reflexivity.
  assert (Hne : [Str "A"; Str "A"] <> []) by discriminate.
  assert (Hall : forall v, In v [Str "A"; Str "A"] -> v = Str "A").
  { intros v [<-|[<-|[]]]; reflexivity. }
  assert (Hlen : length y_two = length X_same) by reflexivity.
  assert (He : _entropy log2_pow2 y_two = Ok (4 # 4)%Q)
    by (vm_compute; reflexivity).
  split; [exact Hc|]. split; [exact Hne|]. split; [exact Hall|].
  split; [exact Hlen|]. split; [exact He|].
  exact (single_level_column_has_zero_gain log2_pow2 [] X_same y_two 0
           [Str "A"; Str "A"] "A" (4 # 4)%Q Hc Hne Hall Hlen He).
Defined.

(* ================================================================= *)
(** ** What [_partition_data] returns *)

Lemma select_In (A : Type) (mask : list bool) (a : list A) (x : A) :
  In x (select mask a) ->
  exists i, nth_error mask i = Some true /\ nth_error a i = Some x.
Proof.
  unfold select. revert a. induction mask as [|m mask IH]; intros [|h a] Hin;
    try (destruct Hin; fail).
  destruct m; simpl in Hin.
  - destruct Hin as [<-|Hin].
    + exists 0. split; reflexivity.
    + destruct (IH a Hin) as (i & Hm & Ha). exists (S i). split; assumption.
  - destruct (IH a Hin) as (i & Hm & Ha). exists (S i). split; assumption.
Qed.

Lemma In_select (A : Type) (mask : list bool) (a : list A) (x : A) (i : nat) :
  nth_error mask i = Some true -> nth_error a i = Some x -> In x (select mask a).
Proof.
  unfold select. revert a i. induction mask as [|m mask IH]; intros [|h a] [|i] Hm Ha;
    try discriminate.
  - simpl in Hm, Ha. injection Hm as ->. injection Ha as ->. simpl. left.
    reflexivity.
  - simpl in Hm, Ha. destruct m; simpl; [right|]; eapply IH; eassumption.
Qed.

Lemma mapM_nth (A B : Type) (f : A -> result B) (l : list A) (r : list B)
    (i : nat) (a : A) :
  mapM f l = Ok r -> nth_error l i = Some a ->
  exists b, nth_error r i = Some b /\ f a = Ok b.
Proof.
  revert r i. induction l as [|h l IH]; intros r [|i] H Hi; try discriminate;
    simpl in H; inv_bind H; injection H as <-; simpl in Hi.
  - injection Hi as ->. exists a0. split; [reflexivity | assumption].
  - destruct (IH _ _ E0 Hi) as (b & Hb & Hf). exists b. split; assumption.
Qed.

Lemma mapM_nth_inv (A B : Type) (f : A -> result B) (l : list A) (r : list B)
    (i : nat) (b : B) :
  mapM f l = Ok r -> nth_error r i = Some b ->
  exists a, nth_error l i = Some a /\ f a = Ok b.
Proof.
  revert r i. induction l as [|h l IH]; intros r i H Hi; simpl in H.
  - injection H as <-. destruct i; discriminate.
  - inv_bind H. injection H as <-. destruct i as [|i]; simpl in Hi.
    + injection Hi as <-. exists h. split; [reflexivity | assumption].
    + destruct (IH _ _ E0 Hi) as (a' & Ha & Hf). exists a'. split; assumption.
Qed.

Lemma invert_nth (mask : list bool) (i : nat) :
  nth_error (invert mask) i = Some true -> nth_error mask i = Some false.
Proof.
  unfold invert. rewrite nth_error_map.
  destruct (nth_error mask i) as [[|]|]; simpl; intros H;
    [discriminate | reflexivity | discriminate].
Qed.

Lemma select_combine (A B : Type) (mask : list bool) (a : list A) (b : list B) :
  combine (select mask a) (select mask b) = select mask (combine a b).
Proof.
  unfold select. revert a b.
  induction mask as [|m mask IH]; intros a b; [reflexivity|].
  destruct a as [|h a]; [reflexivity|].
  destruct b as [|k b].
  - cbn [combine]. apply combine_nil.
  - destruct m; cbn [combine filter fst map snd]; [f_equal|]; apply IH.
Qed.

(** X13. At a threshold node, [_partition_data] ignores the level it is
    given and returns the two sides of the split: under ["True"] the rows
    whose value in the column is strictly below the threshold, under
    ["False"] the others, each side with its targets: the pairs of a row
    and its target on a side are, in order, the pairs of the input at the
    positions where the comparison is true, or false. No row is lost or
    repeated, and neither side is empty, a split with an empty side being
    refused by the assertions. *)
Theorem numerical_partition_is_strictly_below_and_rest :
  forall X y feature_idx level split_node t p,
    threshold split_node = Some t ->
    length y = length X ->
    _partition_data X y feature_idx level split_node = Ok p ->
    exists col mask XT yT XF yF,
      column feature_idx X = Ok col /\
      mapM (fun v => py_lt v t) col = Ok mask /\
      p = Zipped [(XT, yT, Str "True"); (XF, yF, Str "False")] /\
      combine XT yT = select mask (combine X y) /\
      combine XF yF = select (invert mask) (combine X y) /\
      XT <> [] /\ XF <> [] /\
      length XT = length yT /\ length XF = length yF /\
      Permutation (XT ++ XF) X /\ Permutation (yT ++ yF) y /\
      (forall r, In r XT ->
         exists v, nth_error r feature_idx = Some v /\ py_lt v t = Ok true) /\
      (forall r, In r XF ->
         exists v, nth_error r feature_idx = Some v /\ py_lt v t = Ok false).
Proof.
  intros X y idx level s t p Hthr Hlen H.
  destruct (partition_data_numerical _ _ _ _ _ _ _ Hthr H)
    as (col & mask & Hcol & Hmask & Hne1 & Hne2 & ->).
  assert (Hlm : length mask = length X).
  { apply mapM_length in Hmask. apply mapM_length in Hcol. congruence. }
  assert (Hrows : forall m b r, (m = mask \/ m = invert mask) ->
            (forall i, nth_error m i = Some true -> nth_error mask i = Some b) ->
            In r (select m X) ->
            exists v, nth_error r idx = Some v /\ py_lt v t = Ok b).
  { intros m b r _ Hm Hr. apply select_In in Hr. destruct Hr as (i & Hi & Hx).
    apply Hm in Hi.
    destruct (mapM_nth_inv _ _ _ _ _ _ _ Hmask Hi) as (v & Hv & Hlt).
    destruct (mapM_nth _ _ _ _ _ _ _ Hcol Hx) as (v' & Hv' & Hnth).
    apply of_option_Ok in Hnth. exists v. split; congruence. }
  exists col, mask, (select mask X), (select mask y), (select (invert mask) X),
    (select (invert mask) y).
  split; [assumption|]. split; [assumption|].
  split; [reflexivity|].
  split; [apply select_combine|]. split; [apply select_combine|].
  split; [assumption|]. split; [assumption|].
  split; [apply select_length; congruence|].
  split; [apply select_length; congruence|].
  split; [apply select_perm; assumption|].
  split; [apply select_perm; congruence|].
  split.
  - intros r Hr. apply (Hrows mask true r); auto.
  - intros r Hr. apply (Hrows (invert mask) false r); auto.
    intros i. apply invert_nth.
Qed.

(** Witness for X13: [X_two] at the root of its tree. *)
Lemma numerical_partition_is_strictly_below_and_rest_witness :
  threshold tree_two = Some (num 2) /\
  length y_two = length X_two /\
  _partition_data X_two y_two 0 (Str "any") tree_two
    = Ok (Zipped [([[num 1]], [Str "a"], Str "True");
                  ([[num 2]], [Str "b"], Str "False")]) /\
  exists col mask XT yT XF yF,
    column 0 X_two = Ok col /\
    mapM (fun v => py_lt v (num 2)) col = Ok mask /\
    Zipped [([[num 1]], [Str "a"], Str "True");
            ([[num 2]], [Str "b"], Str "False")]
      = Zipped [(XT, yT, Str "True"); (XF, yF, Str "False")] /\
    combine XT yT = select mask (combine X_two y_two) /\
    combine XF yF = select (invert mask) (combine X_two y_two) /\
    XT <> [] /\ XF <> [] /\
    length XT = length yT /\ length XF = length yF /\
    Permutation (XT ++ XF) X_two /\ Permutation (yT ++ yF) y_two /\
    (forall r, In r XT ->
       exists v, nth_error r 0 = Some v /\ py_lt v (num 2) = Ok true) /\
    (forall r, In r XF ->
       exists v, nth_error r 0 = Some v /\ py_lt v (num 2) = Ok false).
Proof.
  assert (Hthr : threshold tree_two = Some (num 2)) by (vm_compute; reflexivity).
  assert (Hlen : length y_two = length X_two) by reflexivity.
  assert (Hp : _partition_data X_two y_two 0 (Str "any") tree_two
               = Ok (Zipped [([[num 1]], [Str "a"], Str "True");
                             ([[num 2]], [Str "b"], Str "False")]))
    by (vm_compute; reflexivity).
  split; [exact Hthr|]. split; [exact Hlen|]. split; [exact Hp|].
  exact (numerical_partition_is_strictly_below_and_rest X_two y_two 0
           (Str "any") tree_two (num 2) _ Hthr Hlen Hp).
Defined.

Lemma remove_at_rows (idx : nat) (X : matrix) (r' : list cell) :
  In r' (np_delete_col idx X) <-> exists r, In r X /\ r' = remove_at idx r.
Proof.
  unfold np_delete_col. rewrite in_map_iff. split; intros (r & H1 & H2);
    exists r; auto.
Qed.

Lemma select_eq_rows (X : matrix) (col : list cell) (idx : nat) (level : cell)
    (r : list cell) :
  column idx X = Ok col ->
  (In r (select (map (fun v => cell_eqb v level) col) X) <->
   In r X /\ nth_error r idx = Some level).
Proof.
  intros Hcol. split.
  - intros Hr. apply select_In in Hr. destruct Hr as (i & Hi & Hx).
    split; [eapply nth_error_In; eassumption|].
    rewrite nth_error_map in Hi.
    destruct (mapM_nth _ _ _ _ _ _ _ Hcol Hx) as (v & Hv & Hnth).
    apply of_option_Ok in Hnth. rewrite Hv in Hi. simpl in Hi.
    unfold cell_eqb in Hi. destruct (cell_eq_dec v level); [congruence | discriminate].
  - intros [Hr Hl]. apply In_nth_error in Hr. destruct Hr as [i Hx].
    destruct (mapM_nth _ _ _ _ _ _ _ Hcol Hx) as (v & Hv & Hnth).
    apply of_option_Ok in Hnth.
    apply In_select with (i := i); [|assumption].
    rewrite nth_error_map, Hv. simpl. unfold cell_eqb.
    destruct (cell_eq_dec v level); [reflexivity | congruence].
Qed.

Lemma combine_map_l (A B C : Type) (f : A -> C) (a : list A) (b : list B) :
  combine (map f a) b = map (fun p => (f (fst p), snd p)) (combine a b).
Proof.
  revert b. induction a as [|h a IH]; intros [|k b]; try reflexivity.
  simpl. f_equal. apply IH.
Qed.

(** X14. At a categorical node, [_partition_data] raises nothing when the
    column exists, and returns, for a level, the rows whose value in the
    column is that level, with the column removed, and their targets: the
    pairs of a row and its target that it returns are, in order, the pairs
    of the input at the positions where the column holds the level. A
    level that does not occur in the column gives an empty partition. *)
Theorem categorical_partition_keeps_the_rows_of_the_level :
  forall X y feature_idx level split_node col,
    threshold split_node = None ->
    length y = length X ->
    column feature_idx X = Ok col ->
    exists X' y',
      _partition_data X y feature_idx level split_node
        = Ok (Single (X', y', level)) /\
      combine X' y' =
        map (fun ry => (remove_at feature_idx (fst ry), snd ry))
            (select (map (fun v => cell_eqb v level) col) (combine X y)) /\
      length X' = length y' /\
      length X' = count level col /\
      (forall r', In r' X' <->
         exists r, In r X /\ nth_error r feature_idx = Some level /\
                   r' = remove_at feature_idx r) /\
      (~ In level col -> X' = [] /\ y' = []).
Proof.
  intros X y idx level s col Hthr Hlen Hcol.
  assert (Hlc : length col = length X) by (apply mapM_length in Hcol; assumption).
  set (mask := map (fun v => cell_eqb v level) col).
  assert (Hcount : length (select mask X) = count level col).
  { unfold mask, select, count. clear Hcol Hlen. revert X Hlc.
    induction col as [|c col IH]; intros [|h X] Hlc; try discriminate; [reflexivity|].
    injection Hlc as Hlc. simpl. unfold cell_eqb at 1.
    destruct (cell_eq_dec c level) as [->|Hne]; simpl.
    - destruct (cell_eq_dec level level) as [_|Hn]; [|contradiction Hn; reflexivity].
      f_equal. apply IH. assumption.
    - destruct (cell_eq_dec c level) as [He|_]; [contradiction|]. apply IH.
      assumption. }
  exists (np_delete_col idx (select mask X)), (select mask y).
  split.
  { unfold _partition_data. rewrite Hthr, Hcol. reflexivity. }
  split.
  { unfold np_delete_col. rewrite combine_map_l, select_combine. reflexivity. }
  assert (Hl1 : length (np_delete_col idx (select mask X)) = length (select mask X)).
  { unfold np_delete_col. apply length_map. }
  split; [rewrite Hl1; apply select_length; congruence|].
  split; [rewrite Hl1; assumption|].
  split.
  - intros r'. rewrite remove_at_rows. split.
    + intros (r & Hr & ->). apply (select_eq_rows _ _ _ _ _ Hcol) in Hr.
      exists r. tauto.
    + intros (r & Hr & Hl & ->). exists r. split; [|reflexivity].
      apply (select_eq_rows _ _ _ _ _ Hcol). tauto.
  - intros Hnot. apply (count_occ_not_In cell_eq_dec) in Hnot.
    unfold count in Hcount. rewrite Hnot in Hcount.
    assert (Hy : length (select mask y) = 0).
    { rewrite <- (select_length _ _ mask X y); [assumption | congruence]. }
    destruct (select mask X); [|discriminate].
    destruct (select mask y); [|discriminate]. split; reflexivity.
Qed.

(** Witness for X14: the level [A] of the end-to-end scenario. *)
Lemma categorical_partition_keeps_the_rows_of_the_level_witness :
  threshold tree_cat = None /\
  length y_cat = length X_cat /\
  column 0 X_cat = Ok [Str "A"; Str "A"; Str "B"; Str "B"] /\
  exists X' y',
    _partition_data X_cat y_cat 0 (Str "A") tree_cat
      = Ok (Single (X', y', Str "A")) /\
    combine X' y' =
      map (fun ry => (remove_at 0 (fst ry), snd ry))
          (select (map (fun v => cell_eqb v (Str "A"))
                       [Str "A"; Str "A"; Str "B"; Str "B"])
                  (combine X_cat y_cat)) /\
    length X' = length y' /\
    length X' = count (Str "A") [Str "A"; Str "A"; Str "B"; Str "B"] /\
    (forall r', In r' X' <->
       exists r, In r X_cat /\ nth_error r 0 = Some (Str "A") /\
                 r' = remove_at 0 r) /\
    (~ In (Str "A") [Str "A"; Str "A"; Str "B"; Str "B"] -> X' = [] /\ y' = []).
Proof.
  assert (Hthr : threshold tree_cat = None) by (vm_compute; reflexivity).
  assert (Hlen : length y_cat = length X_cat) by reflexivity.
  assert (Hcol : column 0 X_cat = Ok [Str "A"; Str "A"; Str "B"; Str "B"])
    by reflexivity.
  split; [exact Hthr|]. split; [exact Hlen|]. split; [exact Hcol|].
  exact (categorical_partition_keeps_the_rows_of_the_level X_cat y_cat 0
           (Str "A") tree_cat [Str "A"; Str "A"; Str "B"; Str "B"]
           Hthr Hlen Hcol).
Defined.

(* ================================================================= *)
(** ** The nodes [__iter__] yields *)

Lemma iter_preorder self tree :
  tree_ self = Some tree -> __iter__ self = Ok (preorder tree).
Proof.
  intros Ht. unfold __iter__, fitted_tree. rewrite Ht. cbn [of_option bind].
  change [tree] with (rev [tree]). rewrite iter_loop_spec_dfs.
  rewrite spec_dfs_preorder by (simpl; lia). simpl. rewrite app_nil_r. reflexivity.
Qed.

Lemma children_split (n c : DecisionNode) :
  In c (dict_values (children n)) <->
  In c (rev (filter (fun c => negb (is_leaf c)) (dict_values (children n))))
  \/ In c (rev (filter is_leaf (dict_values (children n)))).
Proof.
  rewrite <- !in_rev, !filter_In. destruct (is_leaf c); simpl; intuition discriminate.
Qed.

Lemma preorder_self n : In n (preorder n).
Proof.
  rewrite preorder_unfold. left. reflexivity.
Qed.

Lemma preorder_child n c m :
  In c (dict_values (children n)) -> In m (preorder c) -> In m (preorder n).
Proof.
  intros Hc Hm. rewrite (preorder_unfold n). right. apply in_or_app.
  apply children_split in Hc. destruct Hc as [Hc|Hc].
  - left. apply in_flat_map. exists c. split; assumption.
  - right. pose proof Hc as Hc'. rewrite <- in_rev, filter_In in Hc'.
    destruct Hc' as [_ Hl]. rewrite preorder_unfold in Hm.
    unfold is_leaf in Hl. destruct (children c); [|discriminate].
    simpl in Hm. destruct Hm as [<-|[]]. assumption.
Qed.

Lemma preorder_in_tree root : forall n, In n (preorder root) -> in_tree root n.
Proof.
  induction root as [root IH] using DecisionNode_children_ind. intros n Hn.
  rewrite preorder_unfold in Hn. destruct Hn as [<-|Hn].
  - exists 0. apply at_depth_root.
  - assert (Hc : exists c, In c (dict_values (children root)) /\ In n (preorder c)).
    { apply in_app_or in Hn. destruct Hn as [Hn|Hn].
      - apply in_flat_map in Hn. destruct Hn as (c & Hc & Hn).
        exists c. split; [|assumption]. apply children_split. left. assumption.
      - exists n. split; [apply children_split; right; assumption|].
        apply preorder_self. }
    destruct Hc as (c & Hc & Hn'). unfold dict_values in Hc. apply in_map_iff in Hc.
    destruct Hc as ([b c'] & Heq & Hin). simpl in Heq. subst c'.
    destruct (IH _ _ Hin _ Hn') as [k Hk]. exists (S k).
    eapply at_depth_prepend; eassumption.
Qed.

Lemma in_tree_preorder root k n : at_depth root k n -> In n (preorder root).
Proof.
  induction 1 as [|k n b c _ IH Hin].
  - apply preorder_self.
  - assert (Hc : In c (preorder n)).
    { apply preorder_child with (c := c); [|apply preorder_self].
      unfold dict_values. apply in_map_iff. exists (b, c). split; [reflexivity|].
      assumption. }
    clear Hin. revert Hc. generalize c. clear c.
    assert (Hsub : forall m, In m (preorder root) ->
                     forall c, In c (preorder m) -> In c (preorder root)).
    { clear. induction root as [root IHr] using DecisionNode_children_ind.
      intros m Hm c Hc. rewrite preorder_unfold in Hm. destruct Hm as [<-|Hm];
        [assumption|].
      apply in_app_or in Hm. destruct Hm as [Hm|Hm].
      - apply in_flat_map in Hm. destruct Hm as (k & Hk & Hm).
        assert (Hk' : In k (dict_values (children root)))
          by (apply children_split; left; assumption).
        apply preorder_child with (c := k); [assumption|].
        unfold dict_values in Hk'. apply in_map_iff in Hk'.
        destruct Hk' as ([b k'] & Heq & Hin). simpl in Heq. subst k'.
        eapply IHr; eassumption.
      - assert (Hm' : In m (dict_values (children root)))
          by (apply children_split; right; assumption).
        apply preorder_child with (c := m); assumption. }
    intros c Hc. eapply Hsub; eassumption.
Qed.

Lemma preorder_length n : length (preorder n) = node_count n.
Proof.
  induction n as [n IH] using DecisionNode_children_ind.
  rewrite preorder_unfold, node_count_children. cbn [length]. f_equal.
  rewrite length_app, length_rev.
  assert (Hf : forall l : list DecisionNode,
            (forall c, In c l -> length (preorder c) = node_count c) ->
            length (flat_map preorder l) = list_sum (map node_count l)).
  { induction l as [|c l IHl]; intros Hl; [reflexivity|].
    simpl. rewrite length_app, Hl by (left; reflexivity). f_equal.
    apply IHl. intros c' Hc'. apply Hl. right. assumption. }
  assert (Hkids : forall c, In c (dict_values (children n)) ->
                    length (preorder c) = node_count c).
  { intros c Hc. unfold dict_values in Hc. apply in_map_iff in Hc.
    destruct Hc as ([b c'] & Heq & Hin). simpl in Heq. subst c'.
    eapply IH. eassumption. }
  rewrite Hf.
  - rewrite map_rev, list_sum_rev.
    pose proof (list_sum_filter _ node_count is_leaf (dict_values (children n))) as Hs.
    assert (Hleaves : forall l : list DecisionNode,
              list_sum (map node_count (filter is_leaf l)) = length (filter is_leaf l)).
    { induction l as [|c l IHl]; [reflexivity|]. simpl.
      destruct (is_leaf c) eqn:Hc; [|assumption]. simpl. rewrite IHl.
      rewrite node_count_children. unfold is_leaf in Hc.
      destruct (children c); [reflexivity | discriminate]. }
    rewrite Hleaves in Hs. lia.
  - intros c Hc. apply Hkids. apply children_split. left. assumption.
Qed.

(** X15. Iterating over a fitted estimator yields the root first and then
    every node that can be reached from it, and nothing else; the number
    of nodes yielded is the number of nodes of the tree. *)
Theorem iter_yields_exactly_the_nodes_of_the_tree :
  forall self tree,
    tree_ self = Some tree ->
    exists nodes,
      __iter__ self = Ok nodes /\
      hd_error nodes = Some tree /\
      length nodes = node_count tree /\
      (forall n, In n nodes <-> in_tree tree n).
Proof.
  intros self tree Ht. exists (preorder tree).
  split; [apply iter_preorder; assumption|].
  split; [rewrite preorder_unfold; reflexivity|].
  split; [apply preorder_length|].
  intros n. split.
  - apply preorder_in_tree.
  - intros [k Hk]. eapply in_tree_preorder. eassumption.
Qed.

(** Witness for X15: the tree of the end-to-end scenario. *)
Lemma iter_yields_exactly_the_nodes_of_the_tree_witness :
  tree_ fitted_cat = Some tree_cat /\
  exists nodes,
    __iter__ fitted_cat = Ok nodes /\
    hd_error nodes = Some tree_cat /\
    length nodes = node_count tree_cat /\
    (forall n, In n nodes <-> in_tree tree_cat n).
Proof.
  assert (Ht : tree_ fitted_cat = Some tree_cat) by (vm_compute; reflexivity).
  split; [exact Ht|].
  exact (iter_yields_exactly_the_nodes_of_the_tree fitted_cat tree_cat Ht).
Defined.

(** ** The breadth-first enumeration of [export_graphviz] *)

Lemma flat_map_perm (l1 l2 : list DecisionNode) :
  Permutation l1 l2 -> Permutation (flat_map preorder l1) (flat_map preorder l2).
Proof.
  induction 1; simpl.
  - constructor.
  - apply Permutation_app_head. assumption.
  - rewrite !app_assoc. apply Permutation_app_tail. apply Permutation_app_comm.
  - eapply Permutation_trans; eassumption.
Qed.

Lemma filter_perm (l : list DecisionNode) :
  Permutation l (rev (filter (fun c => negb (is_leaf c)) l) ++ rev (filter is_leaf l)).
Proof.
  eapply Permutation_trans;
    [|apply Permutation_app; apply Permutation_rev].
  induction l as [|c l IH]; simpl; [constructor|].
  destruct (is_leaf c); simpl.
  - apply Permutation_cons_app. assumption.
  - constructor. assumption.
Qed.

Lemma preorder_children_perm n :
  Permutation (preorder n) (n :: flat_map preorder (dict_values (children n))).
Proof.
  rewrite preorder_unfold. constructor.
  rewrite <- (preorder_leaves (rev (filter is_leaf (dict_values (children n)))))
    by apply forallb_rev, forallb_filter.
  rewrite <- flat_map_app. apply Permutation_sym, flat_map_perm, filter_perm.
Qed.

Lemma bfs_loop_nodes fuel : forall queue,
  list_sum (map node_count queue) <= fuel ->
  exists l,
    bfs_loop fuel queue = Ok l /\
    Permutation (map fst l) (flat_map preorder queue) /\
    Forall (fun p => snd p = dict_values (children (fst p))) l.
Proof.
  induction fuel as [|fuel IH]; intros [|n queue] Hle.
  - exists []. repeat split; constructor.
  - simpl in Hle. rewrite node_count_children in Hle. lia.
  - exists []. repeat split; constructor.
  - simpl in Hle. rewrite node_count_children in Hle.
    destruct (IH (queue ++ dict_values (children n))) as (rest & Hrest & Hperm & Hall).
    { rewrite map_app, list_sum_app. lia. }
    exists ((n, dict_values (children n)) :: rest).
    cbn [bfs_loop]. rewrite Hrest. cbn [bind]. split; [reflexivity|]. split.
    + cbn [map fst flat_map].
      eapply Permutation_trans;
        [|apply Permutation_app_tail, Permutation_sym, preorder_children_perm].
      simpl. constructor.
      eapply Permutation_trans; [exact Hperm|].
      rewrite flat_map_app. apply Permutation_app_comm.
    + constructor; [reflexivity | assumption].
Qed.

Lemma built_children self d n :
  built self d n -> depth n = d /\ Forall (built self (S d)) (dict_values (children n)).
Proof.
  intros H. inversion H as [? ? Hd _ _ _ Hkids]; subst. split; [reflexivity|].
  apply Forall_forall. intros c Hc. unfold dict_values in Hc. apply in_map_iff in Hc.
  destruct Hc as ([b c'] & Heq & Hin). simpl in Heq. subst c'. eapply Hkids.
  eassumption.
Qed.

(** The queue of [bfs] holds nodes of one level followed by nodes of the
    next; the nodes are served level by level. *)
Lemma bfs_loop_levels self fuel : forall d q1 q2 l,
  Forall (built self d) q1 ->
  Forall (built self (S d)) q2 ->
  bfs_loop fuel (q1 ++ q2) = Ok l ->
  Forall (fun p => d <= depth (fst p)) l /\
  StronglySorted le (map (fun p => depth (fst p)) l).
Proof.
  induction fuel as [|fuel IH]; intros d q1 q2 l H1 H2 H.
  - destruct q1 as [|n q1]; [destruct q2 as [|n q2]|]; try discriminate.
    injection H as <-. split; constructor.
  - destruct q1 as [|n q1]; [destruct q2 as [|n q2]|].
    + injection H as <-. split; constructor.
    + cbn [app bfs_loop] in H. apply bind_Ok in H. destruct H as [rest [Hrest H]].
      injection H as <-.
      inversion H2 as [|? ? Hn Hq2]; subst.
      destruct (built_children _ _ _ Hn) as [Hd Hkids].
      destruct (IH (S d) q2 (dict_values (children n)) rest Hq2 Hkids Hrest)
        as [Hge Hsorted].
      split.
      * constructor; [simpl; lia|].
        eapply Forall_impl; [|exact Hge]. simpl. intros p Hp. lia.
      * cbn [map fst]. constructor; [assumption|].
        rewrite Forall_map. eapply Forall_impl; [|exact Hge]. simpl. intros p Hp. lia.
    + cbn [app bfs_loop] in H. apply bind_Ok in H. destruct H as [rest [Hrest H]].
      injection H as <-.
      inversion H1 as [|? ? Hn Hq1]; subst.
      destruct (built_children _ _ _ Hn) as [Hd Hkids].
      rewrite <- app_assoc in Hrest.
      assert (Hq2 : Forall (built self (S d)) (q2 ++ dict_values (children n))).
      { apply Forall_app. split; assumption. }
      destruct (IH d q1 (q2 ++ dict_values (children n)) rest Hq1 Hq2 Hrest)
        as [Hge Hsorted].
      split.
      * constructor; [simpl; lia | assumption].
      * cbn [map fst]. constructor; [assumption|].
        rewrite Forall_map. rewrite Hd. exact Hge.
Qed.

(** X16. The breadth-first generator of [export_graphviz] ends, starts at
    the root, pairs every node with its children, visits the same nodes as
    [__iter__], each as often, and visits the nodes of a fitted tree level
    by level, in the order of their depth. *)
Theorem bfs_visits_the_nodes_of_iter_by_levels :
  forall (log2 : Q -> Q) self input y est tree,
    fit log2 self input y = Ok est ->
    tree_ est = Some tree ->
    exists pairs nodes,
      bfs tree = Ok pairs /\
      __iter__ est = Ok nodes /\
      hd_error (map fst pairs) = Some tree /\
      Forall (fun p => snd p = dict_values (children (fst p))) pairs /\
      Permutation (map fst pairs) nodes /\
      StronglySorted le (map (fun p => depth (fst p)) pairs).
Proof.
  intros log2 self input y est tree Hfit Ht.
  destruct (bfs_loop_nodes (node_count tree) [tree]) as (pairs & Hbfs & Hperm & Hall).
  { simpl. lia. }
  exists pairs, (preorder tree). split; [exact Hbfs|].
  split; [apply iter_preorder; assumption|].
  split.
  { unfold bfs in Hbfs. rewrite node_count_children in Hbfs.
    cbn [bfs_loop] in Hbfs. apply bind_Ok in Hbfs. destruct Hbfs as [rest [_ Hb]].
    injection Hb as <-. reflexivity. }
  split; [assumption|]. split.
  { simpl in Hperm. rewrite app_nil_r in Hperm. assumption. }
  destruct (fit_built _ _ _ _ _ _ Hfit Ht) as [_ Hb].
  eapply (bfs_loop_levels est (node_count tree) 0 [tree] []);
    [constructor; [assumption | constructor] | constructor |].
  exact Hbfs.
Qed.

(** Witness for X16: the tree of the end-to-end scenario. *)
Lemma bfs_visits_the_nodes_of_iter_by_levels_witness :
  fit log2_pow2 clf_depth1 (NdArray X_cat) y_cat = Ok fitted_cat /\
  tree_ fitted_cat = Some tree_cat /\
  exists pairs nodes,
    bfs tree_cat = Ok pairs /\
    __iter__ fitted_cat = Ok nodes /\
    hd_error (map fst pairs) = Some tree_cat /\
    Forall (fun p => snd p = dict_values (children (fst p))) pairs /\
    Permutation (map fst pairs) nodes /\
    StronglySorted le (map (fun p => depth (fst p)) pairs).
Proof.
  assert (Hfit : fit log2_pow2 clf_depth1 (NdArray X_cat) y_cat = Ok fitted_cat)
    by (vm_compute; reflexivity).
  assert (Ht : tree_ fitted_cat = Some tree_cat) by (vm_compute; reflexivity).
  split; [exact Hfit|]. split; [exact Ht|].
  exact (bfs_visits_the_nodes_of_iter_by_levels log2_pow2 clf_depth1
           (NdArray X_cat) y_cat fitted_cat tree_cat Hfit Ht).
Defined.

(* ================================================================= *)
(** ** The generated feature names *)

Lemma feature_name_inj (i j : nat) : feature_name i = feature_name j -> i = j.
Proof.
  unfold feature_name. intros H.
  apply (f_equal (fun s => substring 8 (String.length s - 8) s)) in H.
  assert (Hsub : forall s, substring 8 (String.length ("feature_" ++ s) - 8)
                             ("feature_" ++ s) = s).
  { intros s. simpl. rewrite Nat.sub_0_r.
    clear. induction s as [|c s IH]; [reflexivity|]. simpl. f_equal.
    destruct s; [reflexivity|]. exact IH. }
  rewrite !Hsub in H.
  apply (f_equal NilEmpty.uint_of_string) in H. rewrite !NilEmpty.usu in H.
  injection H as H.
  apply (f_equal Nat.of_uint) in H. rewrite !Unsigned.of_to in H. exact H.
Qed.

Lemma feature_names_NoDup (s n : nat) : NoDup (map feature_name (seq s n)).
Proof.
  revert s. induction n as [|n IH]; intros s; simpl; constructor; [|apply IH].
  intros Hin. apply in_map_iff in Hin. destruct Hin as (j & Hj & Hin).
  apply feature_name_inj in Hj. subst j. apply in_seq in Hin. lia.
Qed.

(** [list.index] returns the first position of the name; in a list
    without duplicates this is the position of the name. *)
Lemma index_of_nth (names : list string) : forall i s,
  NoDup names -> nth_error names i = Some s -> index_of (Str s) names = Ok i.
Proof.
  induction names as [|h names IH]; intros [|i] s Hnd Hi; try discriminate.
  - simpl in Hi. injection Hi as ->. cbn [index_of].
    destruct (cell_eq_dec (Str s) (Str s)) as [_|Hn]; [reflexivity|].
    contradiction Hn. reflexivity.
  - simpl in Hi. inversion Hnd as [|? ? Hnot Hnd']; subst. cbn [index_of].
    destruct (cell_eq_dec (Str h) (Str s)) as [Heq|_].
    + injection Heq as ->. contradiction Hnot. eapply nth_error_In. eassumption.
    + rewrite (IH _ _ Hnd' Hi). reflexivity.
Qed.

(** X17. For a list or an array as training input, [fit] names the
    features [feature_0], ..., [feature_(n-1)], one per column and all
    different, so that looking a name up in [feature_names_], as the walk
    of a query does, gives back the column it was made for. *)
Theorem generated_feature_names_index_their_column :
  forall (log2 : Q -> Q) self input X y est,
    fit log2 self input y = Ok est ->
    input = PyList X \/ input = NdArray X ->
    length (feature_names_ est) = shape1 X /\
    NoDup (feature_names_ est) /\
    forall i, i < shape1 X ->
      nth_error (feature_names_ est) i = Some (feature_name i) /\
      index_of (Str (feature_name i)) (feature_names_ est) = Ok i.
Proof.
  intros log2 self input X y est Hfit Hin.
  destruct (fit_call _ _ _ _ _ Hfit)
    as (X' & tree & th & HX & _ & _ & _ & _ & _ & Hnames & _).
  assert (X' = X /\ feature_names_ est = map feature_name (seq 0 (shape1 X))).
  { destruct Hin as [-> | ->]; simpl in HX; injection HX as <-; auto. }
  destruct H as [-> Hn]. rewrite Hn.
  split; [rewrite length_map, length_seq; reflexivity|].
  split; [apply feature_names_NoDup|].
  intros i Hi.
  assert (Hnth : nth_error (map feature_name (seq 0 (shape1 X))) i
                 = Some (feature_name i)).
  { rewrite nth_error_map, nth_error_seq.
    destruct (i <? shape1 X) eqn:E; [reflexivity|].
    apply Nat.ltb_ge in E. lia. }
  split; [assumption|].
  apply index_of_nth; [apply feature_names_NoDup | assumption].
Qed.

(** Witness for X17: the two columns of [X_pair], given as a list. *)
Lemma generated_feature_names_index_their_column_witness :
  fit log2_pow2 clf_depth0 (PyList X_pair) y_two = Ok fitted_pair /\
  (PyList X_pair = PyList X_pair \/ PyList X_pair = NdArray X_pair) /\
  length (feature_names_ fitted_pair) = shape1 X_pair /\
  NoDup (feature_names_ fitted_pair) /\
  forall i, i < shape1 X_pair ->
    nth_error (feature_names_ fitted_pair) i = Some (feature_name i) /\
    index_of (Str (feature_name i)) (feature_names_ fitted_pair) = Ok i.
Proof.
  assert (Hfit : fit log2_pow2 clf_depth0 (PyList X_pair) y_two = Ok fitted_pair)
    by (vm_compute; reflexivity).
  assert (Hin : PyList X_pair = PyList X_pair \/ PyList X_pair = NdArray X_pair)
    by (left; reflexivity).
  split; [exact Hfit|]. split; [exact Hin|].
  exact (generated_feature_names_index_their_column log2_pow2 clf_depth0
           (PyList X_pair) X_pair y_two fitted_pair Hfit Hin).
Defined.

(* ================================================================= *)
(** ** What [fit] refuses *)

(** X18. [fit] refuses its input before it builds anything: an input that
    is neither a list, an array nor a data frame raises [Exception]; an
    empty list raises [IndexError], the first row being read for the names
    before the input is validated; an empty array, and any input whose
    targets are not as many as its rows, raise the [ValueError] of the
    validation. *)
Theorem fit_refuses_malformed_input :
  forall (log2 : Q -> Q) self y,
    fit log2 self OtherType y = Err PyException /\
    fit log2 self (PyList []) y = Err IndexError /\
    fit log2 self (NdArray []) y = Err ValueError /\
    (forall columns, fit log2 self (DataFrame columns []) y = Err ValueError) /\
    (forall input X,
       input_array input = Some X -> X <> [] -> length y <> length X ->
       fit log2 self input y = Err ValueError).
Proof.
  intros log2 self y. repeat split; try reflexivity.
  intros input X HX Hne Hlen.
  assert (Hchk : check_X_y X y = Err ValueError).
  { unfold check_X_y, shape0. apply Nat.eqb_neq in Hlen. rewrite Hlen.
    rewrite andb_false_r. reflexivity. }
  unfold fit.
  destruct input as [X0|X0|columns X0|]; simpl in HX; try discriminate;
    injection HX as ->.
  - destruct X as [|x0 X]; [contradiction Hne; reflexivity|].
    cbn [nth_error of_option bind]. rewrite Hchk. reflexivity.
  - cbn [bind]. rewrite Hchk. reflexivity.
  - cbn [bind]. rewrite Hchk. reflexivity.
Qed.

(* ================================================================= *)
(** ** The counts of a node *)

Lemma sum_indicator_absent (a : cell) (cs : list cell) :
  ~ In a cs -> list_sum (map (fun k => if cell_eq_dec a k then 1 else 0) cs) = 0.
Proof.
  induction cs as [|c cs IH]; simpl; intros Hnot; [reflexivity|].
  destruct (cell_eq_dec a c) as [->|_].
  - contradiction Hnot. left. reflexivity.
  - apply IH. intros H. apply Hnot. right. assumption.
Qed.

Lemma sum_counts_bound (cs y : list cell) :
  NoDup cs ->
  list_sum (map (fun k => count k y) cs) <= length y /\
  (list_sum (map (fun k => count k y) cs) = length y -> incl y cs).
Proof.
  intros Hnd. induction y as [|a y [IHle IHeq]].
  - split; [|intros _ v []]. simpl. clear. induction cs; simpl; auto.
  - rewrite sum_counts_cons. simpl length.
    destruct (in_dec cell_eq_dec a cs) as [Hin|Hnot].
    + rewrite (sum_indicator a cs Hnd Hin). split; [lia|].
      intros H v [<-|Hv]; [assumption|]. apply IHeq; [lia | assumption].
    + rewrite (sum_indicator_absent a cs Hnot). split; lia.
Qed.

(** X19. A node made from a target slice and a list of classes counts, for
    each class of the list and in its order, the instances of that class in
    the slice, zero for a class that does not occur; instances of a class
    that is not in the list are not counted, so that the counts add up to
    [n_samples] exactly when every target is one of the classes. The node
    starts as a leaf without threshold, one level below its parent. *)
Theorem post_init_counts_the_listed_classes :
  forall v b p y cs n,
    DecisionNode_init v b p y cs = Ok n ->
    value n = map (fun k => count k y) cs /\
    n_samples n = length y /\
    depth n = match p with Some q => depth q + 1 | None => 0 end /\
    is_leaf n = true /\ threshold n = None /\
    (NoDup cs -> (list_sum (value n) = n_samples n <-> incl y cs)).
Proof.
  intros v b p y cs n H. apply DecisionNode_init_fields in H.
  destruct H as (_ & Hthr & _ & Hd & _ & Hch & _ & Hval & Hns & _).
  split; [assumption|]. split; [assumption|]. split; [assumption|].
  split; [unfold is_leaf; rewrite Hch; reflexivity|]. split; [assumption|].
  intros Hnd. rewrite Hval, Hns. split.
  - apply sum_counts_bound. assumption.
  - apply sum_counts. assumption.
Qed.

(** Witness for X19: the targets of the end-to-end scenario, counted for
    three classes of which one does not occur. *)
Lemma post_init_counts_the_listed_classes_witness :
  DecisionNode_init (Str "x") None None y_cat
    [Str "maybe"; Str "no"; Str "yes"] = Ok node_counted /\
  value node_counted
    = map (fun k => count k y_cat) [Str "maybe"; Str "no"; Str "yes"] /\
  n_samples node_counted = length y_cat /\
  depth node_counted
    = match @None DecisionNode with Some q => depth q + 1 | None => 0 end /\
  is_leaf node_counted = true /\ threshold node_counted = None /\
  (NoDup [Str "maybe"; Str "no"; Str "yes"] ->
   (list_sum (value node_counted) = n_samples node_counted
    <-> incl y_cat [Str "maybe"; Str "no"; Str "yes"])).
Proof.
  assert (Hn : DecisionNode_init (Str "x") None None y_cat
                 [Str "maybe"; Str "no"; Str "yes"] = Ok node_counted)
    by (vm_compute; reflexivity).
  split; [exact Hn|].
  exact (post_init_counts_the_listed_classes (Str "x") None None y_cat
           [Str "maybe"; Str "no"; Str "yes"] node_counted Hn).
Defined.

(* ================================================================= *)
(** ** The recursion of the builder ends *)

Lemma attach_subtrees_mono build1 build2 : forall subtrees th sn,
  (forall th Xs ys sn b,
     in_fuel (build1 th Xs ys sn b) ->
     build2 th Xs ys sn b = build1 th Xs ys sn b) ->
  in_fuel (attach_subtrees build1 th sn subtrees) ->
  attach_subtrees build2 th sn subtrees = attach_subtrees build1 th sn subtrees.
Proof.
  induction subtrees as [|[[Xs ys] b] rest IH]; intros th sn Hb H; [reflexivity|].
  cbn [attach_subtrees] in *.
  destruct (build1 th Xs ys sn b) as [[c th1]|e] eqn:E.
  - rewrite Hb by (rewrite E; discriminate). rewrite E. cbn [bind] in *.
    apply IH; assumption.
  - rewrite Hb by (rewrite E; exact H). rewrite E. reflexivity.
Qed.

(** More fuel does not change what a call of the builder returns, once
    it returns for another reason than the lack of fuel. *)
Lemma tree_builder_mono log2 self : forall fuel th X y fi pa br d,
  in_fuel (_tree_builder log2 fuel self th X y fi pa br d) ->
  _tree_builder log2 (S fuel) self th X y fi pa br d =
  _tree_builder log2 fuel self th X y fi pa br d.
Proof.
  induction fuel as [|fuel IH]; intros th X y fi pa br d H.
  - contradiction H. reflexivity.
  - revert H. cbn [_tree_builder].
    destruct (np_unique y) as [uy|e]; [|reflexivity]. cbn [bind].
    destruct (length uy =? 1); [reflexivity|].
    destruct (size X =? 0); [reflexivity|].
    destruct (all_rows_equal_first X); [reflexivity|].
    destruct (match max_depth self with Some k => k =? d | None => false end);
      [reflexivity|].
    destruct (length X <? min_samples_split self); [reflexivity|].
    destruct (feature_importances log2 th X y (seq 0 (shape1 X))) as [[gains th1]|e];
      [|reflexivity]. cbn [bind].
    destruct (argmax gains) as [idx|e]; [|reflexivity]. cbn [bind].
    destruct (of_option IndexError (nth_error fi idx)) as [norm|e]; [|reflexivity].
    cbn [bind].
    destruct (of_option IndexError (nth_error (feature_names_ self) norm))
      as [name|e]; [|reflexivity]. cbn [bind].
    destruct (DecisionNode_init (Str name) br pa y (classes_ self)) as [s0|e];
      [|reflexivity]. cbn [bind].
    destruct (column idx X) as [col|e]; [|reflexivity]. cbn [bind].
    match goal with |- in_fuel (bind ?m _) -> bind ?m _ = bind ?m _ =>
      destruct m as [s1|e] end; [|reflexivity]. cbn [bind].
    match goal with |- in_fuel (bind ?m _) -> bind ?m _ = bind ?m _ =>
      destruct m as [levels|e] end; [|reflexivity]. cbn [bind].
    match goal with |- in_fuel (bind ?m _) -> bind ?m _ = bind ?m _ =>
      destruct m as [parts|e] end; [|reflexivity]. cbn [bind].
    match goal with |- in_fuel (bind ?m _) -> bind ?m _ = bind ?m _ =>
      destruct m as [[subtrees fi']|e] end; [|reflexivity]. cbn [bind].
    intros H. apply attach_subtrees_mono; [|exact H].
    intros th0 Xs ys sn b Hb. apply IH. exact Hb.
Qed.

(** X20. The recursion of the builder ends: on a rectangular array the
    calls nest at most [rows + columns + 1] deep, a numerical split leaving
    fewer rows on each side and a categorical split one column less; the
    bound on the recursion in this development never cuts a call short, and
    what a call returns does not depend on it. *)
Theorem builder_recursion_is_bounded :
  forall (log2 : Q -> Q) self th X y feature_indices pa br d fuel,
    rectangular X ->
    shape0 X + shape1 X < fuel ->
    _tree_builder log2 fuel self th X y feature_indices pa br d <> Err OutOfFuel /\
    _tree_builder log2 fuel self th X y feature_indices pa br d =
    _tree_builder log2 (S (shape0 X + shape1 X)) self th X y feature_indices pa br d.
Proof.
  intros log2 self th X y fi pa br d fuel Hrect Hlt.
  split; [apply tree_builder_in_fuel; assumption|].
  induction fuel as [|fuel IH]; [lia|].
  destruct (Nat.eq_dec fuel (shape0 X + shape1 X)) as [->|Hne]; [reflexivity|].
  rewrite tree_builder_mono.
  - apply IH. lia.
  - apply tree_builder_in_fuel; [assumption | lia].
Qed.

(** Witness for X20: the call of the builder on [X_two], with more fuel
    than its two rows and one column ask for. *)
Lemma builder_recursion_is_bounded_witness :
  rectangular X_two /\
  shape0 X_two + shape1 X_two < 7 /\
  _tree_builder log2_pow2 7 fitted_two [] X_two y_two [0] None None 0
    <> Err OutOfFuel /\
  _tree_builder log2_pow2 7 fitted_two [] X_two y_two [0] None None 0 =
  _tree_builder log2_pow2 (S (shape0 X_two + shape1 X_two)) fitted_two []
    X_two y_two [0] None None 0.
Proof.
  assert (Hr : rectangular X_two) by (repeat constructor).
  assert (Hf : shape0 X_two + shape1 X_two < 7) by (vm_compute; lia).
  split; [exact Hr|]. split; [exact Hf|].
  exact (builder_recursion_is_bounded log2_pow2 fitted_two [] X_two y_two [0]
           None None 0 7 Hr Hf).
Defined.

(* ================================================================= *)
(** ** The score of a tree without split *)

Lemma agreements_with_constant (m : cell) (X : matrix) : forall y,
  length X = length y ->
  length (filter (fun p => cell_eqb (fst p) (snd p))
            (combine y (map (fun _ => m) X))) = count m y.
Proof.
  unfold count. induction X as [|x X IH]; intros [|c y] Hlen; try discriminate;
    [reflexivity|].
  injection Hlen as Hlen. cbn [map combine filter fst snd]. unfold cell_eqb at 1.
  cbn [count_occ].
  destruct (cell_eq_dec c m) as [->|Hne]; cbn [length]; rewrite IH by assumption;
    reflexivity.
Qed.

(** X21. The score of an estimator fitted with [max_depth = 0], or on
    fewer instances than [min_samples_split], is, on any valid test data,
    the relative frequency in the test targets of the mode of the training
    targets: such an estimator is the majority-class baseline. *)
Theorem score_without_split_is_majority_frequency :
  forall (log2 : Q -> Q) self input y est Xq yq,
    fit log2 self input y = Ok est ->
    max_depth self = Some 0 \/ length y < min_samples_split self ->
    check_X_y Xq yq = Ok tt ->
    exists m,
      mode y = Ok m /\
      score est Xq yq = Ok (Q_of_nat (count m yq) / Q_of_nat (length yq))%Q.
Proof.
  intros log2 self input y est Xq yq Hfit Hstop Hchk.
  destruct (fit_call _ _ _ _ _ Hfit)
    as (X & tree & th & _ & Hchk0 & _ & _ & Hmd & Hms & _ & Ht & Hb).
  pose proof (check_X_y_aligned _ _ Hchk0) as Hlen.
  assert (Hleaf : is_leaf tree = true).
  { destruct (is_leaf tree) eqn:Hl; [reflexivity|].
    destruct (tree_builder_split _ _ _ _ _ _ _ _ _ _ _ _ Hb Hl)
      as (uy & gains & th1 & idx & norm & name & s0 & col & s1 & levels &
          subtrees & fi' & _ & _ & _ & _ & Hmax & Hmin & _).
    destruct Hstop as [Hs|Hs].
    - rewrite <- Hmd in Hs. specialize (Hmax _ Hs). contradiction Hmax. reflexivity.
    - rewrite <- Hms in Hs. lia. }
  destruct (fit_leaf_rule _ _ _ _ _ _ _ _ Hfit Ht (at_depth_root tree) Hleaf)
    as (_ & uy & _ & Hcases).
  pose proof (tree_builder_fields _ _ _ _ _ _ _ _ _ _ _ _ Hb)
    as (_ & _ & _ & Htg & _).
  rewrite Htg in Hcases.
  assert (Hm : mode y = Ok (feature tree)).
  { destruct Hcases as [(_ & Hm) | [(_ & Hk & _) | (_ & Hm)]];
      [assumption | lia | assumption]. }
  exists (feature tree). split; [assumption|].
  unfold score, fitted_tree. rewrite Ht. cbn [of_option bind]. rewrite Hchk.
  cbn [bind].
  rewrite (predict_leaf _ _ Xq Ht Hleaf (check_X_y_check_array _ _ Hchk)).
  cbn [bind].
  unfold accuracy_score. rewrite agreements_with_constant; [reflexivity|].
  apply check_X_y_aligned. assumption.
Qed.

(** Witness for X21: the end-to-end scenario with [max_depth = 0], scored
    on its training data. *)
Lemma score_without_split_is_majority_frequency_witness :
  fit log2_pow2 clf_depth0 (NdArray X_cat) y_cat = Ok fitted_stump /\
  (max_depth clf_depth0 = Some 0 \/ length y_cat < min_samples_split clf_depth0) /\
  check_X_y X_cat y_cat = Ok tt /\
  exists m,
    mode y_cat = Ok m /\
    score fitted_stump X_cat y_cat
      = Ok (Q_of_nat (count m y_cat) / Q_of_nat (length y_cat))%Q.
Proof.
  assert (Hfit : fit log2_pow2 clf_depth0 (NdArray X_cat) y_cat = Ok fitted_stump)
    by (vm_compute; reflexivity).
  assert (Hno : max_depth clf_depth0 = Some 0
                \/ length y_cat < min_samples_split clf_depth0)
    by (left; reflexivity).
  assert (Hchk : check_X_y X_cat y_cat = Ok tt) by (vm_compute; reflexivity).
  split; [exact Hfit|]. split; [exact Hno|]. split; [exact Hchk|].
  exact (score_without_split_is_majority_frequency log2_pow2 clf_depth0
           (NdArray X_cat) y_cat fitted_stump X_cat y_cat Hfit Hno Hchk).
Defined.

(* ================================================================= *)
(** ** The text of a fitted tree *)

(** A child of a node of a fitted tree records the label of its edge, and
    the parent it holds has the threshold of the node. *)
Lemma fit_child_parent log2 self input y est tree k n b c :
  fit log2 self input y = Ok est ->
  tree_ est = Some tree ->
  at_depth tree k n ->
  In (b, c) (children n) ->
  branch c = Some b /\
  exists p, parent c = Some p /\ threshold p = threshold n.
Proof.
  intros Hfit Ht Hat Hin.
  assert (Hleaf : is_leaf n = false).
  { unfold is_leaf. destruct (children n); [destruct Hin | reflexivity]. }
  destruct (fit_internal_node _ _ _ _ _ _ _ _ Hfit Ht Hat Hleaf)
    as (fuel & Xn & yn & idx & col & name & s0 & s1 & subtrees & fi' &
        _ & _ & _ & _ & _ & _ & _ & _ & _ & _ & _ & _ & _ & Hkids).
  apply in_split in Hin. destruct Hin as (l1 & l2 & Hsplit).
  destruct (Hkids _ _ _ _ Hsplit) as (Xs & ys & th0 & th1 & _ & Hc).
  apply tree_builder_fields in Hc. destruct Hc as (Hb & _ & Hp & _).
  split; [assumption|]. exists (set_children n l1). split; [assumption | reflexivity].
Qed.

Lemma string_app_assoc (a b c : string) : ((a ++ b) ++ c = a ++ (b ++ c))%string.
Proof.
  induction a as [|x a IH]; simpl; [reflexivity|]. f_equal. exact IH.
Qed.

Lemma line_head (spacing info rest : string) :
  (spacing ++ " " ++ info ++ rest = (spacing ++ " " ++ info) ++ rest)%string.
Proof.
  rewrite !string_app_assoc. reflexivity.
Qed.

Section DisplayFacts.

Variable str_num : Qc -> string.
Variable format_2f : Qc -> string.
Variable float_of_string : string -> result Qc.
Variable _estimator_type : string.

(** X22. In the text of a fitted tree, the child under ["True"] of a node
    with a threshold [T] other than zero is marked [<= T] and the child
    under ["False"] is marked [> T]; when the threshold is zero, which
    counts as false, the two are marked with their raw labels [True] and
    [False]. *)
Theorem threshold_children_are_marked_le_and_gt :
  forall (log2 : Q -> Q) self input y est tree k n q,
    fit log2 self input y = Ok est ->
    tree_ est = Some tree ->
    at_depth tree k n ->
    threshold n = Some (Num q) ->
    exists cT cF headT headF,
      children n = [(Str "True", cT); (Str "False", cF)] /\
      (q <> Q2Qc 0 ->
       DecisionNode_str str_num format_2f float_of_string _estimator_type cT
         = Ok (headT ++ " [<= " ++ format_2f q ++ "]")%string /\
       DecisionNode_str str_num format_2f float_of_string _estimator_type cF
         = Ok (headF ++ " [> " ++ format_2f q ++ "]")%string) /\
      (q = Q2Qc 0 ->
       DecisionNode_str str_num format_2f float_of_string _estimator_type cT
         = Ok (headT ++ " [True]")%string /\
       DecisionNode_str str_num format_2f float_of_string _estimator_type cF
         = Ok (headF ++ " [False]")%string).
Proof.
  intros log2 self input y est tree k n q Hfit Ht Hat Hthr.
  destruct (fit_threshold_node _ _ _ _ _ _ _ _ _ Hfit Ht Hat Hthr)
    as (q' & cT & cF & mask & _ & Hch & _).
  destruct (fit_child_parent _ _ _ _ _ _ _ _ (Str "True") cT Hfit Ht Hat)
    as (HbT & pT & HpT & HtT); [rewrite Hch; left; reflexivity|].
  destruct (fit_child_parent _ _ _ _ _ _ _ _ (Str "False") cF Hfit Ht Hat)
    as (HbF & pF & HpF & HtF); [rewrite Hch; right; left; reflexivity|].
  rewrite Hthr in HtT, HtF.
  exists cT, cF.
  unfold DecisionNode_str.
  rewrite HpT, HpF, HtT, HtF, HbT, HbF. cbn [truthy py_float].
  match goal with
  | |- context [bind _ (fun b => Ok (?sp ++ " " ++ ?info ++ " [" ++ b ++ "]")%string)
                = Ok (_ ++ " [<= " ++ _ ++ "]")%string] =>
      exists (sp ++ " " ++ info)%string
  end.
  match goal with
  | |- context [bind _ (fun b => Ok (?sp ++ " " ++ ?info ++ " [" ++ b ++ "]")%string)
                = Ok (_ ++ " [> " ++ _ ++ "]")%string] =>
      exists (sp ++ " " ++ info)%string
  end.
  split; [exact Hch|].
  destruct (option_cell_eq_dec (Some (Str "True")) (Some (Str "True")))
    as [_|Hn]; [|contradiction Hn; reflexivity].
  destruct (option_cell_eq_dec (Some (Str "False")) (Some (Str "True")))
    as [He|_]; [discriminate He|].
  destruct (Qc_eq_dec q (Q2Qc 0)) as [He|Hne]; cbn [bind str_option str_cell].
  - split; [intros Hq; contradiction|]. intros _.
    rewrite <- !line_head. split; reflexivity.
  - split; [|intros Hq; contradiction]. intros _.
    rewrite <- !line_head. split; reflexivity.
Qed.

Lemma mapM_total (A B : Type) (f : A -> result B) (l : list A) :
  (forall a, In a l -> exists b, f a = Ok b) -> exists r, mapM f l = Ok r.
Proof.
  induction l as [|a l IH]; intros H; [exists []; reflexivity|].
  destruct (H a (or_introl eq_refl)) as [b Hb].
  destruct IH as [r Hr]; [intros a' Ha'; apply H; right; assumption|].
  exists (b :: r). simpl. rewrite Hb. cbn [bind]. rewrite Hr. reflexivity.
Qed.

(** The line of every node of a fitted tree can be made: the thresholds
    the children read in their parents are numbers. *)
Lemma node_str_fitted (log2 : Q -> Q) self input y est tree k n :
  fit log2 self input y = Ok est ->
  tree_ est = Some tree ->
  at_depth tree k n ->
  exists line,
    DecisionNode_str str_num format_2f float_of_string _estimator_type n
      = Ok line.
Proof.
  intros Hfit Ht Hat. unfold DecisionNode_str.
  inversion Hat as [|k' n' b c Hat' Hin]; subst.
  - rewrite (fit_root_parent _ _ _ _ _ _ Hfit Ht). eauto.
  - destruct (fit_child_parent _ _ _ _ _ _ _ _ b n Hfit Ht Hat' Hin)
      as (_ & p & Hp & Hthr).
    rewrite Hp, Hthr.
    destruct (threshold n') as [t|] eqn:Htn; [|cbn [truthy bind]; eauto].
    destruct (fit_threshold_node _ _ _ _ _ _ _ _ _ Hfit Ht Hat' Htn)
      as (q & _ & _ & _ & -> & _).
    cbn [truthy py_float].
    destruct (Qc_eq_dec q (Q2Qc 0)); cbn [bind]; [eauto|].
    destruct (option_cell_eq_dec (branch n) (Some (Str "True"))); cbn [bind]; eauto.
Qed.

(** X23. The text of a fitted estimator can always be made: it is the
    lines of the nodes in the order of [__iter__], one per node, joined by
    newlines; the first is the line of the root, which carries no branch
    mark. *)
Theorem text_of_a_fitted_tree_has_one_line_per_node :
  forall (log2 : Q -> Q) self input y est tree,
    fit log2 self input y = Ok est ->
    tree_ est = Some tree ->
    exists nodes lines,
      __iter__ est = Ok nodes /\
      mapM (DecisionNode_str str_num format_2f float_of_string _estimator_type)
           nodes = Ok lines /\
      __str__ str_num format_2f float_of_string _estimator_type est
        = Ok (String.concat (String "010" EmptyString) lines) /\
      length lines = node_count tree /\
      hd_error lines = Some ((if is_leaf tree then "└──" else "┌──") ++ " " ++
                          (if is_leaf tree && String.eqb _estimator_type "regressor"
                           then "target: " ++ str_cell str_num (feature tree)
                           else if is_leaf tree
                                   && String.eqb _estimator_type "classifier"
                           then "class: " ++ str_cell str_num (feature tree)
                           else str_cell str_num (feature tree)))%string.
Proof.
  intros log2 self input y est tree Hfit Ht.
  pose proof (iter_preorder _ _ Ht) as Hiter.
  destruct (mapM_total _ _
              (DecisionNode_str str_num format_2f float_of_string _estimator_type)
              (preorder tree)) as [lines Hlines].
  { intros n Hn. apply preorder_in_tree in Hn. destruct Hn as [k Hk].
    eapply node_str_fitted; eassumption. }
  assert (Hroot :
            DecisionNode_str str_num format_2f float_of_string _estimator_type tree =
            Ok ((if is_leaf tree then "└──" else "┌──") ++ " " ++
                (if is_leaf tree && String.eqb _estimator_type "regressor"
                 then "target: " ++ str_cell str_num (feature tree)
                 else if is_leaf tree && String.eqb _estimator_type "classifier"
                 then "class: " ++ str_cell str_num (feature tree)
                 else str_cell str_num (feature tree)))%string).
  { unfold DecisionNode_str.
    rewrite (fit_root_parent _ _ _ _ _ _ Hfit Ht).
    destruct (fit_built _ _ _ _ _ _ Hfit Ht) as [_ Hb].
    inversion Hb as [? ? Hd _ _ _ _]; subst. rewrite Hd. cbn [str_times Nat.eqb negb].
    destruct (is_leaf tree); cbn [andb];
      destruct (String.eqb _estimator_type "classifier");
      destruct (String.eqb _estimator_type "regressor"); try reflexivity. }
  exists (preorder tree), lines.
  split; [assumption|]. split; [assumption|]. split.
  { unfold __str__, fitted_tree. rewrite Ht, Hiter. cbn [bind of_option].
    rewrite Hlines. reflexivity. }
  split.
  { rewrite (mapM_length _ _ _ _ _ Hlines). apply preorder_length. }
  rewrite preorder_unfold in Hlines. cbn [mapM] in Hlines.
  rewrite Hroot in Hlines. cbn [bind] in Hlines.
  apply bind_Ok in Hlines. destruct Hlines as [rest [_ Hl]].
  injection Hl as <-. reflexivity.
Qed.

End DisplayFacts.

(** Witness for X22: the root of the tree fitted on [X_two], in the text
    of a classifier. *)
Lemma threshold_children_are_marked_le_and_gt_witness :
  fit log2_pow2 clf (NdArray X_two) y_two = Ok fitted_two /\
  tree_ fitted_two = Some tree_two /\
  at_depth tree_two 0 tree_two /\
  threshold tree_two = Some (Num (Q2Qc (inject_Z 2))) /\
  exists cT cF headT headF,
    children tree_two = [(Str "True", cT); (Str "False", cF)] /\
    (Q2Qc (inject_Z 2) <> Q2Qc 0 ->
     DecisionNode_str str_int format_2f_int float_of_word "classifier" cT
       = Ok (headT ++ " [<= " ++ format_2f_int (Q2Qc (inject_Z 2)) ++ "]")%string /\
     DecisionNode_str str_int format_2f_int float_of_word "classifier" cF
       = Ok (headF ++ " [> " ++ format_2f_int (Q2Qc (inject_Z 2)) ++ "]")%string) /\
    (Q2Qc (inject_Z 2) = Q2Qc 0 ->
     DecisionNode_str str_int format_2f_int float_of_word "classifier" cT
       = Ok (headT ++ " [True]")%string /\
     DecisionNode_str str_int format_2f_int float_of_word "classifier" cF
       = Ok (headF ++ " [False]")%string).
Proof.
  assert (Hfit : fit log2_pow2 clf (NdArray X_two) y_two = Ok fitted_two)
    by (vm_compute; reflexivity).
  assert (Ht : tree_ fitted_two = Some tree_two) by (vm_compute; reflexivity).
  assert (Hthr : threshold tree_two = Some (Num (Q2Qc (inject_Z 2))))
    by (vm_compute; reflexivity).
  split; [exact Hfit|]. split; [exact Ht|]. split; [apply at_depth_root|].
  split; [exact Hthr|].
  exact (threshold_children_are_marked_le_and_gt str_int format_2f_int
           float_of_word "classifier" log2_pow2 clf (NdArray X_two) y_two
           fitted_two tree_two 0 tree_two (Q2Qc (inject_Z 2)) Hfit Ht
           (at_depth_root tree_two) Hthr).
Defined.

(** Witness for X23: the text of the tree fitted on [X_two]. *)
Lemma text_of_a_fitted_tree_has_one_line_per_node_witness :
  fit log2_pow2 clf (NdArray X_two) y_two = Ok fitted_two /\
  tree_ fitted_two = Some tree_two /\
  exists nodes lines,
    __iter__ fitted_two = Ok nodes /\
    mapM (DecisionNode_str str_int format_2f_int float_of_word "classifier")
         nodes = Ok lines /\
    __str__ str_int format_2f_int float_of_word "classifier" fitted_two
      = Ok (String.concat (String "010" EmptyString) lines) /\
    length lines = node_count tree_two /\
    hd_error lines
      = Some ((if is_leaf tree_two then "└──" else "┌──") ++ " " ++
              (if is_leaf tree_two && String.eqb "classifier" "regressor"
               then "target: " ++ str_cell str_int (feature tree_two)
               else if is_leaf tree_two && String.eqb "classifier" "classifier"
               then "class: " ++ str_cell str_int (feature tree_two)
               else str_cell str_int (feature tree_two)))%string.
Proof.
  assert (Hfit : fit log2_pow2 clf (NdArray X_two) y_two = Ok fitted_two)
    by (vm_compute; reflexivity).
  assert (Ht : tree_ fitted_two = Some tree_two) by (vm_compute; reflexivity).
  split; [exact Hfit|]. split; [exact Ht|].
  exact (text_of_a_fitted_tree_has_one_line_per_node str_int format_2f_int
           float_of_word "classifier" log2_pow2 clf (NdArray X_two) y_two
           fitted_two tree_two Hfit Ht).
Defined.

(* ================================================================= *)
(** ** A categorical split at the root *)

Lemma select_eq_length (col y : list cell) (level : cell) :
  length col = length y ->
  length (select (map (fun v => cell_eqb v level) col) y) = count level col.
Proof.
  unfold select, count. revert y.
  induction col as [|c col IH]; intros [|h y] Hlen; try discriminate; [reflexivity|].
  injection Hlen as Hlen. cbn [map combine filter fst count_occ]. unfold cell_eqb at 1.
  destruct (cell_eq_dec c level) as [He|Hne]; cbn [map length]; rewrite IH by assumption;
    reflexivity.
Qed.

(** X25. When the root of a fitted tree splits a categorical feature, it
    has one child per distinct value of the column of that feature in the
    training data, in sorted order; the child of a value holds the targets
    of the rows with that value, at least one; the sample counts of the
    children add up to the number of training instances. *)
Theorem categorical_root_has_one_child_per_value :
  forall (log2 : Q -> Q) self input X y est tree,
    fit log2 self input y = Ok est ->
    tree_ est = Some tree ->
    input_array input = Some X ->
    is_leaf tree = false ->
    threshold tree = None ->
    exists idx col,
      column idx X = Ok col /\
      np_unique col = Ok (map fst (children tree)) /\
      (forall b c, In (b, c) (children tree) ->
         target c = select (map (fun v => cell_eqb v b) col) y /\
         n_samples c = count b col /\
         0 < n_samples c) /\
      list_sum (map (fun kc => n_samples (snd kc)) (children tree)) = length y.
Proof.
  intros log2 self input X y est tree Hfit Ht HX Hleaf Hthr.
  destruct (fit_internal_node _ _ _ _ _ _ _ _ Hfit Ht (at_depth_root tree) Hleaf)
    as (fuel & Xn & yn & idx & col & name & s0 & s1 & subtrees & fi' &
        Hlen & _ & _ & _ & Hroot & Hs0 & Hidx & Hcol & _ & Hcases & Hn & _ & Hkeys &
        Hkids).
  destruct (Hroot eq_refl) as [HXn ->]. rewrite HX in HXn. injection HXn as <-.
  assert (Ht1 : threshold tree = threshold s1).
  { rewrite Hn, attach_all_set_children. reflexivity. }
  destruct Hcases as [(t & mask & _ & -> & _) | (levels & Hcat & -> & Hlev & ->)].
  { simpl in Ht1. congruence. }
  assert (Hu : np_unique col = Ok levels).
  { destruct (fit_call _ _ _ _ _ Hfit) as (X' & tree' & th & HX' & _ & _ & Hul & _).
    rewrite HX in HX'. injection HX' as <-. unfold unique_levels in Hul.
    destruct (unique_levels_entries X _ _ _ Hul idx) as (col' & Hcol' & Hc); [lia|].
    rewrite Hcol in Hcol'. injection Hcol' as <-.
    destruct Hc as [(Hnum & _) | (_ & u & Hu & Hget)]; congruence. }
  assert (Hlc : length col = length y).
  { apply mapM_length in Hcol. congruence. }
  rewrite map_map in Hkeys. simpl in Hkeys. rewrite map_id in Hkeys.
  assert (Hchild : forall b c, In (b, c) (children tree) ->
            target c = select (map (fun v => cell_eqb v b) col) y /\
            n_samples c = count b col /\ 0 < n_samples c).
  { intros b c Hin. apply in_split in Hin. destruct Hin as (l1 & l2 & Hsplit).
    destruct (Hkids _ _ _ _ Hsplit) as (Xs & ys & th0 & th1 & Hnth & Hc).
    apply nth_error_In in Hnth. apply in_map_iff in Hnth.
    destruct Hnth as (level & Heq & _). unfold categorical_part in Heq.
    injection Heq as <- <- ->.
    apply tree_builder_fields in Hc. destruct Hc as (_ & _ & _ & Htg & _ & Hns & _).
    rewrite Hns, Htg. split; [reflexivity|].
    rewrite select_eq_length by assumption. split; [reflexivity|].
    assert (Hb : In b levels).
    { rewrite <- Hkeys, Hsplit, map_app. apply in_or_app. right. left. reflexivity. }
    apply (proj1 (np_unique_In _ _ b Hu)) in Hb.
    unfold count. apply (count_occ_In cell_eq_dec). assumption. }
  exists idx, col. split; [assumption|]. split; [rewrite Hkeys; assumption|].
  split; [assumption|].
  rewrite (map_ext_in _ (fun kc => count (fst kc) col)).
  - rewrite <- (map_map fst (fun b => count b col)), Hkeys, <- Hlc.
    apply sum_counts.
    + eapply np_unique_NoDup. eassumption.
    + intros v Hv. apply (proj2 (np_unique_In _ _ v Hu)). assumption.
  - intros [b c] Hin. simpl. apply (Hchild b c Hin).
Qed.

(** Witness for X25: the root of the end-to-end scenario. *)
Lemma categorical_root_has_one_child_per_value_witness :
  fit log2_pow2 clf_depth1 (NdArray X_cat) y_cat = Ok fitted_cat /\
  tree_ fitted_cat = Some tree_cat /\
  input_array (NdArray X_cat) = Some X_cat /\
  is_leaf tree_cat = false /\
  threshold tree_cat = None /\
  exists idx col,
    column idx X_cat = Ok col /\
    np_unique col = Ok (map fst (children tree_cat)) /\
    (forall b c, In (b, c) (children tree_cat) ->
       target c = select (map (fun v => cell_eqb v b) col) y_cat /\
       n_samples c = count b col /\
       0 < n_samples c) /\
    list_sum (map (fun kc => n_samples (snd kc)) (children tree_cat))
      = length y_cat.
Proof.
  assert (Hfit : fit log2_pow2 clf_depth1 (NdArray X_cat) y_cat = Ok fitted_cat)
    by (vm_compute; reflexivity).
  assert (Ht : tree_ fitted_cat = Some tree_cat) by (vm_compute; reflexivity).
  assert (Hin : input_array (NdArray X_cat) = Some X_cat) by reflexivity.
  assert (Hleaf : is_leaf tree_cat = false) by (vm_compute; reflexivity).
  assert (Hthr : threshold tree_cat = None) by (vm_compute; reflexivity).
  split; [exact Hfit|]. split; [exact Ht|]. split; [exact Hin|].
  split; [exact Hleaf|]. split; [exact Hthr|].
  exact (categorical_root_has_one_child_per_value log2_pow2 clf_depth1
           (NdArray X_cat) X_cat y_cat fitted_cat tree_cat Hfit Ht Hin Hleaf
           Hthr).
Defined.

(** ** Leaves on numerical data *)

Lemma Permutation_leaf_samples (l l' : list DecisionNode) :
  Permutation l l' ->
  list_sum (map n_samples (filter is_leaf l)) =
  list_sum (map n_samples (filter is_leaf l')).
Proof.
  induction 1 as [|x l l' _ IH|x z l|l l' l'' _ IH1 _ IH2]; simpl.
  - reflexivity.
  - destruct (is_leaf x); simpl; congruence.
  - destruct (is_leaf x), (is_leaf z); simpl; lia.
  - congruence.
Qed.

(** On training data without any string, a leaf of the fitted tree holds
    at least one instance and is labelled by the mode of its own
    targets. *)
Lemma numerical_leaf log2 self input X y est tree k n :
  fit log2 self input y = Ok est ->
  tree_ est = Some tree ->
  input_array input = Some X ->
  Forall (fun r => forallb is_num r = true) X ->
  at_depth tree k n ->
  is_leaf n = true ->
  mode (target n) = Ok (feature n) /\ 0 < n_samples n /\
  n_samples n = length (target n) /\
  value n = map (fun c => count c (target n)) (classes_ est).
Proof.
  intros Hfit Ht HX Hnum Hat Hleaf.
  assert (Hlevels : forall i l,
            dict_get Nat.eq_dec i (unique_levels_ est) = Some l -> l <> []).
  { intros i l Hl. eapply fit_levels; eassumption. }
  assert (Hcall : exists fuel th0 Xn yn fin th1,
            (k = 0 \/ size Xn <> 0) /\
            _tree_builder log2 (S fuel) est th0 Xn yn fin (parent n) (branch n) k
            = Ok (n, th1)).
  { inversion Hat as [|k' n' b c Hat' Hin]; subst.
    - destruct (fit_nodes_calls _ _ _ _ _ _ _ _ Hfit Ht Hat)
        as (fuel & th0 & Xn & yn & fin & th1 & _ & _ & _ & Hn & _).
      exists fuel, th0, Xn, yn, fin, th1. split; [left; reflexivity | assumption].
    - assert (Hl' : is_leaf n' = false).
      { unfold is_leaf. destruct (children n'); [destruct Hin | reflexivity]. }
      destruct (numerical_data_thresholds _ _ _ _ _ _ _ _ _ Hfit Ht HX Hnum Hat' Hl')
        as (t & name & Hthr & _).
      destruct (fit_internal_node _ _ _ _ _ _ _ _ Hfit Ht Hat' Hl')
        as (fuel & Xn & yn & idx & col & name' & s0 & s1 & subtrees & fi' &
            _ & _ & _ & _ & _ & Hs0 & _ & Hcol & _ & Hcases & Hn' & _ & _ & Hkids).
      assert (Ht1 : threshold n' = threshold s1).
      { rewrite Hn', attach_all_set_children. reflexivity. }
      apply init_threshold in Hs0.
      destruct Hcases as [(t' & mask & _ & _ & _ & Hne1 & Hne2 & ->)
                         | (levels & _ & -> & _)]; [|congruence].
      apply in_split in Hin. destruct Hin as (l1 & l2 & Hsplit).
      destruct (Hkids _ _ _ _ Hsplit) as (Xs & ys & th0 & th1 & Hnth & Hc).
      apply nth_error_In in Hnth.
      assert (Hsz : size Xs <> 0).
      { assert (HXs : Xs <> [] /\ incl Xs Xn).
        { destruct Hnth as [Heq|[Heq|[]]]; injection Heq as <- _ _;
            (split; [assumption | apply select_incl]). }
        destruct HXs as [Hne Hsub].
        destruct Xs as [|r Xs]; [contradiction Hne; reflexivity|].
        assert (Hr : In r Xn) by (apply Hsub; left; reflexivity).
        apply In_nth_error in Hr. destruct Hr as [i Hi].
        destruct (mapM_nth _ _ _ _ _ _ _ Hcol Hi) as (v & _ & Hv).
        apply of_option_Ok in Hv. unfold size, shape0, shape1.
        destruct r as [|c0 r]; [destruct idx; discriminate|]. simpl. lia. }
      destruct fuel as [|fuel]; [discriminate|].
      pose proof (tree_builder_fields _ _ _ _ _ _ _ _ _ _ _ _ Hc) as (Hb & _ & Hp & _).
      exists fuel, th0, Xs, ys, fi', th1. split; [right; assumption|].
      rewrite Hb, Hp. replace (S k') with (k' + 1) by lia. exact Hc. }
  destruct Hcall as (fuel & th0 & Xn & yn & fin & th1 & Hsz & Hn).
  pose proof (tree_builder_fields _ _ _ _ _ _ _ _ _ _ _ _ Hn)
    as (_ & _ & Hpar & Htg & Hval & Hns & _).
  destruct (tree_builder_leaf _ _ _ _ _ _ _ _ _ _ _ _ Hlevels Hn Hleaf)
    as (uy & m & Huy & Hinit & Hcases).
  apply DecisionNode_init_fields in Hinit. destruct Hinit as (Hf & _).
  assert (Hm : mode yn = Ok m).
  { destruct Hcases as [(_ & Hm) | [(_ & Hz & p & Hp & _) | (_ & _ & Hm & _)]];
      try assumption.
    destruct Hsz as [-> | Hsz]; [|contradiction].
    inversion Hat; subst.
    rewrite (fit_root_parent _ _ _ _ _ _ Hfit Ht) in Hp. discriminate. }
  rewrite Htg, Hf, Hns, Hval. split; [assumption|]. split.
  - apply mode_Ok_nonempty in Hm. destruct yn; [contradiction Hm; reflexivity|].
    simpl. lia.
  - split; reflexivity.
Qed.

(* ================================================================= *)
(** ** The leaves of a tree fitted on numbers *)

Lemma mapM_Forall2 (A B : Type) (f : A -> result B) (l : list A) (r : list B) :
  mapM f l = Ok r -> Forall2 (fun a b => f a = Ok b) l r.
Proof.
  revert r. induction l as [|a l IH]; simpl; intros r H.
  - injection H as <-. constructor.
  - inv_bind H. injection H as <-. constructor; [assumption | apply IH; assumption].
Qed.

Lemma frequency_le (a b n : nat) :
  a <= b -> (Q_of_nat a / Q_of_nat n <= Q_of_nat b / Q_of_nat n)%Q.
Proof.
  intros Hle. unfold Qdiv. apply Qmult_le_compat_r.
  - unfold Q_of_nat. rewrite <- Zle_Qle. lia.
  - apply Qinv_le_0_compat. unfold Q_of_nat.
    replace 0%Q with (inject_Z 0) by reflexivity. rewrite <- Zle_Qle. lia.
Qed.

(** X26. For an estimator fitted on training data without any string, the
    label [predict] returns for a row is a class whose probability in the
    row [predict_proba] returns is the greatest: the label of a leaf is
    the most common class among the instances of the leaf. *)
Theorem numerical_prediction_is_the_likeliest_class :
  forall (log2 : Q -> Q) self input X y est Xq labels rows,
    fit log2 self input y = Ok est ->
    input_array input = Some X ->
    Forall (fun r => forallb is_num r = true) X ->
    predict est Xq = Ok labels ->
    predict_proba est Xq = Ok rows ->
    Forall2 (fun label row =>
               exists i p,
                 nth_error (classes_ est) i = Some label /\
                 nth_error row i = Some p /\
                 forall j p', nth_error row j = Some p' -> (p' <= p)%Q)
            labels rows.
Proof.
  intros log2 self input X y est Xq labels rows Hfit HX Hnum Hp Hpp.
  destruct (predict_Ok _ _ _ Hp) as (tree & paths & Htree & Hchk & Hpaths & ->).
  rewrite (predict_proba_valid _ _ _ Htree Hchk), Hpaths in Hpp.
  cbn [bind] in Hpp.
  assert (Hleaves : forall leaf, In leaf paths ->
            exists k, at_depth tree k leaf /\ is_leaf leaf = true).
  { intros leaf Hin. destruct (mapM_In _ _ _ _ _ _ Hpaths Hin) as (x & _ & Hwalk).
    apply tree_walk_in_tree in Hwalk. destruct Hwalk as [[k Hat] Hl]. eauto. }
  apply mapM_Forall2 in Hpp. clear Hp Hpaths.
  induction Hpp as [|leaf row paths rows Hrow _ IH]; [constructor|].
  cbn [map]. constructor; [|apply IH; intros l Hl; apply Hleaves; right; assumption].
  destruct (Hleaves leaf (or_introl eq_refl)) as (k & Hat & Hl).
  destruct (numerical_leaf _ _ _ _ _ _ _ _ _ Hfit Htree HX Hnum Hat Hl)
    as (Hm & Hpos & Hns & Hval).
  destruct (mode_most_common _ _ Hm) as [Hin Hmax].
  assert (Hcl : In (feature leaf) (classes_ est)).
  { destruct (fit_leaf_rule _ _ _ _ _ _ _ _ Hfit Htree Hat Hl) as (Hincl & _).
    destruct (fit_call _ _ _ _ _ Hfit) as (X' & tree' & th & _ & _ & Hu & _).
    apply (proj2 (np_unique_In _ _ _ Hu)). apply Hincl. assumption. }
  apply In_nth_error in Hcl. destruct Hcl as [i Hi].
  unfold compute_class_proba in Hrow.
  destruct (n_samples leaf =? 0) eqn:E; [apply Nat.eqb_eq in E; lia|].
  injection Hrow as <-. rewrite Hval, map_map.
  exists i. eexists. split; [exact Hi|]. split.
  - rewrite nth_error_map, Hi. reflexivity.
  - intros j p' Hj. rewrite nth_error_map in Hj.
    destruct (nth_error (classes_ est) j) as [c|]; [|discriminate].
    injection Hj as <-. apply frequency_le. apply Hmax.
Qed.

(** Witness for X26: the training rows of [X_two] as queries. *)
Lemma numerical_prediction_is_the_likeliest_class_witness :
  fit log2_pow2 clf (NdArray X_two) y_two = Ok fitted_two /\
  input_array (NdArray X_two) = Some X_two /\
  Forall (fun r => forallb is_num r = true) X_two /\
  predict fitted_two X_two = Ok [Str "b"; Str "b"] /\
  predict_proba fitted_two X_two = Ok proba_two /\
  Forall2 (fun label row =>
             exists i p,
               nth_error (classes_ fitted_two) i = Some label /\
               nth_error row i = Some p /\
               forall j p', nth_error row j = Some p' -> (p' <= p)%Q)
          [Str "b"; Str "b"] proba_two.
Proof.
  assert (Hfit : fit log2_pow2 clf (NdArray X_two) y_two = Ok fitted_two)
    by (vm_compute; reflexivity).
  assert (Hin : input_array (NdArray X_two) = Some X_two) by reflexivity.
  assert (HX : Forall (fun r => forallb is_num r = true) X_two)
    by (repeat constructor).
  assert (Hp : predict fitted_two X_two = Ok [Str "b"; Str "b"])
    by (vm_compute; reflexivity).
  assert (Hpp : predict_proba fitted_two X_two = Ok proba_two)
    by (vm_compute; reflexivity).
  split; [exact Hfit|]. split; [exact Hin|]. split; [exact HX|].
  split; [exact Hp|]. split; [exact Hpp|].
  exact (numerical_prediction_is_the_likeliest_class log2_pow2 clf
           (NdArray X_two) X_two y_two fitted_two X_two [Str "b"; Str "b"]
           proba_two Hfit Hin HX Hp Hpp).
Defined.

(** X27. In a tree fitted on training data without any string, every
    training instance is counted in exactly one leaf: the sample counts of
    the leaves [__iter__] yields add up to the number of training
    instances. *)
Theorem numerical_leaves_share_out_the_training_instances :
  forall (log2 : Q -> Q) self input X y est,
    fit log2 self input y = Ok est ->
    input_array input = Some X ->
    Forall (fun r => forallb is_num r = true) X ->
    exists nodes,
      __iter__ est = Ok nodes /\
      list_sum (map n_samples (filter is_leaf nodes)) = length y.
Proof.
  intros log2 self input X y est Hfit HX Hnum.
  destruct (fit_call _ _ _ _ _ Hfit)
    as (X' & tree & th & _ & _ & _ & _ & _ & _ & _ & Ht & Hb).
  exists (preorder tree). split; [apply iter_preorder; assumption|].
  apply tree_builder_fields in Hb. destruct Hb as (_ & _ & _ & _ & _ & Hroot & _).
  rewrite <- Hroot.
  assert (Hsub : forall n k, at_depth tree k n ->
            list_sum (map n_samples (filter is_leaf (preorder n))) = n_samples n).
  { intros n. induction n as [n IH] using DecisionNode_children_ind. intros k Hat.
    destruct (is_leaf n) eqn:Hleaf.
    - rewrite preorder_unfold. unfold is_leaf in Hleaf.
      destruct (children n) eqn:Hch; [|discriminate]. simpl.
      unfold is_leaf. rewrite Hch. simpl. lia.
    - destruct (numerical_data_thresholds _ _ _ _ _ _ _ _ _ Hfit Ht HX Hnum Hat Hleaf)
        as (t & name & Hthr & _).
      destruct (fit_threshold_node _ _ _ _ _ _ _ _ _ Hfit Ht Hat Hthr)
        as (q & cT & cF & mask & _ & Hch & Hlm & HtT & HtF & HnT & HnF & Hn & _).
      rewrite (Permutation_leaf_samples _ _ (preorder_children_perm n)).
      cbn [filter]. rewrite Hleaf, Hch. cbn [dict_values map snd flat_map].
      rewrite app_nil_r, filter_app, map_app, list_sum_app.
      rewrite (IH (Str "True") cT) with (k := S k);
        [|rewrite Hch; left; reflexivity
         |eapply at_depth_child; [eassumption | rewrite Hch; left; reflexivity]].
      rewrite (IH (Str "False") cF) with (k := S k);
        [|rewrite Hch; right; left; reflexivity
         |eapply at_depth_child; [eassumption | rewrite Hch; right; left; reflexivity]].
      rewrite HnT, HnF, Hn, HtT, HtF. apply select_split_length. assumption. }
  apply (Hsub tree 0). apply at_depth_root.
Qed.

(** Witness for X27: the tree fitted on [X_two]. *)
Lemma numerical_leaves_share_out_the_training_instances_witness :
  fit log2_pow2 clf (NdArray X_two) y_two = Ok fitted_two /\
  input_array (NdArray X_two) = Some X_two /\
  Forall (fun r => forallb is_num r = true) X_two /\
  exists nodes,
    __iter__ fitted_two = Ok nodes /\
    list_sum (map n_samples (filter is_leaf nodes)) = length y_two.
Proof.
  assert (Hfit : fit log2_pow2 clf (NdArray X_two) y_two = Ok fitted_two)
    by (vm_compute; reflexivity).
  assert (Hin : input_array (NdArray X_two) = Some X_two) by reflexivity.
  assert (HX : Forall (fun r => forallb is_num r = true) X_two)
    by (repeat constructor).
  split; [exact Hfit|]. split; [exact Hin|]. split; [exact HX|].
  exact (numerical_leaves_share_out_the_training_instances log2_pow2 clf
           (NdArray X_two) X_two y_two fitted_two Hfit Hin HX).
Defined.

(* ================================================================= *)
(** ** Fitting on one categorical feature *)

Lemma homogeneous_incl (l l' : list cell) :
  incl l' l -> homogeneous l = true -> homogeneous l' = true.
Proof.
  unfold homogeneous. intros Hincl H. apply orb_true_iff in H.
  apply orb_true_iff. destruct H as [H|H]; [left | right];
    rewrite forallb_forall in *; intros c Hc; apply H, Hincl; assumption.
Qed.

Lemma np_unique_homogeneous (l : list cell) :
  homogeneous l = true -> exists u, np_unique l = Ok u.
Proof.
  intros H. unfold np_unique. rewrite H. eauto.
Qed.

Lemma entropy_homogeneous log2 (l : list cell) :
  homogeneous l = true -> exists e, _entropy log2 l = Ok e.
Proof.
  intros H. destruct (np_unique_homogeneous _ H) as [u Hu].
  unfold _entropy, proba. rewrite Hu. cbn [bind]. eauto.
Qed.

Lemma init_homogeneous v b p y cs :
  homogeneous y = true -> exists n, DecisionNode_init v b p y cs = Ok n.
Proof.
  intros H. destruct (np_unique_homogeneous _ H) as [u Hu].
  unfold DecisionNode_init, unique_counts. rewrite Hu. cbn [bind]. eauto.
Qed.

Lemma column_rectangular idx X :
  rectangular X -> idx < shape1 X -> exists col, column idx X = Ok col.
Proof.
  intros Hrect Hidx. unfold column. apply mapM_total. intros r Hr.
  pose proof (rectangular_rows _ _ Hrect Hr) as Hlen.
  destruct (nth_error r idx) as [c|] eqn:E; [simpl; eauto|].
  apply nth_error_None in E. lia.
Qed.

(** A call of the builder on an array without any cell, below a parent
    that has targets, returns a leaf. *)
Lemma tree_builder_no_cell log2 fuel self th X y fi p br d :
  size X = 0 ->
  homogeneous y = true ->
  target p <> [] ->
  exists n, _tree_builder log2 (S fuel) self th X y fi (Some p) br d = Ok (n, th) /\
            is_leaf n = true.
Proof.
  intros Hsize Hy Hp. cbn [_tree_builder].
  destruct (np_unique_homogeneous _ Hy) as [uy Huy]. rewrite Huy. cbn [bind].
  assert (Hleaf : forall m, exists n,
            (n0 <- DecisionNode_init m br (Some p) y (classes_ self) ;; Ok (n0, th))
            = Ok (n, th) /\ is_leaf n = true).
  { intros m. destruct (init_homogeneous m br (Some p) y (classes_ self) Hy) as [n Hn].
    exists n. rewrite Hn. split; [reflexivity|].
    apply DecisionNode_init_fields in Hn. destruct Hn as (_&_&_&_&_&Hch&_).
    unfold is_leaf. rewrite Hch. reflexivity. }
  destruct (length uy =? 1) eqn:Hpure.
  - assert (Hne : 0 < length y).
    { apply Nat.eqb_eq in Hpure. destruct uy as [|c uy]; [discriminate|].
      assert (Hc : In c y) by (apply (proj1 (np_unique_In _ _ c Huy)); left; reflexivity).
      destruct y; [destruct Hc | simpl; lia]. }
    destruct (mode_nonempty _ Hne) as [m Hm]. rewrite Hm. cbn [bind]. apply Hleaf.
  - rewrite Hsize. cbn [Nat.eqb of_option bind].
    assert (Hne : 0 < length (target p)).
    { destruct (target p); [contradiction Hp; reflexivity | simpl; lia]. }
    destruct (mode_nonempty _ Hne) as [m Hm]. rewrite Hm. cbn [bind]. apply Hleaf.
Qed.

Lemma attach_leaves build : forall subtrees th sn,
  (forall Xs ys b sn' th0,
     In (Xs, ys, b) subtrees -> target sn' = target sn ->
     exists c, build th0 Xs ys sn' b = Ok (c, th0)) ->
  exists n, attach_subtrees build th sn subtrees = Ok (n, th).
Proof.
  induction subtrees as [|[[Xs ys] b] rest IH]; intros th sn Hb.
  - simpl. eauto.
  - cbn [attach_subtrees].
    destruct (Hb Xs ys b sn th (or_introl eq_refl) eq_refl) as [c Hc].
    rewrite Hc. cbn [bind]. apply IH.
    intros Xs' ys' b' sn' th0 Hin Htg. apply Hb; [right; assumption|].
    rewrite Htg. reflexivity.
Qed.

Lemma strings_not_numeric (col : list cell) :
  col <> [] -> (forall c, In c col -> is_str c = true) -> is_numeric_dtype col = false.
Proof.
  destruct col as [|c col]; [intros H; contradiction H; reflexivity|].
  intros _ H. simpl. specialize (H c (or_introl eq_refl)).
  unfold is_str in H. destruct (is_num c); [discriminate | reflexivity].
Qed.

Lemma information_gain_categorical log2 th X y idx col :
  column idx X = Ok col ->
  col <> [] ->
  (forall c, In c col -> is_str c = true) ->
  homogeneous y = true ->
  exists g, _compute_information_gain log2 th X y idx = Ok (g, th).
Proof.
  intros Hcol Hne Hstr Hy. unfold _compute_information_gain.
  rewrite Hcol. cbn [bind]. rewrite (strings_not_numeric _ Hne Hstr).
  destruct (np_unique_strings _ Hstr) as [u Hu].
  unfold proba. rewrite Hu. cbn [bind].
  destruct (mapM_total _ _
              (fun level => _entropy log2 (select (map (fun v => cell_eqb v level) col) y))
              u) as [imp Himp].
  { intros level _. apply entropy_homogeneous.
    eapply homogeneous_incl; [apply select_incl | assumption]. }
  rewrite Himp. cbn [bind].
  destruct (entropy_homogeneous log2 y Hy) as [e He]. rewrite He. cbn [bind]. eauto.
Qed.

Lemma partition_categorical X y idx col s levels :
  threshold s = None ->
  column idx X = Ok col ->
  mapM (fun level => _partition_data X y idx level s) levels
  = Ok (map (fun level => Single (categorical_part X y col idx level)) levels).
Proof.
  intros Hthr Hcol. induction levels as [|level levels IH]; [reflexivity|].
  cbn [mapM map]. unfold _partition_data at 1. rewrite Hthr, Hcol. cbn [bind].
  rewrite IH. reflexivity.
Qed.

Lemma singles_triples (l : list (matrix * list cell * cell)) :
  mapM (fun p => match p with
                 | Single t => Ok t
                 | Zipped _ => Err TypeError
                 end) (map Single l) = Ok l.
Proof.
  induction l as [|t l IH]; [reflexivity|]. cbn [map mapM bind]. rewrite IH.
  reflexivity.
Qed.

Lemma categorical_part_no_cell X y col level :
  rectangular X -> shape1 X = 1 ->
  size (fst (fst (categorical_part X y col 0 level))) = 0.
Proof.
  intros Hrect Hone. unfold categorical_part. cbn [fst].
  set (Xs := select (map (fun v => cell_eqb v level) col) X).
  assert (Hrows : forall r, In r Xs -> length r = 1).
  { intros r Hr. rewrite <- Hone. apply rectangular_rows; [assumption|].
    eapply select_incl. exact Hr. }
  unfold size, shape1, np_delete_col. destruct Xs as [|r Xs]; [reflexivity|].
  cbn [map]. specialize (Hrows r (or_introl eq_refl)).
  destruct r as [|c [|c' r]]; try discriminate. simpl. lia.
Qed.

(** The first call of the builder on an array of one categorical column
    returns a tree. *)
Lemma tree_builder_one_categorical log2 fuel self X y name levels :
  rectangular X -> shape1 X = 1 -> X <> [] ->
  (forall r c, In r X -> In c r -> is_str c = true) ->
  length y = length X ->
  homogeneous y = true ->
  nth_error (feature_names_ self) 0 = Some name ->
  dict_get Nat.eq_dec 0 (unique_levels_ self) = Some levels ->
  exists n,
    _tree_builder log2 (S (S fuel)) self [] X y (seq 0 (shape1 X)) None None 0
    = Ok (n, []).
Proof.
  intros Hrect Hone Hne Hstr Hlen Hy Hname Hlev.
  remember (S fuel) as fuel' eqn:Hfuel. cbn [_tree_builder]. rewrite Hone.
  destruct (np_unique_homogeneous _ Hy) as [uy Huy]. rewrite Huy. cbn [bind].
  assert (Hpos : 0 < length y).
  { rewrite Hlen. destruct X; [contradiction Hne; reflexivity | simpl; lia]. }
  destruct (mode_nonempty _ Hpos) as [m Hm].
  assert (Hleaf : exists n,
            (m0 <- mode y ;;
             n0 <- DecisionNode_init m0 None None y (classes_ self) ;; Ok (n0, []))
            = Ok (n, @nil (nat * cell))).
  { rewrite Hm. cbn [bind].
    destruct (init_homogeneous m None None y (classes_ self) Hy) as [n Hn].
    rewrite Hn. cbn [bind]. eauto. }
  destruct (length uy =? 1); [exact Hleaf|].
  destruct (size X =? 0) eqn:Hsize.
  { apply Nat.eqb_eq in Hsize. unfold size, shape0 in Hsize. rewrite Hone in Hsize.
    destruct X; [contradiction Hne; reflexivity | simpl in Hsize; lia]. }
  destruct (all_rows_equal_first X); [exact Hleaf|].
  destruct (match max_depth self with Some k => k =? 0 | None => false end);
    [exact Hleaf|].
  destruct (length X <? min_samples_split self); [exact Hleaf|].
  destruct (column_rectangular 0 X Hrect) as [col Hcol]; [lia|].
  assert (Hcne : col <> []).
  { apply mapM_length in Hcol. destruct col; [|discriminate].
    destruct X; [contradiction Hne; reflexivity | discriminate]. }
  assert (Hcstr : forall c, In c col -> is_str c = true).
  { intros c Hc. destruct (column_cells _ _ _ _ Hcol Hc) as (r & Hr & Hcr).
    eapply Hstr; eassumption. }
  destruct (information_gain_categorical log2 [] X y 0 col Hcol Hcne Hcstr Hy)
    as [g Hg].
  cbn [seq feature_importances]. rewrite Hg. cbn [bind argmax arg_best].
  change (nth_error [0] 0) with (Some 0). cbn [of_option bind].
  rewrite Hname. cbn [of_option bind].
  destruct (init_homogeneous (Str name) None None y (classes_ self) Hy) as [s0 Hs0].
  rewrite Hs0, Hcol. cbn [bind].
  rewrite (strings_not_numeric _ Hcne Hcstr). cbn [bind].
  rewrite Hlev. cbn [of_option bind].
  pose proof (DecisionNode_init_fields _ _ _ _ _ _ Hs0)
    as (_ & Hthr & _ & _ & _ & _ & Htg & _).
  rewrite (partition_categorical X y 0 col s0 levels Hthr Hcol). cbn [bind].
  rewrite <- (map_map (categorical_part X y col 0) Single), singles_triples.
  cbn [bind length Nat.ltb Nat.leb remove_at].
  apply attach_leaves.
  intros Xs ys b sn' th0 Hin Htg'. subst fuel'.
  apply in_map_iff in Hin. destruct Hin as (level & Heq & _).
  pose proof (categorical_part_no_cell X y col level Hrect Hone) as Hsz.
  rewrite Heq in Hsz. cbn [fst] in Hsz.
  destruct (tree_builder_no_cell log2 fuel self th0 Xs ys [] sn' (Some b) (0 + 1))
    as (c & Hc & _); try assumption.
  - unfold categorical_part in Heq. injection Heq as _ <- _.
    eapply homogeneous_incl; [apply select_incl | assumption].
  - rewrite Htg', Htg. destruct y; [simpl in Hpos; lia | discriminate].
  - eauto.
Qed.

Lemma at_depth_zero root n : at_depth root 0 n -> n = root.
Proof.
  intros H. inversion H. reflexivity.
Qed.

Lemma at_depth_ancestor root k n :
  at_depth root k n ->
  forall j, j < k -> exists m, at_depth root j m /\ is_leaf m = false.
Proof.
  induction 1 as [|k n b c Hat IH Hin]; intros j Hj; [lia|].
  destruct (Nat.eq_dec j k) as [->|Hne].
  - exists n. split; [assumption|].
    unfold is_leaf. destruct (children n); [destruct Hin | reflexivity].
  - apply IH. lia.
Qed.

(** X28. On valid training data with a single feature whose values are
    all strings, given as a list or an array, with targets that are all
    strings or all numbers, [fit] raises nothing: it returns an estimator
    with a tree, whose nodes are the root and leaves below it. *)
Theorem fit_succeeds_on_one_categorical_feature :
  forall (log2 : Q -> Q) self input X y,
    input = PyList X \/ input = NdArray X ->
    check_X_y X y = Ok tt ->
    shape1 X = 1 ->
    (forall r c, In r X -> In c r -> is_str c = true) ->
    homogeneous y = true ->
    exists est tree,
      fit log2 self input y = Ok est /\
      tree_ est = Some tree /\
      forall k n, at_depth tree k n -> k <= 1.
Proof.
  intros log2 self input X y Hin Hchk Hone Hstr Hy.
  pose proof (check_X_y_rectangular _ _ Hchk) as Hrect.
  pose proof (check_X_y_aligned _ _ Hchk) as Hlen.
  destruct (check_X_y_rows _ _ Hchk) as [Hrows _].
  assert (Hne : X <> []).
  { intros ->. simpl in Hrows. lia. }
  destruct (column_rectangular 0 X Hrect) as [col Hcol]; [lia|].
  assert (Hcne : col <> []).
  { apply mapM_length in Hcol. destruct col; [|discriminate].
    destruct X; [contradiction Hne; reflexivity | discriminate]. }
  assert (Hcstr : forall c, In c col -> is_str c = true).
  { intros c Hc. destruct (column_cells _ _ _ _ Hcol Hc) as (r & Hr & Hcr).
    eapply Hstr; eassumption. }
  destruct (np_unique_strings _ Hcstr) as [u Hu].
  destruct (np_unique_homogeneous _ Hy) as [classes Hcl].
  assert (Hfit : exists est, fit log2 self input y = Ok est).
  { unfold fit.
    assert (Hnames : match input with
                     | PyList X =>
                         x0 <- of_option IndexError (nth_error X 0) ;;
                         Ok (map feature_name (seq 0 (length x0)), X)
                     | NdArray X => Ok (map feature_name (seq 0 (shape1 X)), X)
                     | DataFrame columns X => Ok (columns, X)
                     | OtherType => Err PyException
                     end = Ok ([feature_name 0], X)).
    { destruct Hin as [-> | ->].
      - destruct X as [|x0 X']; [contradiction Hne; reflexivity|].
        simpl in Hone. cbn [nth_error of_option bind]. rewrite Hone. reflexivity.
      - rewrite Hone. reflexivity. }
    rewrite Hnames. cbn [bind]. rewrite Hchk. cbn [bind]. rewrite Hcl. cbn [bind].
    assert (Hul : unique_levels X = Ok [(0, u)]).
    { unfold unique_levels. rewrite Hone. cbn [seq mapM]. rewrite Hcol. cbn [bind].
      rewrite (strings_not_numeric _ Hcne Hcstr), Hu. reflexivity. }
    rewrite Hul. cbn [bind].
    replace (S (shape0 X + shape1 X)) with (S (S (shape0 X))) by lia.
    match goal with
    | |- context [_tree_builder log2 (S (S ?f)) ?s [] X y _ None None 0] =>
        destruct (tree_builder_one_categorical log2 f s X y (feature_name 0) u)
          as [n Hn]; try assumption; try reflexivity
    end.
    - symmetry. assumption.
    - rewrite Hn. cbn [bind]. eauto. }
  destruct Hfit as [est Hfit].
  destruct (fit_call _ _ _ _ _ Hfit)
    as (X' & tree & th & HX & _ & _ & _ & _ & _ & _ & Ht & _).
  assert (X' = X).
  { destruct Hin as [-> | ->]; simpl in HX; injection HX as <-; reflexivity. }
  subst X'.
  exists est, tree. split; [assumption|]. split; [assumption|].
  intros k n Hat.
  destruct (Nat.le_gt_cases k 1) as [Hle|Hgt]; [assumption|]. exfalso.
  destruct (at_depth_ancestor _ _ _ Hat 1 Hgt) as (m & Hm & Hleafm).
  inversion Hm as [|k' n' b c Hat' Hinm]; subst.
  apply at_depth_zero in Hat'. subst n'.
  assert (Hleaf0 : is_leaf tree = false).
  { unfold is_leaf. destruct (children tree); [destruct Hinm | reflexivity]. }
  destruct (fit_internal_node _ _ _ _ _ _ _ _ Hfit Ht (at_depth_root tree) Hleaf0)
    as (fuel & Xn & yn & idx & col' & name & s0 & s1 & subtrees & fi' &
        _ & _ & _ & _ & Hroot & _ & Hidx & Hcol' & _ & Hcases & _ & _ & _ & Hkids).
  destruct (Hroot eq_refl) as [HXn ->]. rewrite HX in HXn. injection HXn as <-.
  assert (idx = 0) by lia. subst idx.
  rewrite Hcol in Hcol'. injection Hcol' as <-.
  destruct Hcases as [(t & mask & Hnum & _) | (levels & _ & _ & _ & ->)].
  { rewrite (strings_not_numeric _ Hcne Hcstr) in Hnum. discriminate. }
  apply in_split in Hinm. destruct Hinm as (l1 & l2 & Hsplit).
  destruct (Hkids _ _ _ _ Hsplit) as (Xs & ys & th0 & th1 & Hnth & Hc).
  apply nth_error_In in Hnth. apply in_map_iff in Hnth.
  destruct Hnth as (level & Heq & _).
  pose proof (categorical_part_no_cell X y col level Hrect Hone) as Hsz.
  rewrite Heq in Hsz. cbn [fst] in Hsz.
  destruct fuel as [|fuel]; [discriminate|].
  destruct (tree_builder_split _ _ _ _ _ _ _ _ _ _ _ _ Hc Hleafm)
    as (uy & gains & th2 & idx & norm & name' & s0' & col' & s1' & levels' &
        subtrees' & fi'' & _ & _ & Hsize & _).
  contradiction.
Qed.

(** Witness for X28: the end-to-end scenario. *)
Lemma fit_succeeds_on_one_categorical_feature_witness :
  (NdArray X_cat = PyList X_cat \/ NdArray X_cat = NdArray X_cat) /\
  check_X_y X_cat y_cat = Ok tt /\
  shape1 X_cat = 1 /\
  (forall r c, In r X_cat -> In c r -> is_str c = true) /\
  homogeneous y_cat = true /\
  exists est tree,
    fit log2_pow2 clf (NdArray X_cat) y_cat = Ok est /\
    tree_ est = Some tree /\
    forall k n, at_depth tree k n -> k <= 1.
Proof.
  assert (Hin : NdArray X_cat = PyList X_cat \/ NdArray X_cat = NdArray X_cat)
    by (right; reflexivity).
  assert (Hchk : check_X_y X_cat y_cat = Ok tt) by (vm_compute; reflexivity).
  assert (Hs : shape1 X_cat = 1) by reflexivity.
  assert (Hstr : forall r c, In r X_cat -> In c r -> is_str c = true).
  { intros r c [<-|[<-|[<-|[<-|[]]]]] [<-|[]]; reflexivity. }
  assert (Hy : homogeneous y_cat = true) by reflexivity.
  split; [exact Hin|]. split; [exact Hchk|]. split; [exact Hs|].
  split; [exact Hstr|]. split; [exact Hy|].
  exact (fit_succeeds_on_one_categorical_feature log2_pow2 clf (NdArray X_cat)
           X_cat y_cat Hin Hchk Hs Hstr Hy).
Defined.

(* ================================================================= *)
(** ** The gain of the search on the last column *)

Lemma Qc_ltb_ge (a b : Qc) : Qc_ltb a b = false <-> (b <= a)%Qc.
Proof.
  split; intros H.
  - apply Qcnot_lt_le. intros Hlt. apply Qc_ltb_lt in Hlt. congruence.
  - destruct (Qc_ltb a b) eqn:E; [|reflexivity].
    apply Qc_ltb_lt in E. exfalso. exact (Qclt_not_le _ _ E H).
Qed.

(** A column of numbers that is not empty has a least element. *)
Lemma numeric_column_minimum (col : list cell) :
  col <> [] -> is_numeric_dtype col = true ->
  exists j q,
    nth_error col j = Some (Num q) /\
    forall v, In v col -> py_lt v (Num q) = Ok false.
Proof.
  unfold is_numeric_dtype.
  induction col as [|a col IH]; intros Hne Hnum; [contradiction Hne; reflexivity|].
  simpl in Hnum. apply andb_true_iff in Hnum. destruct Hnum as [Ha Hnum].
  destruct a as [qa|s]; [|discriminate].
  destruct col as [|b col].
  - exists 0, qa. split; [reflexivity|]. intros v [<-|[]]. simpl. f_equal.
    apply Qc_ltb_ge. apply Qcle_refl.
  - destruct IH as (j & q & Hj & Hmin); [discriminate | assumption|].
    destruct (Qc_ltb q qa) eqn:E.
    + exists (S j), q. split; [exact Hj|]. intros v [<-|Hv]; [|apply Hmin; assumption].
      simpl. f_equal. apply Qc_ltb_ge. apply Qclt_le_weak. apply Qc_ltb_lt. assumption.
    + exists 0, qa. split; [reflexivity|]. apply Qc_ltb_ge in E.
      intros v [<-|Hv].
      * simpl. f_equal. apply Qc_ltb_ge. apply Qcle_refl.
      * specialize (Hmin v Hv). destruct v as [qv|s]; [|discriminate].
        simpl in Hmin |- *. f_equal. injection Hmin as Hmin.
        apply Qc_ltb_ge in Hmin. apply Qc_ltb_ge.
        eapply Qcle_trans; eassumption.
Qed.

Lemma mapM_constant (A B : Type) (f : A -> result B) (l : list A) (b : B) :
  (forall a, In a l -> f a = Ok b) -> mapM f l = Ok (map (fun _ => b) l).
Proof.
  induction l as [|a l IH]; intros H; [reflexivity|].
  cbn [mapM map]. rewrite (H a (or_introl eq_refl)). cbn [bind].
  rewrite IH by (intros a' Ha'; apply H; right; assumption). reflexivity.
Qed.

Lemma select_none (A : Type) (a : list A) (n : nat) :
  length a = n -> select (repeat false n) a = [] /\ select (invert (repeat false n)) a = a.
Proof.
  unfold select, invert. revert n. induction a as [|x a IH]; intros [|n] Hlen;
    try discriminate; [split; reflexivity|].
  injection Hlen as Hlen. destruct (IH n Hlen) as [H1 H2]. simpl.
  split; [assumption | f_equal; assumption].
Qed.

Lemma map_constant_repeat (A B : Type) (l : list A) (b : B) :
  map (fun _ => b) l = repeat b (length l).
Proof.
  induction l as [|a l IH]; [reflexivity|]. simpl. f_equal. exact IH.
Qed.

(** X29. The gain the threshold search returns for the last column, when
    it holds numbers, is never negative, whatever [np.log2] computes: the
    least value of the column is among the candidates, it leaves no row
    strictly below it, and its cost is the entropy of the targets. *)
Theorem gain_of_search_on_last_column_is_not_negative :
  forall (log2 : Q -> Q) X y col g t,
    rectangular X ->
    0 < shape1 X ->
    length y = length X ->
    column (shape1 X - 1) X = Ok col ->
    is_numeric_dtype col = true ->
    _compute_optimal_threshold log2 X y (shape1 X - 1) = Ok (g, t) ->
    (0 <= g)%Q.
Proof.
  intros log2 X y col g t Hrect Hcols Hlen Hcol Hnum H.
  destruct (optimal_threshold_spec _ _ _ _ _ _ H)
    as (costs & k & row & c & ey & Hcosts & Hrow & _ & _ & Hmin & _ & Hey & ->).
  assert (Hcne : col <> []).
  { apply mapM_length in Hcol. destruct col; [|discriminate].
    destruct X; [discriminate Hrow' || (destruct k; discriminate) | discriminate]. }
  destruct (numeric_column_minimum col Hcne Hnum) as (j & q & Hj & Hleast).
  destruct (mapM_nth_inv _ _ _ _ _ _ _ Hcol Hj) as (rj & Hrj & Hcell).
  apply of_option_Ok in Hcell.
  destruct (mapM_nth _ _ _ _ _ _ _ Hcosts Hrj) as (cj & Hcj & Hcost).
  assert (Hlast : last_cell rj = Ok (Num q)).
  { unfold last_cell. rewrite (rectangular_rows _ _ Hrect (nth_error_In _ _ Hrj)).
    rewrite Hcell. reflexivity. }
  unfold cost in Hcost. rewrite Hlast, Hcol in Hcost. cbn [bind] in Hcost.
  rewrite (mapM_constant _ _ (fun v => py_lt v (Num q)) col false Hleast) in Hcost.
  cbn [bind] in Hcost. rewrite map_constant_repeat in Hcost.
  assert (Hlc : length col = length X) by (apply mapM_length in Hcol; assumption).
  destruct (select_none _ y (length col)) as [Hy1 Hy2]; [congruence|].
  destruct (select_none _ X (length col)) as [HX1 HX2]; [congruence|].
  unfold split_mask in Hcost. rewrite Hy1, Hy2, HX1, HX2, Hey in Hcost.
  change (_entropy log2 []) with (Ok (- Qsum [])%Q) in Hcost.
  cbn [bind map] in Hcost. injection Hcost as Hcj'.
  specialize (Hmin j cj Hcj).
  assert (Heq : (cj == ey)%Q).
  { rewrite <- Hcj'. unfold dot, Qsum. cbn [combine map fold_right fst snd length].
    assert (Hpos : ~ (Q_of_nat (length X) == 0)%Q).
    { unfold Q_of_nat. rewrite <- Hlc.
      destruct col as [|c0 col']; [contradiction Hcne; reflexivity|].
      simpl length. rewrite Nat2Z.inj_succ. unfold Qeq. simpl. lia. }
    unfold Q_of_nat at 1. simpl (inject_Z (Z.of_nat 0)). field. assumption. }
  rewrite Heq in Hmin. unfold Qminus. rewrite <- Qle_minus_iff. assumption.
Qed.

(** Witness for X29: the search on the last column of [X_pair]. *)
Lemma gain_of_search_on_last_column_is_not_negative_witness :
  rectangular X_pair /\
  0 < shape1 X_pair /\
  length y_two = length X_pair /\
  column (shape1 X_pair - 1) X_pair = Ok [num 10; num 20] /\
  is_numeric_dtype [num 10; num 20] = true /\
  _compute_optimal_threshold log2_pow2 X_pair y_two (shape1 X_pair - 1)
    = Ok (fst search_pair, snd search_pair) /\
  (0 <= fst search_pair)%Q.
Proof.
  assert (Hr : rectangular X_pair) by (repeat constructor).
  assert (Hc : 0 < shape1 X_pair) by (vm_compute; lia).
  assert (Hlen : length y_two = length X_pair) by reflexivity.
  assert (Hcol : column (shape1 X_pair - 1) X_pair = Ok [num 10; num 20])
    by (vm_compute; reflexivity).
  assert (Hnum : is_numeric_dtype [num 10; num 20] = true) by reflexivity.
  assert (Hs : _compute_optimal_threshold log2_pow2 X_pair y_two
                 (shape1 X_pair - 1) = Ok (fst search_pair, snd search_pair))
    by (vm_compute; reflexivity).
  split; [exact Hr|]. split; [exact Hc|]. split; [exact Hlen|].
  split; [exact Hcol|]. split; [exact Hnum|]. split; [exact Hs|].
  exact (gain_of_search_on_last_column_is_not_negative log2_pow2 X_pair y_two
           [num 10; num 20] (fst search_pair) (snd search_pair)
           Hr Hc Hlen Hcol Hnum Hs).
Defined.
